(** * Suite2pData: a shallow embedding of [suite2pdata.py]

    The class [Suite2pData] is a stateful accessor over the output folder of
    suite2p.  Its methods are embedded as computations in a state-and-exception
    monad over the object's attributes and the part of the Python process they
    touch: the heap of numpy arrays, numpy's global random generator, the
    standard output, the file system and a log of the calls to [np.load]. *)

From Stdlib Require Import Floats.
From stdpp Require Import gmap strings list sorting.

#[local] Set Warnings "-inexact-float".
Local Open Scope Z_scope.

(** ** Python sequences *)

(** [l[i]] on a Python list or a numpy axis of length [n]: indices
    [0 .. n-1] count from the front, [-n .. -1] from the back, anything else
    raises [IndexError]. *)
Definition py_index (n : nat) (i : Z) : option nat :=
  if bool_decide (0 ≤ i < Z.of_nat n) then Some (Z.to_nat i)
  else if bool_decide (- Z.of_nat n ≤ i < 0) then Some (Z.to_nat (i + Z.of_nat n))
  else None.

Definition py_getitem {X} (l : list X) (i : Z) : option X :=
  k ← py_index (length l) i; l !! k.

Definition py_setitem {X} (l : list X) (i : Z) (x : X) : option (list X) :=
  k ← py_index (length l) i; Some (<[k:=x]> l).

(** ** numpy values *)

(** [np.int] is the C long: a 64-bit signed integer on the platforms of the
    first import branch.  Casting to it wraps around. *)
Definition np_int (z : Z) : Z := (z + 2 ^ 63) `mod` 2 ^ 64 - 2 ^ 63.

Definition np_int_range (z : Z) : Prop := - 2 ^ 63 ≤ z < 2 ^ 63.

(** An integer array as the selection setter receives it: one-dimensional, or
    two-dimensional as [np.argwhere] returns it. *)
Inductive int_ndarray :=
  | Vec (l : list Z)
  | Mat (ll : list (list Z)).

Definition ravel (a : int_ndarray) : list Z :=
  match a with
  | Vec l => l
  | Mat ll => concat ll
  end.

(** [np.argwhere(mask)] for a one-dimensional boolean [mask]: the indices of
    the true entries, in increasing order, as a [k x 1] array. *)
Fixpoint argwhere_from (i : Z) (mask : list bool) : list (list Z) :=
  match mask with
  | [] => []
  | b :: mask' =>
      (if b then [[i]] else []) ++ argwhere_from (i + 1) mask'
  end.

Definition np_argwhere (mask : list bool) : int_ndarray :=
  Mat (argwhere_from 0 mask).

(** [a[ids]] for a one-dimensional [a] and an integer array [ids] whose
    values fit the index type of numpy (int64); numpy casts an index array
    of another integer type to it first. *)
Definition take {X} (a : list X) (ids : list Z) : option (list X) :=
  mapM (py_getitem a) ids.

(** The value of the [shuffletraces] attribute: the setter stores whatever it
    is given, and the accessors test it with [is True]. *)
Inductive pyflag :=
  | PyBool (b : bool)
  | PyOther.

Definition is_True (v : pyflag) : bool :=
  match v with
  | PyBool true => true
  | _ => false
  end.

(** The [selector] argument of [select_neurons]: a string or anything else. *)
Inductive pyobj :=
  | PyStr (s : string)
  | PyNotStr.

(** ** File contents *)

(** One entry of [ops1.npy]. *)
Record ops_record := {
  meanImg : list (list float);
  aspect : float
}.

(** One entry of [stat.npy]; ["med"] is the median position (row, column),
    a pair of Python integers. *)
Record roi_stat := {
  med : Z * Z
}.

(** [iscell.npy]: one row per ROI, column 0 the flag, column 1 the
    probability. *)
Definition iscell_table := list (float * float).

(** [os.path.join] on POSIX paths, for a first part that is not empty and
    has no trailing separator (as [glob] returns the plane folders), and a
    relative second part. *)
Definition os_path_join (a b : string) : string := a +:+ "/" +:+ b.

(** ** Exceptions and messages *)

Inductive exn :=
  | IndexError
  | TypeError
  | IOError (filename : string)
  | DanglingReference
  | OverflowError.

(** What the methods print, with the values they format into the text. *)
Inductive message :=
  | MsgSelectedPlane (plane : Z)
  | MsgSelectIscell (n : nat)
  | MsgSelectNotIscell (n : nat)
  | MsgSelectLarger (n : nat) (threshold : float)
  | MsgSelectSmaller (n : nat) (threshold : float)
  | MsgLoadingSpikes (plane : Z)
  | MsgLoadingF (plane : Z)
  | WarnSpikesShuffled
  | WarnFShuffled.

(** References to numpy arrays on the heap. *)
Abbreviation loc := positive (only parsing).

Section suite2pdata.

(** The element type of the trace matrices (the code never inspects it), the
    state of [np.random] and its bounded draw [random_interval], which
    [np.random.shuffle] calls. *)
Context {A G : Type} (random_interval : G → nat → nat * G).

(** A two-dimensional array: [shape1] columns, and its rows. *)
Record ndarray2 := {
  shape1 : nat;
  rows : list (list A)
}.

Definition shape0 (m : ndarray2) : nat := length (rows m).

(** [m[ids, :]]: a new array with the rows of [m] at [ids]. *)
Definition take_rows (m : ndarray2) (ids : list Z) : option ndarray2 :=
  rs ← take (rows m) ids; Some {| shape1 := shape1 m; rows := rs |}.

(** The files the class reads, by kind. *)
Record FileSystem := {
  glob_glob : string → list string;
  ops_files : string → option (list ops_record);
  stat_files : string → option (list roi_stat);
  iscell_files : string → option iscell_table;
  trace_files : string → option ndarray2
}.

(** The attributes of a [Suite2pData] object. *)
Record Suite2pData := {
  _datapath : string;
  _s2proot : string;
  _plane_paths : list string;
  _nplanes : nat;
  _ops : list ops_record;
  _roiinfo : list (list roi_stat);
  _nrois_total : list nat;
  _iscell : list iscell_table;
  _x : list (list Z);
  _y : list (list Z);
  _selected_id : list (list Z);
  _plane : Z;
  _shuffletraces : pyflag;
  _spikes : list (option loc);
  _F : list (option loc)
}.

(** The object before [__init__] has run. *)
Definition blank : Suite2pData :=
  {| _datapath := ""; _s2proot := ""; _plane_paths := []; _nplanes := 0;
     _ops := []; _roiinfo := []; _nrois_total := []; _iscell := [];
     _x := []; _y := []; _selected_id := []; _plane := 0;
     _shuffletraces := PyBool false; _spikes := []; _F := [] |}.

Definition with_selected_id (v : list (list Z)) (s : Suite2pData) :=
  {| _datapath := _datapath s; _s2proot := _s2proot s;
     _plane_paths := _plane_paths s; _nplanes := _nplanes s; _ops := _ops s;
     _roiinfo := _roiinfo s; _nrois_total := _nrois_total s;
     _iscell := _iscell s; _x := _x s; _y := _y s; _selected_id := v;
     _plane := _plane s; _shuffletraces := _shuffletraces s;
     _spikes := _spikes s; _F := _F s |}.

Definition with_plane (v : Z) (s : Suite2pData) :=
  {| _datapath := _datapath s; _s2proot := _s2proot s;
     _plane_paths := _plane_paths s; _nplanes := _nplanes s; _ops := _ops s;
     _roiinfo := _roiinfo s; _nrois_total := _nrois_total s;
     _iscell := _iscell s; _x := _x s; _y := _y s;
     _selected_id := _selected_id s; _plane := v;
     _shuffletraces := _shuffletraces s; _spikes := _spikes s; _F := _F s |}.

Definition with_shuffletraces (v : pyflag) (s : Suite2pData) :=
  {| _datapath := _datapath s; _s2proot := _s2proot s;
     _plane_paths := _plane_paths s; _nplanes := _nplanes s; _ops := _ops s;
     _roiinfo := _roiinfo s; _nrois_total := _nrois_total s;
     _iscell := _iscell s; _x := _x s; _y := _y s;
     _selected_id := _selected_id s; _plane := _plane s;
     _shuffletraces := v; _spikes := _spikes s; _F := _F s |}.

Definition with_spikes (v : list (option loc)) (s : Suite2pData) :=
  {| _datapath := _datapath s; _s2proot := _s2proot s;
     _plane_paths := _plane_paths s; _nplanes := _nplanes s; _ops := _ops s;
     _roiinfo := _roiinfo s; _nrois_total := _nrois_total s;
     _iscell := _iscell s; _x := _x s; _y := _y s;
     _selected_id := _selected_id s; _plane := _plane s;
     _shuffletraces := _shuffletraces s; _spikes := v; _F := _F s |}.

Definition with_F (v : list (option loc)) (s : Suite2pData) :=
  {| _datapath := _datapath s; _s2proot := _s2proot s;
     _plane_paths := _plane_paths s; _nplanes := _nplanes s; _ops := _ops s;
     _roiinfo := _roiinfo s; _nrois_total := _nrois_total s;
     _iscell := _iscell s; _x := _x s; _y := _y s;
     _selected_id := _selected_id s; _plane := _plane s;
     _shuffletraces := _shuffletraces s; _spikes := _spikes s; _F := v |}.

(** ** The process state *)

(** [self] is the object; [heap] holds the numpy matrices the object and its
    callers refer to; [rng] is the state of [np.random]; [stdout] is what was
    printed, oldest first; [np_loads] lists the file names handed to
    [np.load], oldest first, each with whether the read succeeded. *)
Record State := {
  self : Suite2pData;
  heap : gmap loc ndarray2;
  rng : G;
  stdout : list message;
  np_loads : list (string * bool);
  files : FileSystem
}.

Definition with_self (v : Suite2pData) (σ : State) :=
  {| self := v; heap := heap σ; rng := rng σ; stdout := stdout σ;
     np_loads := np_loads σ; files := files σ |}.

Definition with_heap (v : gmap loc ndarray2) (σ : State) :=
  {| self := self σ; heap := v; rng := rng σ; stdout := stdout σ;
     np_loads := np_loads σ; files := files σ |}.

Definition with_rng (v : G) (σ : State) :=
  {| self := self σ; heap := heap σ; rng := v; stdout := stdout σ;
     np_loads := np_loads σ; files := files σ |}.

Definition with_stdout (v : list message) (σ : State) :=
  {| self := self σ; heap := heap σ; rng := rng σ; stdout := v;
     np_loads := np_loads σ; files := files σ |}.

Definition with_np_loads (v : list (string * bool)) (σ : State) :=
  {| self := self σ; heap := heap σ; rng := rng σ; stdout := stdout σ;
     np_loads := v; files := files σ |}.

(** ** The monad of method bodies *)

(** A computation runs from a state to a value or a raised exception, and the
    state it leaves; what was done before an exception stays done. *)
Definition M (X : Type) : Type := State → (exn + X) * State.

#[global] Instance M_ret : MRet M := λ X x σ, (inr x, σ).

#[global] Instance M_bind : MBind M := λ X Y f c σ,
  match c σ with
  | (inl e, σ') => (inl e, σ')
  | (inr x, σ') => f x σ'
  end.

Definition raise {X} (e : exn) : M X := λ σ, (inl e, σ).

Definition get_self : M Suite2pData := λ σ, (inr (self σ), σ).

Definition put_self (s : Suite2pData) : M unit := λ σ, (inr (), with_self s σ).

Definition print (m : message) : M unit :=
  λ σ, (inr (), with_stdout (stdout σ ++ [m]) σ).

(** A subscript that raises [IndexError] out of range. *)
Definition subscript {X} (o : option X) : M X :=
  match o with
  | Some x => mret x
  | None => raise IndexError
  end.

(** ** Handling of imaging planes *)

Definition nplanes : M nat := s ← get_self; mret (_nplanes s).

Definition plane : M Z := s ← get_self; mret (_plane s).

(** The [plane] setter; [plane_nr] is an integer, on which [int] is the
    identity. *)
Definition set_plane (plane_nr : Z) : M unit :=
  s ← get_self;
  put_self (with_plane plane_nr s);;
  p ← plane;
  print (MsgSelectedPlane p).

(** ** Handling of ROI data *)

(** The [neurons] getter: a copy of the selection of the current plane, cast
    to [np.int]. *)
Definition neurons : M (list Z) :=
  s ← get_self;
  sel ← subscript (py_getitem (_selected_id s) (_plane s));
  mret (np_int <$> sel).

(** The [neurons] setter. *)
Definition set_neurons (selection : int_ndarray) : M unit :=
  s ← get_self;
  l ← subscript (py_setitem (_selected_id s) (_plane s) (ravel selection));
  put_self (with_selected_id l s).

Definition nrois : M nat :=
  s ← get_self;
  sel ← subscript (py_getitem (_selected_id s) (_plane s));
  mret (length sel).

Definition x : M (list Z) :=
  s ← get_self;
  xs ← subscript (py_getitem (_x s) (_plane s));
  sel ← subscript (py_getitem (_selected_id s) (_plane s));
  r ← subscript (take xs sel);
  mret (np_int <$> r).

Definition y : M (list Z) :=
  s ← get_self;
  ys ← subscript (py_getitem (_y s) (_plane s));
  sel ← subscript (py_getitem (_selected_id s) (_plane s));
  r ← subscript (take ys sel);
  mret (np_int <$> r).

(** [table[:,0] == 1], [table[:,0] == 0], [table[:,1] > threshold] and
    [table[:,1] < threshold], elementwise on float64. *)
Definition flag_is_1 (t : iscell_table) : list bool :=
  (λ r, PrimFloat.eqb r.1 1) <$> t.

Definition flag_is_0 (t : iscell_table) : list bool :=
  (λ r, PrimFloat.eqb r.1 0) <$> t.

Definition p_larger_than (threshold : float) (t : iscell_table) : list bool :=
  (λ r, PrimFloat.ltb threshold r.2) <$> t.

Definition p_smaller_than (threshold : float) (t : iscell_table) : list bool :=
  (λ r, PrimFloat.ltb r.2 threshold) <$> t.

(** The comparison of the probabilities with a missing threshold ([None])
    raises [TypeError], for a table that has a row; numpy compares
    elementwise. *)
Definition given (threshold : option float) : M float :=
  match threshold with
  | Some t => mret t
  | None => raise TypeError
  end.

Definition select_neurons (selector : pyobj) (threshold : option float)
    : M unit :=
  match selector with
  | PyStr selector =>
      (if String.eqb selector "iscell" then
         s ← get_self;
         t ← subscript (py_getitem (_iscell s) (_plane s));
         set_neurons (np_argwhere (flag_is_1 t));;
         n ← neurons;
         print (MsgSelectIscell (length n))
       else mret ());;
      (if String.eqb selector "isnotcell" then
         s ← get_self;
         t ← subscript (py_getitem (_iscell s) (_plane s));
         set_neurons (np_argwhere (flag_is_0 t));;
         n ← neurons;
         print (MsgSelectNotIscell (length n))
       else mret ());;
      (if String.eqb selector "iscell_p_larger_than" then
         s ← get_self;
         t ← subscript (py_getitem (_iscell s) (_plane s));
         thr ← given threshold;
         set_neurons (np_argwhere (p_larger_than thr t));;
         n ← neurons;
         print (MsgSelectLarger (length n) thr)
       else mret ());;
      (if String.eqb selector "iscell_p_smaller_than" then
         s ← get_self;
         t ← subscript (py_getitem (_iscell s) (_plane s));
         thr ← given threshold;
         set_neurons (np_argwhere (p_smaller_than thr t));;
         n ← neurons;
         print (MsgSelectSmaller (length n) thr)
       else mret ())
  | PyNotStr => mret ()
  end.

(** What each recognized branch of [select_neurons] does, for the mask
    [mask_of] computed from the classification table and the message [msg]. *)
Definition select_with (mask_of : iscell_table → list bool)
    (msg : nat → message) : M unit :=
  s ← get_self;
  t ← subscript (py_getitem (_iscell s) (_plane s));
  set_neurons (np_argwhere (mask_of t));;
  n ← neurons;
  print (msg (length n)).

(** ** Handling of shuffling settings *)

Definition shuffletraces : M pyflag := s ← get_self; mret (_shuffletraces s).

Definition set_shuffletraces (shuffle_setting : pyflag) : M unit :=
  s ← get_self; put_self (with_shuffletraces shuffle_setting s).

(** ** numpy arrays on the heap *)

(** A new array gets an address that is not in use. *)
Definition alloc (m : ndarray2) : M loc := λ σ,
  let l := fresh (dom (heap σ)) in
  (inr l, with_heap (<[l:=m]> (heap σ)) σ).

Definition deref (l : loc) : M ndarray2 := λ σ,
  match heap σ !! l with
  | Some m => (inr m, σ)
  | None => (inl DanglingReference, σ)
  end.

Definition store (l : loc) (m : ndarray2) : M unit := λ σ,
  (inr (), with_heap (<[l:=m]> (heap σ)) σ).

Definition log_load (filename : string) (ok : bool) : M unit := λ σ,
  (inr (), with_np_loads (np_loads σ ++ [(filename, ok)]) σ).

(** [np.load] of a file of the given kind: the contents, or an exception
    when the file cannot be read. *)
Definition np_load_as {X} (kind : FileSystem → string → option X)
    (filename : string) : M X := λ σ,
  match kind (files σ) filename with
  | Some v => (log_load filename true;; mret v) σ
  | None => (log_load filename false;; raise (IOError filename)) σ
  end.

(** [np.load] of a trace matrix: a new array on the heap. *)
Definition np_load (filename : string) : M loc :=
  m ← np_load_as trace_files filename; alloc m.

(** [np.array(m[ids, :])]: the indexing makes a new array, [np.array] copies
    it once more. *)
Definition np_take_rows (l : loc) (ids : list Z) : M loc :=
  m ← deref l;
  g ← subscript (take_rows m ids);
  tmp ← alloc g;
  m' ← deref tmp;
  alloc m'.

(** ** np.random.shuffle *)

Definition swap {X} (a : list X) (i j : nat) : list X :=
  match a !! i, a !! j with
  | Some ai, Some aj => <[i:=aj]> (<[j:=ai]> a)
  | _, _ => a
  end.

(** The loop of [np.random.shuffle] on a one-dimensional array:
    [for i in reversed(range(1, n)): j = random_interval(i); swap a[i], a[j]]. *)
Fixpoint shuffle_from (i : nat) (g : G) (a : list A) : G * list A :=
  match i with
  | O => (g, a)
  | S i' =>
      let '(j, g') := random_interval g i in
      shuffle_from i' g' (swap a i j)
  end.

Definition shuffle_raw (g : G) (a : list A) : G * list A :=
  shuffle_from (length a - 1)%nat g a.

Definition get_rng : M G := λ σ, (inr (rng σ), σ).

Definition put_rng (g : G) : M unit := λ σ, (inr (), with_rng g σ).

(** [np.random.shuffle(m[ix,:])]: the row is a view, shuffled in place. *)
Definition np_random_shuffle (l : loc) (ix : nat) : M unit :=
  m ← deref l;
  row ← subscript (rows m !! ix);
  g ← get_rng;
  let '(g', row') := shuffle_raw g row in
  put_rng g';;
  store l {| shape1 := shape1 m; rows := <[ix:=row']> (rows m) |}.

(** [for ix in range(i, i + n): body ix]. *)
Fixpoint for_range_from (i n : nat) (body : nat → M unit) : M unit :=
  match n with
  | O => mret ()
  | S n' => body i;; for_range_from (S i) n' body
  end.

Definition for_range (n : nat) (body : nat → M unit) : M unit :=
  for_range_from 0 n body.

(** ** Data access functions *)

(** What [cache[plane][ids, :]] subscripts: the cached array, and not [None]. *)
Definition loaded (c : option loc) : M loc :=
  match c with
  | Some l => mret l
  | None => raise TypeError
  end.

Definition spikes : M loc :=
  s ← get_self;
  c ← subscript (py_getitem (_spikes s) (_plane s));
  (if c is None then
     print (MsgLoadingSpikes (_plane s));;
     p ← subscript (py_getitem (_plane_paths s) (_plane s));
     l ← np_load (os_path_join p "spks.npy");
     s ← get_self;
     cache ← subscript (py_setitem (_spikes s) (_plane s) (Some l));
     put_self (with_spikes cache s)
   else mret ());;
  s ← get_self;
  c ← subscript (py_getitem (_spikes s) (_plane s));
  ids ← subscript (py_getitem (_selected_id s) (_plane s));
  l ← loaded c;
  spike_matrix ← np_take_rows l ids;
  sh ← shuffletraces;
  (if is_True sh then
     print WarnSpikesShuffled;;
     m ← deref spike_matrix;
     for_range (shape0 m) (np_random_shuffle spike_matrix)
   else mret ());;
  mret spike_matrix.

Definition F : M loc :=
  s ← get_self;
  c ← subscript (py_getitem (_F s) (_plane s));
  (if c is None then
     print (MsgLoadingF (_plane s));;
     p ← subscript (py_getitem (_plane_paths s) (_plane s));
     l ← np_load (os_path_join p "F.npy");
     s ← get_self;
     cache ← subscript (py_setitem (_F s) (_plane s) (Some l));
     put_self (with_F cache s)
   else mret ());;
  s ← get_self;
  c ← subscript (py_getitem (_F s) (_plane s));
  ids ← subscript (py_getitem (_selected_id s) (_plane s));
  l ← loaded c;
  F_matrix ← np_take_rows l ids;
  sh ← shuffletraces;
  (if is_True sh then
     print WarnFShuffled;;
     m ← deref F_matrix;
     for_range (shape0 m) (np_random_shuffle F_matrix)
   else mret ());;
  mret F_matrix.

(** ** The two accessors as one

    [spikes] and [F] are the same method up to the cache, the file and the
    messages they use.  [trace_matrix] is that method, in its two steps: the
    load on a cache miss, and the copy of the selected rows. *)

Inductive trace :=
  | Spikes
  | Fluorescence.

#[global] Instance trace_eq_dec : EqDecision trace.
Proof. solve_decision. Defined.

Definition accessor (k : trace) : M loc :=
  match k with
  | Spikes => spikes
  | Fluorescence => F
  end.

Definition cache (k : trace) (s : Suite2pData) : list (option loc) :=
  match k with
  | Spikes => _spikes s
  | Fluorescence => _F s
  end.

Definition with_cache (k : trace) (v : list (option loc)) (s : Suite2pData) :=
  match k with
  | Spikes => with_spikes v s
  | Fluorescence => with_F v s
  end.

Definition trace_file (k : trace) : string :=
  match k with
  | Spikes => "spks.npy"
  | Fluorescence => "F.npy"
  end.

Definition msg_loading (k : trace) (p : Z) : message :=
  match k with
  | Spikes => MsgLoadingSpikes p
  | Fluorescence => MsgLoadingF p
  end.

Definition warn_shuffled (k : trace) : message :=
  match k with
  | Spikes => WarnSpikesShuffled
  | Fluorescence => WarnFShuffled
  end.

Definition load_trace (k : trace) : M unit :=
  s ← get_self;
  c ← subscript (py_getitem (cache k s) (_plane s));
  if c is None then
    print (msg_loading k (_plane s));;
    p ← subscript (py_getitem (_plane_paths s) (_plane s));
    l ← np_load (os_path_join p (trace_file k));
    s ← get_self;
    cache' ← subscript (py_setitem (cache k s) (_plane s) (Some l));
    put_self (with_cache k cache' s)
  else mret ().

Definition gather_trace (k : trace) : M loc :=
  s ← get_self;
  c ← subscript (py_getitem (cache k s) (_plane s));
  ids ← subscript (py_getitem (_selected_id s) (_plane s));
  l ← loaded c;
  matrix ← np_take_rows l ids;
  sh ← shuffletraces;
  (if is_True sh then
     print (warn_shuffled k);;
     m ← deref matrix;
     for_range (shape0 m) (np_random_shuffle matrix)
   else mret ());;
  mret matrix.

Definition trace_matrix (k : trace) : M loc :=
  load_trace k;; gather_trace k.

(** The rows of a matrix after the shuffling loop, and the generator it
    leaves: every row is shuffled by a call of its own, which starts from the
    generator that the call for the row before left. *)
Fixpoint shuffle_rows (g : G) (rs : list (list A)) : G * list (list A) :=
  match rs with
  | [] => (g, [])
  | r :: rs' =>
      let '(g1, r') := shuffle_raw g r in
      let '(g2, rs'') := shuffle_rows g1 rs' in
      (g2, r' :: rs'')
  end.

(** ** Construction *)

(** The first loop of [__init__]: [stat.npy] and [iscell.npy] of every plane
    folder, and the number of ROIs of each. *)
Fixpoint load_roi_info (plane_paths : list string)
    : M (list (list roi_stat) * list nat * list iscell_table) :=
  match plane_paths with
  | [] => mret ([], [], [])
  | p :: ps =>
      stat ← np_load_as stat_files (os_path_join p "stat.npy");
      isc ← np_load_as iscell_files (os_path_join p "iscell.npy");
      rest ← load_roi_info ps;
      mret (stat :: rest.1.1, length stat :: rest.1.2, isc :: rest.2)
  end.

Definition glob (pattern : string) : M (list string) := λ σ,
  (inr (glob_glob (files σ) pattern), σ).

(** The positions of the ROIs of one plane along each axis, as [stat.npy]
    has them, and the selection of all the ROIs. *)
Definition roi_x (stat : list roi_stat) : list Z :=
  (λ roi, (med roi).2) <$> stat.

Definition roi_y (stat : list roi_stat) : list Z :=
  (λ roi, (med roi).1) <$> stat.

Definition all_rois (n : nat) : list Z := seqZ 0 (Z.of_nat n).

(** The assignment of a Python integer to an element of an [np.int] array:
    a value that the C long cannot hold raises [OverflowError]. *)
Definition as_np_int (z : Z) : M Z :=
  if bool_decide (- 2 ^ 63 ≤ z < 2 ^ 63) then mret z
  else raise OverflowError.

(** The loop over the ROIs of one plane, which fills the arrays of the
    positions: [_y[plane][roi]] from the first component of ["med"], then
    [_x[plane][roi]] from the second.  It returns the two arrays, x first. *)
Fixpoint roi_positions (stat : list roi_stat) : M (list Z * list Z) :=
  match stat with
  | [] => mret ([], [])
  | roi :: rest =>
      yv ← as_np_int (med roi).1;
      xv ← as_np_int (med roi).2;
      r ← roi_positions rest;
      mret (xv :: r.1, yv :: r.2)
  end.

(** The second loop of [__init__], over the planes. *)
Fixpoint process_roi_info (roiinfo : list (list roi_stat))
    : M (list (list Z) * list (list Z)) :=
  match roiinfo with
  | [] => mret ([], [])
  | stat :: rest =>
      pos ← roi_positions stat;
      r ← process_roi_info rest;
      mret (pos.1 :: r.1, pos.2 :: r.2)
  end.

Definition __init__ (datapath : string) : M unit :=
  let s2proot := os_path_join datapath "suite2p" in
  plane_paths ← glob (os_path_join s2proot "plane*");
  let nplanes := length plane_paths in
  ops ← np_load_as ops_files (os_path_join s2proot "ops1.npy");
  info ← load_roi_info plane_paths;
  let roiinfo : list (list roi_stat) := info.1.1 in
  let nrois_total : list nat := info.1.2 in
  let iscell : list iscell_table := info.2 in
  pos ← process_roi_info roiinfo;
  put_self
    {| _datapath := datapath; _s2proot := s2proot;
       _plane_paths := plane_paths; _nplanes := nplanes; _ops := ops;
       _roiinfo := roiinfo; _nrois_total := nrois_total; _iscell := iscell;
       _x := pos.1;
       _y := pos.2;
       _selected_id := all_rois <$> nrois_total;
       _plane := 0; _shuffletraces := PyBool false;
       _spikes := replicate nplanes None; _F := replicate nplanes None |}.

Definition image : M (list (list float)) :=
  s ← get_self;
  o ← subscript (py_getitem (_ops s) (_plane s));
  mret (meanImg o).

Definition aspect_ratio : M float :=
  s ← get_self;
  o ← subscript (py_getitem (_ops s) (_plane s));
  mret (aspect o).

(** ** Sequences of calls

    What a caller can do with the object, one call after the other; a call
    that raises is caught, and the next one runs on the state it left. *)

Inductive call :=
  | GetSpikes
  | GetF
  | GetPlane
  | SetPlane (plane_nr : Z)
  | GetNeurons
  | SetNeurons (selection : int_ndarray)
  | GetNrois
  | GetX
  | GetY
  | SelectNeurons (selector : pyobj) (threshold : option float)
  | GetShuffletraces
  | SetShuffletraces (shuffle_setting : pyflag)
  | GetNplanes
  | GetImage
  | GetAspectRatio.

Definition exec (c : call) : M unit :=
  match c with
  | GetSpikes => spikes;; mret ()
  | GetF => F;; mret ()
  | GetPlane => plane;; mret ()
  | SetPlane plane_nr => set_plane plane_nr
  | GetNeurons => neurons;; mret ()
  | SetNeurons selection => set_neurons selection
  | GetNrois => nrois;; mret ()
  | GetX => x;; mret ()
  | GetY => y;; mret ()
  | SelectNeurons selector threshold => select_neurons selector threshold
  | GetShuffletraces => shuffletraces;; mret ()
  | SetShuffletraces shuffle_setting => set_shuffletraces shuffle_setting
  | GetNplanes => nplanes;; mret ()
  | GetImage => image;; mret ()
  | GetAspectRatio => aspect_ratio;; mret ()
  end.

Definition run (cs : list call) (σ : State) : State :=
  foldl (λ σ c, (exec c σ).2) σ cs.

End suite2pdata.


Arguments ndarray2 : clear implicits.
Arguments FileSystem : clear implicits.
Arguments State : clear implicits.
Arguments M : clear implicits.

(** ** A small data set

    Two planes.  Plane 0 has three ROIs with flags [1, 0, 1] and
    probabilities [0.9, 0.2, 0.6]; plane 1 has two.  The generator is a
    counter, and a draw below [i] takes it modulo [i + 1]. *)
Module Example.

Definition draw (g : nat) (i : nat) : nat * nat := ((g `mod` S i)%nat, S g).

Definition F0 : ndarray2 Z :=
  {| shape1 := 4; rows := [[1; 2; 3; 4]; [5; 6; 7; 8]; [9; 10; 11; 12]] |}.

Definition F1 : ndarray2 Z :=
  {| shape1 := 2; rows := [[21; 22]; [23; 24]] |}.

Definition roi (r c : Z) : roi_stat := {| med := (r, c) |}.

Definition table0 : iscell_table := [(1, 0.9); (0, 0.2); (1, 0.6)]%float.

Definition table1 : iscell_table := [(0, 0.5); (1, 0.75)]%float.

Definition disk : FileSystem Z :=
  {| glob_glob := λ pat,
       if String.eqb pat "data/suite2p/plane*"
       then ["data/suite2p/plane0"; "data/suite2p/plane1"] else [];
     ops_files := λ f,
       if String.eqb f "data/suite2p/ops1.npy"
       then Some [ {| meanImg := [[1%float]]; aspect := 1%float |};
                   {| meanImg := [[2%float]]; aspect := 1%float |} ]
       else None;
     stat_files := λ f,
       if String.eqb f "data/suite2p/plane0/stat.npy"
       then Some [roi 10 11; roi 20 21; roi 30 31]
       else if String.eqb f "data/suite2p/plane1/stat.npy"
       then Some [roi 40 41; roi 50 51]
       else None;
     iscell_files := λ f,
       if String.eqb f "data/suite2p/plane0/iscell.npy"
       then Some table0
       else if String.eqb f "data/suite2p/plane1/iscell.npy"
       then Some table1
       else None;
     trace_files := λ f,
       if String.eqb f "data/suite2p/plane0/F.npy" then Some F0
       else if String.eqb f "data/suite2p/plane0/spks.npy" then Some F0
       else if String.eqb f "data/suite2p/plane1/F.npy" then Some F1
       else if String.eqb f "data/suite2p/plane1/spks.npy" then Some F1
       else None |}.

Definition boot : State Z nat :=
  {| self := blank; heap := ∅; rng := 0%nat; stdout := [];
     np_loads := []; files := disk |}.

(** The state after [Suite2pData("data")]. *)
Definition fresh_state : State Z nat := (__init__ "data" boot).2.

(** Runs [c] and keeps the state. *)
Definition after {X} (c : M Z nat X) (σ : State Z nat) : State Z nat :=
  (c σ).2.

(** The state after a first read of the fluorescence of plane 0. *)
Definition warm_state : State Z nat := after (F draw) fresh_state.

(** The same, with [shuffletraces] set to [True]. *)
Definition warm_shuffling : State Z nat :=
  after (set_shuffletraces (PyBool true)) warm_state.

(** A fresh object with [shuffletraces] set to [True]. *)
Definition cold_shuffling : State Z nat :=
  after (set_shuffletraces (PyBool true)) fresh_state.

(** A session that reads the fluorescence of plane 0 four times, once of
    them through the plane number -2, and other traces in between. *)
Definition session : list call :=
  [GetF; GetF; SetPlane 1; GetF; GetSpikes; SetPlane 0; GetF;
   SetPlane (-2); GetF; SelectNeurons (PyStr "iscell") None; GetF].

End Example.

(** ** Well-formed objects *)

(** Every per-plane list has one entry per plane, as [__init__] builds them. *)
Record wf (s : Suite2pData) : Prop := {
  wf_plane_paths : length (_plane_paths s) = _nplanes s;
  wf_nrois_total : length (_nrois_total s) = _nplanes s;
  wf_iscell : length (_iscell s) = _nplanes s;
  wf_selected_id : length (_selected_id s) = _nplanes s;
  wf_spikes : length (_spikes s) = _nplanes s;
  wf_F : length (_F s) = _nplanes s
}.

(** The slot of the per-plane lists that the current plane number denotes. *)
Definition current_slot (s : Suite2pData) : option nat :=
  py_index (_nplanes s) (_plane s).

(** The classification table has one row per ROI of [stat.npy]. *)
Definition iscell_rows_match (s : Suite2pData) : Prop :=
  ∀ k t n, _iscell s !! k = Some t → _nrois_total s !! k = Some n →
    length t = n.

(** The four selectors that [select_neurons] knows. *)
Definition recognized (selector : string) : Prop :=
  selector = "iscell" ∨ selector = "isnotcell" ∨
  selector = "iscell_p_larger_than" ∨ selector = "iscell_p_smaller_than".

(** The state that a selection by policy leaves: [ids] stored as the
    selection of slot [k], and [msg] printed. *)
Definition select_result {A G} (σ : State A G) (k : nat) (ids : list Z)
    (msg : message) : State A G :=
  with_stdout (stdout σ ++ [msg])
    (with_self (with_selected_id (<[k:=ids]> (_selected_id (self σ))) (self σ))
       σ).

(** A classification table with binary flags. *)
Definition binary_flags (t : iscell_table) : Prop :=
  Forall (λ r, PrimFloat.eqb r.1 1 = true ∨ PrimFloat.eqb r.1 0 = true) t.

(** The matrix an accessor returns for the gathered rows [g]: shuffled row
    by row, from the generator [g0], when the flag is [True]. *)
Definition returned_matrix {A G} (random_interval : G → nat → nat * G)
    (sh : pyflag) (g0 : G) (g : ndarray2 A) : ndarray2 A :=
  if is_True sh
  then {| shape1 := shape1 g;
          rows := (shuffle_rows random_interval g0 (rows g)).2 |}
  else g.

(** What the copying step of an accessor does, from the state [σ] and for
    the gathered rows [g]: it returns a new address [r] that holds the
    returned matrix, leaves every array that was on the heap as it was, and
    touches nothing else but the generator and the output when it
    shuffles. *)
Definition gather_post {A G} (random_interval : G → nat → nat * G)
    (k : trace) (σ : State A G) (g : ndarray2 A)
    (res : (exn + loc) * State A G) : Prop :=
  let sh := _shuffletraces (self σ) in
  ∃ r σ', res = (inr r, σ') ∧
    (r ∉ dom (heap σ)) ∧
    heap σ' !! r = Some (returned_matrix random_interval sh (rng σ) g) ∧
    (∀ l, l ∈ dom (heap σ) → heap σ' !! l = heap σ !! l) ∧
    self σ' = self σ ∧ np_loads σ' = np_loads σ ∧ files σ' = files σ ∧
    rng σ' = (if is_True sh
              then (shuffle_rows random_interval (rng σ) (rows g)).1
              else rng σ) ∧
    stdout σ' = stdout σ ++ (if is_True sh then [warn_shuffled k] else []).

(** The matrix that an accessor reads for slot [j]: the one the cache
    holds, or on a cache miss the contents of the trace file of the plane. *)
Definition trace_source {A G} (k : trace) (σ : State A G) (j : nat)
    (m : ndarray2 A) : Prop :=
  (∃ c, cache k (self σ) !! j = Some (Some c) ∧ heap σ !! c = Some m) ∨
  (cache k (self σ) !! j = Some None ∧
   ∃ p, _plane_paths (self σ) !! j = Some p ∧
        trace_files (files σ) (os_path_join p (trace_file k)) = Some m).

(** The state after a successful load of [m] from the file [f] into the
    cache slot [j]. *)
Definition loaded_state {A G} (k : trace) (σ : State A G) (j : nat)
    (f : string) (m : ndarray2 A) : State A G :=
  {| self := with_cache k (<[j:=Some (fresh (dom (heap σ)))]>
                             (cache k (self σ))) (self σ);
     heap := <[fresh (dom (heap σ)):=m]> (heap σ);
     rng := rng σ;
     stdout := stdout σ ++ [msg_loading k (_plane (self σ))];
     np_loads := np_loads σ ++ [(f, true)];
     files := files σ |}.

(** The state after a failed read of the file [f]. *)
Definition failed_load_state {A G} (k : trace) (σ : State A G) (f : string)
    : State A G :=
  {| self := self σ; heap := heap σ; rng := rng σ;
     stdout := stdout σ ++ [msg_loading k (_plane (self σ))];
     np_loads := np_loads σ ++ [(f, false)];
     files := files σ |}.

(** Every selected id is a row index that the matrix has. *)
Definition valid_ids {A} (m : ndarray2 A) (ids : list Z) : Prop :=
  Forall (λ id, is_Some (py_index (shape0 m) id)) ids.

(** Two matrices of the same shape. *)
Definition same_shape {A} (m1 m2 : ndarray2 A) : Prop :=
  shape0 m1 = shape0 m2 ∧ shape1 m1 = shape1 m2.

(** The successful loads of the file [f] in a log of [np.load] calls, and
    all the reads of it, failed ones included. *)
Definition loads_of (f : string) (log : list (string * bool)) : nat :=
  length (filter (λ e, e = (f, true)) log).

Definition reads_of (f : string) (log : list (string * bool)) : nat :=
  length (filter (λ e, e.1 = f) log).

(** 1 when the cache slot [j] is populated, 0 when it is not. *)
Definition cached (k : trace) (s : Suite2pData) (j : nat) : nat :=
  match cache k s !! j with
  | Some (Some _) => 1
  | _ => 0
  end.

(** A step that reads no file and leaves the caches, the plane folders
    and the number of entries of the per-plane lists as they are. *)
Record quiet {A G} (σ σ' : State A G) : Prop := {
  quiet_np_loads : np_loads σ' = np_loads σ;
  quiet_plane_paths : _plane_paths (self σ') = _plane_paths (self σ);
  quiet_nplanes : _nplanes (self σ') = _nplanes (self σ);
  quiet_spikes : _spikes (self σ') = _spikes (self σ);
  quiet_F : _F (self σ') = _F (self σ);
  quiet_nrois_total :
    length (_nrois_total (self σ')) = length (_nrois_total (self σ));
  quiet_iscell : length (_iscell (self σ')) = length (_iscell (self σ));
  quiet_selected_id :
    length (_selected_id (self σ')) = length (_selected_id (self σ))
}.

(** What a step may do to the caches and to the log of [np.load]: for the
    trace file of every plane folder, the successful loads it adds are as
    many as cache slots it populates (one or none), and it does not read the
    file of a slot that was populated. *)
Definition load_step {A G} (σ σ' : State A G) : Prop :=
  wf (self σ') ∧ _plane_paths (self σ') = _plane_paths (self σ) ∧
  ∃ new, np_loads σ' = np_loads σ ++ new ∧
    ∀ k j p, _plane_paths (self σ) !! j = Some p →
      (loads_of (os_path_join p (trace_file k)) new + cached k (self σ) j
       = cached k (self σ') j)%nat ∧
      (cached k (self σ) j = 1%nat →
       reads_of (os_path_join p (trace_file k)) new = 0%nat).

Definition quiet_M {A G X} (c : M A G X) : Prop := ∀ σ, quiet σ (c σ).2.

(** ** What the constructor reads and what a call may change *)



(** A first part that [os.path.join] extends with a separator and the next
    part: it is not empty and has no trailing separator. *)
Fixpoint ends_with_sep (a : string) : bool :=
  match a with
  | EmptyString => false
  | String c EmptyString => String.eqb (String c EmptyString) "/"
  | String _ a' => ends_with_sep a'
  end.

Definition plain_path (a : string) : Prop := a ≠ "" ∧ ends_with_sep a = false.

(** The plane folders that [glob] finds for [datapath] are such paths, as
    the matches of a pattern that ends in [plane*] are. *)
Definition plain_folders {A} (fs : FileSystem A) (datapath : string) : Prop :=
  Forall plain_path
    (glob_glob fs (os_path_join (os_path_join datapath "suite2p") "plane*")).

(** A ROI whose median position can be stored in the [np.int] arrays. *)
Definition fits_np_int (roi : roi_stat) : Prop :=
  np_int_range (med roi).1 ∧ np_int_range (med roi).2.


(** In every plane folder, [iscell.npy] has one row per ROI of
    [stat.npy]. *)
Definition tables_match {A} (fs : FileSystem A) (datapath : string) : Prop :=
  Forall (λ p, ∀ stat (t : iscell_table),
            stat_files fs (os_path_join p "stat.npy") = Some stat →
            iscell_files fs (os_path_join p "iscell.npy") = Some t →
            length t = length stat)
    (glob_glob fs (os_path_join (os_path_join datapath "suite2p") "plane*")).

(** The reads of [load_roi_info], and of [__init__], when all succeed. *)
Definition roi_info_reads (plane_paths : list string) : list (string * bool) :=
  flat_map (λ p, [(os_path_join p "stat.npy", true);
                  (os_path_join p "iscell.npy", true)]) plane_paths.

Definition init_reads (datapath : string) (plane_paths : list string)
    : list (string * bool) :=
  (os_path_join (os_path_join datapath "suite2p") "ops1.npy", true)
  :: roi_info_reads plane_paths.

(** The attributes that [__init__] sets and that no method assigns. *)
Definition metadata (s : Suite2pData) :=
  (_datapath s, _s2proot s, _plane_paths s, _nplanes s, _ops s, _roiinfo s,
   _nrois_total s, _iscell s, _x s, _y s).

(** The state after the selection setter has stored [ids] in slot [k]. *)
Definition selection_set {A G} (σ : State A G) (k : nat) (ids : list Z)
    : State A G :=
  with_self (with_selected_id (<[k:=ids]> (_selected_id (self σ))) (self σ)) σ.

(** The calls that only read the object. *)
Definition is_getter (c : call) : bool :=
  match c with
  | GetPlane | GetNeurons | GetNrois | GetX | GetY | GetShuffletraces
  | GetNplanes | GetImage | GetAspectRatio => true
  | _ => false
  end.

Definition sets_plane (c : call) : bool :=
  match c with
  | SetPlane _ => true
  | _ => false
  end.

Definition sets_selection (c : call) : bool :=
  match c with
  | SetNeurons _ | SelectNeurons _ _ => true
  | _ => false
  end.

Definition sets_shuffletraces (c : call) : bool :=
  match c with
  | SetShuffletraces _ => true
  | _ => false
  end.

Definition reads_trace (k : trace) (c : call) : bool :=
  match c, k with
  | GetSpikes, Spikes | GetF, Fluorescence => true
  | _, _ => false
  end.

(** What a call of an accessor may change: the cache slot of the current
    plane, when it was empty, the generator when the traces are shuffled,
    and the output; it adds arrays to the heap and leaves those that were
    there as they were. *)
Definition accessor_effect {A G} (k : trace) (σ σ' : State A G) : Prop :=
  (self σ' = self σ ∨
   ∃ j, current_slot (self σ) = Some j ∧
        cache k (self σ) !! j = Some None ∧
        self σ'
        = with_cache k (<[j:=Some (fresh (dom (heap σ)))]> (cache k (self σ)))
            (self σ)) ∧
  files σ' = files σ ∧
  (∀ l, l ∈ dom (heap σ) → heap σ' !! l = heap σ !! l) ∧
  (is_True (_shuffletraces (self σ)) = false → rng σ' = rng σ).

(** What each call may change. *)
Definition effect {A G} (c : call) (σ σ' : State A G) : Prop :=
  match c with
  | GetSpikes => accessor_effect Spikes σ σ'
  | GetF => accessor_effect Fluorescence σ σ'
  | SetPlane i =>
      σ' = with_stdout (stdout σ ++ [MsgSelectedPlane i])
             (with_self (with_plane i (self σ)) σ)
  | SetNeurons selection =>
      σ' = σ ∨
      ∃ k, current_slot (self σ) = Some k ∧
           σ' = selection_set σ k (ravel selection)
  | SelectNeurons _ _ =>
      σ' = σ ∨
      ∃ k ids msg, current_slot (self σ) = Some k ∧
                   σ' = select_result σ k ids msg
  | SetShuffletraces v => σ' = with_self (with_shuffletraces v (self σ)) σ
  | _ => σ' = σ
  end.

(** What every sequence of calls keeps: the object stays well formed, its
    metadata and the files are the same, the arrays on the heap and the
    populated cache slots stay as they are. *)
Definition kept {A G} (σ σ' : State A G) : Prop :=
  wf (self σ') ∧ metadata (self σ') = metadata (self σ) ∧
  files σ' = files σ ∧
  (∀ l, l ∈ dom (heap σ) → heap σ' !! l = heap σ !! l) ∧
  (∀ k j c, cache k (self σ) !! j = Some (Some c) →
            cache k (self σ') !! j = Some (Some c)).

(** ** Two more small data sets

    The data set of [Example] with the fluorescence file of plane 0
    missing, and with a fluorescence file of a recording of one frame. *)
Module Damaged.

Import Example.

Definition disk_without_F : FileSystem Z :=
  {| glob_glob := glob_glob disk; ops_files := ops_files disk;
     stat_files := stat_files disk; iscell_files := iscell_files disk;
     trace_files := λ f,
       if String.eqb f "data/suite2p/plane0/F.npy" then None
       else trace_files disk f |}.

Definition one_frame : ndarray2 Z :=
  {| shape1 := 1; rows := [[7]; [8]; [9]] |}.

Definition disk_one_frame : FileSystem Z :=
  {| glob_glob := glob_glob disk; ops_files := ops_files disk;
     stat_files := stat_files disk; iscell_files := iscell_files disk;
     trace_files := λ f,
       if String.eqb f "data/suite2p/plane0/F.npy" then Some one_frame
       else trace_files disk f |}.

(** The state [σ] of the process, over the files [fs]. *)
Definition on_disk (fs : FileSystem Z) (σ : State Z nat) : State Z nat :=
  {| self := self σ; heap := heap σ; rng := rng σ; stdout := stdout σ;
     np_loads := np_loads σ; files := fs |}.

(** A fresh object whose current plane is set to 5, which does not
    exist. *)
Definition lost_state : State Z nat := after (set_plane 5) fresh_state.

(** A fresh object with the selection [7] on plane 0, which has three
    ROIs. *)
Definition overdrawn_state : State Z nat :=
  after (set_neurons (Vec [7])) fresh_state.

(** The data set of [Example] with a fourth row in the classification
    table of plane 0, whose [stat.npy] has three ROIs, and the object that
    [__init__] builds from it. *)
Definition disk_longer_iscell : FileSystem Z :=
  {| glob_glob := glob_glob disk; ops_files := ops_files disk;
     stat_files := stat_files disk;
     iscell_files := λ f,
       if String.eqb f "data/suite2p/plane0/iscell.npy"
       then Some (table0 ++ [(1, 0.8)]%float)
       else iscell_files disk f;
     trace_files := trace_files disk |}.

Definition mismatched_state : State Z nat :=
  (__init__ "data" (on_disk disk_longer_iscell boot)).2.


End Damaged.

(** * Properties *)

Section properties.

Context {A G : Type} (random_interval : G → nat → nat * G).

Implicit Types (σ : State A G) (s : Suite2pData) (m : ndarray2 A).

(** ** Python subscripts *)

Lemma py_index_lt n i k : py_index n i = Some k → (k < n)%nat.
Proof.
  unfold py_index. repeat case_bool_decide; intros; simplify_eq; lia.
Qed.

Lemma py_index_nonneg n i : 0 ≤ i < Z.of_nat n → py_index n i = Some (Z.to_nat i).
Proof. intros. unfold py_index. by rewrite bool_decide_true. Qed.

Lemma py_getitem_slot {X} (l : list X) i k :
  py_index (length l) i = Some k → py_getitem l i = l !! k.
Proof. unfold py_getitem. by intros ->. Qed.

Lemma py_getitem_is_Some {X} (l : list X) i k :
  py_index (length l) i = Some k → is_Some (py_getitem l i).
Proof.
  intros Hk. rewrite (py_getitem_slot _ _ _ Hk).
  apply lookup_lt_is_Some, (py_index_lt _ _ _ Hk).
Qed.

Lemma py_setitem_slot {X} (l : list X) i k v :
  py_index (length l) i = Some k → py_setitem l i v = Some (<[k:=v]> l).
Proof. unfold py_setitem. by intros ->. Qed.

Lemma np_int_id z : np_int_range z → np_int z = z.
Proof.
  unfold np_int_range, np_int. intros. rewrite Z.mod_small; lia.
Qed.

Lemma np_int_fmap_id (ids : list Z) :
  Forall np_int_range ids → np_int <$> ids = ids.
Proof.
  induction 1 as [|z ids Hz _ IH]; [done|].
  cbn. by rewrite np_int_id, IH.
Qed.

(** ** Comparisons of float64 values *)

Lemma SFcompare_Eq_sym a b : SFcompare a b = Some Eq → SFcompare b a = Some Eq.
Proof.
  destruct a as [[]|[]| |[] m e], b as [[]|[]| |[] m' e']; cbn; try done.
  all: destruct (Z.compare_spec e e'), (Z.compare_spec e' e); try lia; try done.
  all: subst; rewrite ?Pos.compare_cont_spec;
       destruct (Pos.compare_spec m m'), (Pos.compare_spec m' m);
       cbn; try lia; try done.
Qed.

(** Equal values are not strictly ordered, either way. *)
Lemma float_eqb_not_ltb (a b : float) :
  PrimFloat.eqb a b = true →
  PrimFloat.ltb b a = false ∧ PrimFloat.ltb a b = false.
Proof.
  rewrite FloatAxioms.eqb_spec, (FloatAxioms.ltb_spec b a),
    (FloatAxioms.ltb_spec a b). unfold SFeqb, SFltb.
  destruct (SFcompare (Prim2SF a) (Prim2SF b)) as [[]|] eqn:Hc; try done.
  intros _. by rewrite (SFcompare_Eq_sym _ _ Hc).
Qed.

(** No value equals both 1 and 0. *)
Lemma float_eqb_1_not_0 (a : float) :
  PrimFloat.eqb a 1 = true → PrimFloat.eqb a 0 = false.
Proof.
  rewrite (FloatAxioms.eqb_spec a 1), (FloatAxioms.eqb_spec a 0).
  unfold SFeqb.
  replace (Prim2SF 1) with (S754_finite false 4503599627370496 (-52))
    by (vm_compute; reflexivity).
  replace (Prim2SF 0) with (S754_zero false) by (vm_compute; reflexivity).
  destruct (Prim2SF a) as [[]|[]| |[] m e]; cbn [SFcompare]; congruence.
Qed.

(** ** Construction *)

Lemma load_roi_info_length paths σ info σ1 :
  load_roi_info paths σ = (inr info, σ1) →
  length info.1.1 = length paths ∧ length info.1.2 = length paths ∧
  length info.2 = length paths.
Proof.
  revert σ info σ1. induction paths as [|p ps IH]; intros σ info σ1; cbn.
  - by intros [= <- _].
  - unfold mbind, M_bind.
    destruct (np_load_as stat_files _ σ) as [[e|stat] σa]; [done|].
    destruct (np_load_as iscell_files _ σa) as [[e|isc] σb]; [done|].
    destruct (load_roi_info ps σb) as [[e|rest] σc] eqn:Hrest; [done|].
    intros [= <- _]. cbn. destruct (IH _ _ _ Hrest) as (-> & -> & ->). done.
Qed.

(** An object that [__init__] has built is well formed: it has one entry per
    plane folder in every per-plane list, plane 0 is current, nothing is
    cached and the traces are not shuffled. *)
Lemma init_wf datapath σ σ1 :
  __init__ datapath σ = (inr (), σ1) →
  wf (self σ1) ∧ _plane (self σ1) = 0 ∧
  _shuffletraces (self σ1) = PyBool false ∧
  _selected_id (self σ1) = all_rois <$> _nrois_total (self σ1) ∧
  ∀ k (j : nat), (j < _nplanes (self σ1))%nat →
    cache k (self σ1) !! j = Some None.
Proof.
  unfold __init__, mbind, M_bind, glob. cbn.
  destruct (np_load_as ops_files _ σ) as [[e|ops] σa]; [done|].
  destruct (load_roi_info _ σa) as [[e|info] σb] eqn:Hinfo; [done|].
  destruct (load_roi_info_length _ _ _ _ Hinfo) as (H1 & H2 & H3).
  destruct (process_roi_info _ σb) as [[e|pos] σc]; [done|].
  intros [= <-]. cbn. split_and!; try done.
  - split; cbn; by rewrite ?length_fmap, ?length_replicate.
  - intros k j Hj. destruct k; cbn; by apply lookup_replicate_2.
Qed.

(** ** Plane selection *)

(** C3, as the code has it: for every integer [i], in range or not, the
    [plane] setter returns normally, stores [i] as the current plane, prints
    the message about it and changes nothing else; there is no range
    check. *)
Theorem set_plane_any (i : Z) σ :
  set_plane i σ
  = (inr (), with_stdout (stdout σ ++ [MsgSelectedPlane i])
               (with_self (with_plane i (self σ)) σ)).
Proof. reflexivity. Qed.

(** ** Manual selection *)

(** C7: after [neurons = ids], for an integer array [ids] of [np.int] values,
    the [neurons] getter returns exactly [ids], order and duplicates kept, in
    every later state with the same plane and the same selection lists. *)
Theorem neurons_set_get (ids : list Z) σ k :
  py_index (length (_selected_id (self σ))) (_plane (self σ)) = Some k →
  Forall np_int_range ids →
  ∃ σ1, set_neurons (Vec ids) σ = (inr (), σ1) ∧
    ∀ σ2, _plane (self σ2) = _plane (self σ1) →
          _selected_id (self σ2) = _selected_id (self σ1) →
          neurons σ2 = (inr ids, σ2).
Proof.
  intros Hk Hids. eexists. split.
  - unfold set_neurons, mbind, M_bind, get_self. cbn.
    rewrite (py_setitem_slot _ _ _ _ Hk). reflexivity.
  - intros σ2 Hp Hsel. unfold neurons, mbind, M_bind, get_self. cbn in *.
    rewrite Hp, Hsel. unfold py_getitem. rewrite length_insert, Hk. cbn.
    rewrite list_lookup_insert_eq by apply (py_index_lt _ _ _ Hk). cbn.
    by rewrite np_int_fmap_id.
Qed.

(** ** Selection by policy *)

(** C9: with a selector that is not one of the four recognized strings,
    [select_neurons] returns normally and leaves the whole state as it
    was. *)
Theorem select_neurons_unrecognized (selector : pyobj) threshold σ :
  (∀ name, selector = PyStr name → ¬ recognized name) →
  select_neurons selector threshold σ = (inr (), σ).
Proof.
  intros Hun. destruct selector as [name|]; [|done].
  specialize (Hun name eq_refl). unfold recognized in Hun.
  unfold select_neurons.
  assert (∀ lit, name ≠ lit → String.eqb name lit = false) as Hne
    by (intros lit; apply String.eqb_neq).
  rewrite !Hne by (intros ->; tauto). reflexivity.
Qed.

(** ** np.argwhere *)

Lemma elem_of_argwhere i mask z :
  z ∈ concat (argwhere_from i mask)
  ↔ ∃ n : nat, z = i + Z.of_nat n ∧ mask !! n = Some true.
Proof.
  revert i. induction mask as [|b mask IH]; intros i; cbn [argwhere_from].
  - cbn. split; [by intros ?%elem_of_nil|by intros (n & _ & ?)].
  - rewrite concat_app, elem_of_app, IH. split.
    + intros [Hz|(n & -> & Hn)].
      * destruct b; cbn in Hz; [|by apply elem_of_nil in Hz].
        apply list_elem_of_singleton in Hz as ->. exists 0%nat. split; [lia|done].
      * exists (S n). split; [lia|done].
    + intros ([|n] & -> & Hn); cbn in Hn.
      * left. simplify_eq. cbn. rewrite Z.add_0_r. apply list_elem_of_here.
      * right. exists n. split; [lia|done].
Qed.

Lemma argwhere_sorted i mask :
  StronglySorted Z.lt (concat (argwhere_from i mask)).
Proof.
  revert i. induction mask as [|b mask IH]; intros i; cbn [argwhere_from].
  - constructor.
  - rewrite concat_app. destruct b; cbn; [|apply IH].
    constructor; [apply IH|].
    apply Forall_forall. intros z (n & -> & _)%elem_of_argwhere. lia.
Qed.

Lemma sorted_lt_NoDup (l : list Z) : StronglySorted Z.lt l → NoDup l.
Proof.
  induction 1 as [|z l _ IH Hz]; constructor; [|done].
  intros Hin. eapply Forall_forall in Hz; [|done]. lia.
Qed.

Lemma elem_of_selected (f : float * float → bool) (t : iscell_table) (i : Z) :
  i ∈ ravel (np_argwhere (f <$> t))
  ↔ ∃ (n : nat) r, i = Z.of_nat n ∧ t !! n = Some r ∧ f r = true.
Proof.
  cbn. rewrite elem_of_argwhere. split.
  - intros (n & -> & (r & Hf & Hr)%list_lookup_fmap_Some).
    exists n, r. split_and!; [lia|done..].
  - intros (n & r & -> & Hr & Hf). exists n. split; [lia|].
    apply list_lookup_fmap_Some. by exists r.
Qed.

(** ** Selection by policy, continued *)

Lemma select_with_ok mask_of msg σ k t :
  wf (self σ) → current_slot (self σ) = Some k →
  _iscell (self σ) !! k = Some t →
  select_with mask_of msg σ
  = (inr (), select_result σ k (ravel (np_argwhere (mask_of t)))
               (msg (length (ravel (np_argwhere (mask_of t)))))).
Proof.
  intros Hwf Hk Ht. unfold current_slot in Hk.
  unfold select_with, set_neurons, neurons, mbind, M_bind, get_self. cbn.
  unfold py_getitem. rewrite (wf_iscell _ Hwf), Hk. cbn. rewrite Ht. cbn.
  unfold py_setitem. rewrite (wf_selected_id _ Hwf), Hk. cbn.
  unfold py_getitem. rewrite length_insert, (wf_selected_id _ Hwf), Hk. cbn.
  rewrite list_lookup_insert_eq
    by (rewrite (wf_selected_id _ Hwf); apply (py_index_lt _ _ _ Hk)).
  cbn. rewrite length_fmap. reflexivity.
Qed.

Lemma select_with_no_plane mask_of msg σ :
  wf (self σ) → current_slot (self σ) = None →
  (select_with mask_of msg σ).1 = inl IndexError.
Proof.
  intros Hwf Hk. unfold current_slot in Hk.
  unfold select_with, mbind, M_bind, get_self. cbn.
  unfold py_getitem. rewrite (wf_iscell _ Hwf), Hk. reflexivity.
Qed.

Lemma current_table σ k :
  wf (self σ) → current_slot (self σ) = Some k →
  is_Some (_iscell (self σ) !! k).
Proof.
  intros Hwf Hk%py_index_lt. apply lookup_lt_is_Some.
  by rewrite (wf_iscell _ Hwf).
Qed.

(** Unfolds a call of [select_neurons] with a literal selector into the one
    branch that runs. *)
Ltac select_branch σ :=
  unfold select_neurons; cbn [String.eqb Ascii.eqb Bool.eqb];
  unfold select_with, given, mbind, M_bind, mret, M_ret; cbn;
  repeat match goal with
         | |- context [match ?c ?τ with _ => _ end] =>
             destruct (c τ) as [[?|?] ?]; cbn; try done
         end.

Lemma select_neurons_iscell threshold σ :
  select_neurons (PyStr "iscell") threshold σ
  = select_with flag_is_1 MsgSelectIscell σ.
Proof. select_branch σ. Qed.

Lemma select_neurons_isnotcell threshold σ :
  select_neurons (PyStr "isnotcell") threshold σ
  = select_with flag_is_0 MsgSelectNotIscell σ.
Proof. select_branch σ. Qed.

Lemma select_neurons_larger t σ :
  select_neurons (PyStr "iscell_p_larger_than") (Some t) σ
  = select_with (p_larger_than t) (λ n, MsgSelectLarger n t) σ.
Proof. select_branch σ. Qed.

Lemma select_neurons_smaller t σ :
  select_neurons (PyStr "iscell_p_smaller_than") (Some t) σ
  = select_with (p_smaller_than t) (λ n, MsgSelectSmaller n t) σ.
Proof. select_branch σ. Qed.

Lemma select_neurons_larger_None σ :
  ∃ e, (select_neurons (PyStr "iscell_p_larger_than") None σ).1 = inl e.
Proof.
  unfold select_neurons. cbn [String.eqb Ascii.eqb Bool.eqb].
  unfold mbind, M_bind, get_self. cbn.
  destruct (py_getitem _ _); cbn; eauto.
Qed.

Lemma select_neurons_smaller_None σ :
  ∃ e, (select_neurons (PyStr "iscell_p_smaller_than") None σ).1 = inl e.
Proof.
  unfold select_neurons. cbn [String.eqb Ascii.eqb Bool.eqb].
  unfold mbind, M_bind, get_self. cbn.
  destruct (py_getitem _ _); cbn; eauto.
Qed.

Lemma selected_NoDup (mask : list bool) : NoDup (ravel (np_argwhere mask)).
Proof. apply sorted_lt_NoDup, argwhere_sorted. Qed.

(** C5: on a valid current plane with classification table [t],
    ["iscell"] replaces the selection of that plane by the ROI indices whose
    flag equals 1 and ["isnotcell"] by those whose flag equals 0, each index
    once; when every flag is 0 or 1 the second is the complement of the first
    among the row indices of [t]. *)
Theorem select_by_flag σ k t threshold :
  wf (self σ) → current_slot (self σ) = Some k →
  _iscell (self σ) !! k = Some t →
  ∃ cells others,
    select_neurons (PyStr "iscell") threshold σ
    = (inr (), select_result σ k cells (MsgSelectIscell (length cells))) ∧
    select_neurons (PyStr "isnotcell") threshold σ
    = (inr (), select_result σ k others (MsgSelectNotIscell (length others))) ∧
    NoDup cells ∧ NoDup others ∧
    (∀ i, i ∈ cells ↔ ∃ (n : nat) r, i = Z.of_nat n ∧ t !! n = Some r ∧
                                      PrimFloat.eqb r.1 1 = true) ∧
    (∀ i, i ∈ others ↔ ∃ (n : nat) r, i = Z.of_nat n ∧ t !! n = Some r ∧
                                       PrimFloat.eqb r.1 0 = true) ∧
    (binary_flags t → ∀ n : nat, (n < length t)%nat →
       Z.of_nat n ∈ others ↔ Z.of_nat n ∉ cells).
Proof.
  intros Hwf Hk Ht.
  exists (ravel (np_argwhere (flag_is_1 t))), (ravel (np_argwhere (flag_is_0 t))).
  split_and!.
  - rewrite select_neurons_iscell. by apply select_with_ok.
  - rewrite select_neurons_isnotcell. by apply select_with_ok.
  - apply selected_NoDup.
  - apply selected_NoDup.
  - intros i. apply elem_of_selected.
  - intros i. apply elem_of_selected.
  - intros Hbin n Hn. unfold flag_is_0, flag_is_1.
    rewrite !elem_of_selected.
    destruct (lookup_lt_is_Some_2 t n Hn) as [r Hr].
    assert (PrimFloat.eqb r.1 1 = true ∨ PrimFloat.eqb r.1 0 = true) as Hflag.
    { eapply Forall_forall in Hbin; [done|]. by eapply list_elem_of_lookup_2. }
    split.
    + intros (n' & r' & ?%(inj Z.of_nat) & Hr' & H0)
             (n'' & r'' & ?%(inj Z.of_nat) & Hr'' & H1).
      simplify_eq. apply float_eqb_1_not_0 in H1. congruence.
    + intros Hnot. exists n, r. split_and!; [done..|].
      destruct Hflag as [Hf|Hf]; [|done].
      destruct Hnot. by exists n, r.
Qed.

(** C6: on a valid current plane with classification table [t],
    ["iscell_p_larger_than"] with threshold [thr] replaces the selection of
    that plane by the ROI indices whose probability is strictly greater than
    [thr], and ["iscell_p_smaller_than"] by those strictly less, each index
    once; a probability that is not strictly beyond [thr], one equal to it
    among them, is left out. *)
Theorem select_by_probability σ k t (thr : float) :
  wf (self σ) → current_slot (self σ) = Some k →
  _iscell (self σ) !! k = Some t →
  ∃ above below,
    select_neurons (PyStr "iscell_p_larger_than") (Some thr) σ
    = (inr (), select_result σ k above (MsgSelectLarger (length above) thr)) ∧
    select_neurons (PyStr "iscell_p_smaller_than") (Some thr) σ
    = (inr (), select_result σ k below (MsgSelectSmaller (length below) thr)) ∧
    NoDup above ∧ NoDup below ∧
    (∀ i, i ∈ above ↔ ∃ (n : nat) r, i = Z.of_nat n ∧ t !! n = Some r ∧
                                      PrimFloat.ltb thr r.2 = true) ∧
    (∀ i, i ∈ below ↔ ∃ (n : nat) r, i = Z.of_nat n ∧ t !! n = Some r ∧
                                      PrimFloat.ltb r.2 thr = true) ∧
    (∀ (n : nat) r, t !! n = Some r → PrimFloat.eqb r.2 thr = true →
       (Z.of_nat n ∉ above) ∧ (Z.of_nat n ∉ below)).
Proof.
  intros Hwf Hk Ht.
  exists (ravel (np_argwhere (p_larger_than thr t))),
         (ravel (np_argwhere (p_smaller_than thr t))).
  split_and!.
  - rewrite select_neurons_larger. by apply select_with_ok.
  - rewrite select_neurons_smaller. by apply select_with_ok.
  - apply selected_NoDup.
  - apply selected_NoDup.
  - intros i. apply elem_of_selected.
  - intros i. apply elem_of_selected.
  - intros n r Hr Heq. unfold p_larger_than, p_smaller_than.
    rewrite !elem_of_selected.
    destruct (float_eqb_not_ltb _ _ Heq) as [Hgt Hlt].
    split; intros (n' & r' & ?%(inj Z.of_nat) & Hr' & Hcmp); simplify_eq;
      congruence.
Qed.

Lemma selected_bounds (mask : list bool) :
  Forall (λ i, 0 ≤ i < Z.of_nat (length mask)) (ravel (np_argwhere mask)).
Proof.
  apply Forall_forall. intros i (n & -> & Hn%lookup_lt_Some)%elem_of_argwhere.
  lia.
Qed.

(** The selection that a successful branch leaves on the current plane. *)
Lemma select_with_shape mask_of msg σ σ1 :
  (∀ t, length (mask_of t) = length t) →
  wf (self σ) → iscell_rows_match (self σ) →
  select_with mask_of msg σ = (inr (), σ1) →
  ∃ ids n,
    py_getitem (_selected_id (self σ1)) (_plane (self σ1)) = Some ids ∧
    py_getitem (_nrois_total (self σ1)) (_plane (self σ1)) = Some n ∧
    StronglySorted Z.lt ids ∧ NoDup ids ∧
    Forall (λ i, 0 ≤ i < Z.of_nat n) ids.
Proof.
  intros Hlen Hwf Hrows Hrun.
  destruct (current_slot (self σ)) as [k|] eqn:Hk.
  2: { pose proof (select_with_no_plane mask_of msg σ Hwf Hk) as Hno.
       by rewrite Hrun in Hno. }
  destruct (current_table σ k Hwf Hk) as [t Ht].
  rewrite (select_with_ok _ _ _ _ _ Hwf Hk Ht) in Hrun.
  injection Hrun as <-. unfold current_slot in Hk.
  destruct (lookup_lt_is_Some_2 (_nrois_total (self σ)) k) as [n Hn].
  { rewrite (wf_nrois_total _ Hwf). apply (py_index_lt _ _ _ Hk). }
  exists (ravel (np_argwhere (mask_of t))), n. cbn. split_and!.
  - unfold py_getitem. rewrite length_insert, (wf_selected_id _ Hwf), Hk. cbn.
    apply list_lookup_insert_eq. rewrite (wf_selected_id _ Hwf).
    apply (py_index_lt _ _ _ Hk).
  - unfold py_getitem. by rewrite (wf_nrois_total _ Hwf), Hk.
  - apply argwhere_sorted.
  - apply selected_NoDup.
  - rewrite <- (Hrows k t n Ht Hn), <- (Hlen t). apply selected_bounds.
Qed.

(** C10: after a call of [select_neurons] with a recognized selector that
    returns normally, on an object whose classification tables have one row
    per ROI, the selection of the current plane is strictly increasing, has
    no duplicates, and holds only indices from 0 up to, and not including,
    the number of ROIs of that plane. *)
Theorem select_neurons_sorted name threshold σ σ1 :
  recognized name → wf (self σ) → iscell_rows_match (self σ) →
  select_neurons (PyStr name) threshold σ = (inr (), σ1) →
  ∃ ids n,
    py_getitem (_selected_id (self σ1)) (_plane (self σ1)) = Some ids ∧
    py_getitem (_nrois_total (self σ1)) (_plane (self σ1)) = Some n ∧
    StronglySorted Z.lt ids ∧ NoDup ids ∧
    Forall (λ i, 0 ≤ i < Z.of_nat n) ids.
Proof.
  intros Hname Hwf Hrows Hrun.
  assert (∀ (f : float * float → bool) (t : iscell_table),
            length (f <$> t) = length t) as Hlen
    by (intros; apply length_fmap).
  destruct Hname as [Hn|[Hn|[Hn|Hn]]]; subst name.
  - rewrite select_neurons_iscell in Hrun.
    eapply select_with_shape; [|done..]. intros t. apply Hlen.
  - rewrite select_neurons_isnotcell in Hrun.
    eapply select_with_shape; [|done..]. intros t. apply Hlen.
  - destruct threshold as [thr|].
    + rewrite select_neurons_larger in Hrun.
      eapply select_with_shape; [|done..]. intros t. apply Hlen.
    + destruct (select_neurons_larger_None σ) as [e He].
      by rewrite Hrun in He.
  - destruct threshold as [thr|].
    + rewrite select_neurons_smaller in Hrun.
      eapply select_with_shape; [|done..]. intros t. apply Hlen.
    + destruct (select_neurons_smaller_None σ) as [e He].
      by rewrite Hrun in He.
Qed.

(** ** The trace accessors *)

Lemma accessor_trace_matrix k σ :
  accessor random_interval k σ = trace_matrix random_interval k σ.
Proof.
  destruct k; unfold accessor, spikes, F, trace_matrix, load_trace,
    gather_trace, cache, with_cache, trace_file, msg_loading, warn_shuffled.
  all: unfold mbind, M_bind, mret, M_ret, get_self; cbn.
  all: repeat match goal with
         | |- context [match ?c ?τ with _ => _ end] =>
             destruct (c τ) as [[?|?] ?]; cbn; try done
         | |- context [match ?o with Some _ => _ | None => _ end] =>
             destruct o; cbn; try done
         end.
Qed.

(** ** np.random.shuffle *)

Lemma insert_head_perm {X} (l : list X) j a b :
  l !! j = Some b → b :: <[j:=a]> l ≡ₚ a :: l.
Proof.
  revert j. induction l as [|c l IH]; intros [|j] Hj; simplify_eq/=.
  - apply perm_swap.
  - rewrite perm_swap, (IH _ Hj). apply perm_swap.
Qed.

Lemma swap_perm {X} (a : list X) i j : swap a i j ≡ₚ a.
Proof.
  unfold swap.
  destruct (a !! i) as [ai|] eqn:Hi; [|done].
  destruct (a !! j) as [aj|] eqn:Hj; [|done].
  revert i j Hi Hj. induction a as [|c a IH]; intros [|i] [|j] Hi Hj;
    simplify_eq/=; [done|..].
  - by apply insert_head_perm.
  - by apply insert_head_perm.
  - by rewrite IH.
Qed.

Lemma shuffle_from_perm i g (a : list A) :
  (shuffle_from random_interval i g a).2 ≡ₚ a.
Proof.
  revert g a. induction i as [|i IH]; intros g a; cbn; [done|].
  destruct (random_interval g (S i)) as [j g']. by rewrite IH, swap_perm.
Qed.

Lemma shuffle_raw_perm g (a : list A) :
  (shuffle_raw random_interval g a).2 ≡ₚ a.
Proof. apply shuffle_from_perm. Qed.

Lemma shuffle_rows_perm g (rs : list (list A)) :
  Forall2 (≡ₚ) (shuffle_rows random_interval g rs).2 rs.
Proof.
  revert g. induction rs as [|r rs IH]; intros g; cbn; [constructor|].
  pose proof (shuffle_raw_perm g r) as Hr.
  destruct (shuffle_raw random_interval g r) as [g1 r'].
  specialize (IH g1).
  destruct (shuffle_rows random_interval g1 rs) as [g2 rs'].
  by constructor.
Qed.

Lemma shuffle_rows_length g (rs : list (list A)) :
  length (shuffle_rows random_interval g rs).2 = length rs.
Proof. eapply Forall2_length, shuffle_rows_perm. Qed.

(** The loop over the rows of the matrix at [l], from row [length done] on:
    it leaves the rows [done] as they are and shuffles the others. *)
Lemma shuffle_loop_run l σ m done todo :
  heap σ !! l = Some m → rows m = done ++ todo →
  for_range_from (length done) (length todo)
    (np_random_shuffle random_interval l) σ
  = (inr (),
     {| self := self σ;
        heap := <[l:={| shape1 := shape1 m;
                        rows := done ++
                          (shuffle_rows random_interval (rng σ) todo).2 |}]>
                  (heap σ);
        rng := (shuffle_rows random_interval (rng σ) todo).1;
        stdout := stdout σ; np_loads := np_loads σ; files := files σ |}).
Proof.
  revert σ m done. induction todo as [|r todo IH]; intros σ m done Hl Hrows.
  - cbn. rewrite <- Hrows. unfold mret, M_ret. f_equal.
    destruct σ, m; cbn in *.
    f_equal. by rewrite insert_id.
  - cbn [length for_range_from].
    unfold mbind at 1, M_bind at 1.
    unfold np_random_shuffle at 1, mbind, M_bind, deref, get_rng, put_rng,
      store.
    rewrite Hl. cbn. rewrite Hrows.
    rewrite (list_lookup_middle done todo r (length done) eq_refl). cbn.
    destruct (shuffle_raw random_interval (rng σ) r) as [g1 r'] eqn:Hr. cbn.
    unfold with_heap, with_rng. cbn.
    replace (S (length done)) with (length (done ++ [r']))
      by (rewrite length_app; cbn; lia).
    erewrite IH; cbn.
    2: { apply lookup_insert_eq. }
    2: { cbn. rewrite insert_app_r_alt, Nat.sub_diag by done. cbn.
         by rewrite <- app_assoc. }
    cbn. rewrite insert_insert_eq.
    destruct (shuffle_rows random_interval g1 todo) as [g2 rs']. cbn.
    by rewrite <- app_assoc.
Qed.

(** ** Copying the selected rows *)

Lemma wf_cache k s : wf s → length (cache k s) = _nplanes s.
Proof. intros Hwf. destruct k; [apply (wf_spikes _ Hwf)|apply (wf_F _ Hwf)]. Qed.

Lemma np_take_rows_run l ids σ m g :
  heap σ !! l = Some m → take_rows m ids = Some g →
  np_take_rows l ids σ
  = (inr (fresh (dom (<[fresh (dom (heap σ)):=g]> (heap σ)))),
     with_heap (<[fresh (dom (<[fresh (dom (heap σ)):=g]> (heap σ))):=g]>
                  (<[fresh (dom (heap σ)):=g]> (heap σ))) σ).
Proof.
  intros Hl Hg.
  unfold np_take_rows, mbind, M_bind, deref, alloc. rewrite Hl, Hg. cbn.
  by rewrite lookup_insert_eq.
Qed.

Lemma gather_trace_run k σ j c m ids g :
  wf (self σ) → current_slot (self σ) = Some j →
  cache k (self σ) !! j = Some (Some c) → heap σ !! c = Some m →
  _selected_id (self σ) !! j = Some ids → take_rows m ids = Some g →
  gather_post random_interval k σ g (gather_trace random_interval k σ).
Proof.
  intros Hwf Hj Hc Hm Hids Hg. unfold current_slot in Hj.
  set (r1 := fresh (dom (heap σ))).
  set (r2 := fresh (dom (<[r1:=g]> (heap σ)))).
  assert (r1 ∉ dom (heap σ)) as Hr1 by apply is_fresh.
  assert (r2 ∉ dom (<[r1:=g]> (heap σ))) as Hr2 by apply is_fresh.
  assert ((r2 ∉ dom (heap σ)) ∧ r2 ≠ r1) as [Hr2' Hr21]
    by (rewrite dom_insert_L in Hr2; set_solver).
  assert (∀ x l, l ∈ dom (heap σ) →
            <[r2:=x]> (<[r1:=g]> (heap σ)) !! l = heap σ !! l) as Hframe.
  { intros x l Hl. rewrite !lookup_insert_ne; [done|set_solver..]. }
  unfold gather_post, gather_trace.
  unfold mbind at 1, M_bind at 1, get_self at 1. cbn.
  unfold mbind at 1, M_bind at 1.
  unfold py_getitem at 1. rewrite (wf_cache _ _ Hwf), Hj. cbn. rewrite Hc. cbn.
  unfold mbind at 1, M_bind at 1, mret at 1, M_ret at 1.
  unfold mbind at 1, M_bind at 1.
  unfold py_getitem at 1. rewrite (wf_selected_id _ Hwf), Hj. cbn.
  rewrite Hids. cbn.
  unfold mbind at 1, M_bind at 1.
  rewrite (np_take_rows_run _ _ _ _ _ Hm Hg). fold r1 r2.
  unfold mbind at 1, M_bind at 1, shuffletraces, get_self. cbn.
  destruct (is_True (_shuffletraces (self σ))) eqn:Hsh.
  - unfold returned_matrix. rewrite Hsh.
    unfold mbind, M_bind, print, deref. cbn. rewrite Hsh. cbn.
    rewrite lookup_insert_eq. unfold for_range, shape0.
    erewrite (shuffle_loop_run r2 _ g []); cbn; [|apply lookup_insert_eq|done].
    eexists _, _. split; [reflexivity|]. cbn.
    rewrite insert_insert_eq, lookup_insert_eq. split_and!; try done.
    intros l Hl. apply Hframe, Hl.
  - unfold returned_matrix. rewrite Hsh. unfold mbind, M_bind. cbn.
    rewrite Hsh. eexists _, _. split; [reflexivity|]. cbn.
    rewrite lookup_insert_eq, app_nil_r. split_and!; try done.
    intros l Hl. apply Hframe, Hl.
Qed.

(** ** Loading on a cache miss *)

Lemma load_trace_hit k σ j c :
  wf (self σ) → current_slot (self σ) = Some j →
  cache k (self σ) !! j = Some (Some c) →
  load_trace k σ = (inr (), σ).
Proof.
  intros Hwf Hj Hc. unfold current_slot in Hj.
  unfold load_trace, mbind, M_bind, get_self. cbn.
  unfold py_getitem. rewrite (wf_cache _ _ Hwf), Hj. cbn. by rewrite Hc.
Qed.

Lemma load_trace_miss k σ j p :
  wf (self σ) → current_slot (self σ) = Some j →
  cache k (self σ) !! j = Some None →
  _plane_paths (self σ) !! j = Some p →
  load_trace k σ
  = match trace_files (files σ) (os_path_join p (trace_file k)) with
    | Some m =>
        (inr (), loaded_state k σ j (os_path_join p (trace_file k)) m)
    | None =>
        (inl (IOError (os_path_join p (trace_file k))),
         failed_load_state k σ (os_path_join p (trace_file k)))
    end.
Proof.
  intros Hwf Hj Hc Hp. unfold current_slot in Hj.
  unfold load_trace, mbind, M_bind, get_self. cbn.
  unfold py_getitem at 1. rewrite (wf_cache _ _ Hwf), Hj. cbn. rewrite Hc. cbn.
  unfold py_getitem. rewrite (wf_plane_paths _ Hwf), Hj. cbn. rewrite Hp. cbn.
  unfold np_load, np_load_as, mbind, M_bind. cbn.
  destruct (trace_files _ _) as [m|]; cbn; [|done].
  unfold py_setitem. destruct k; cbn.
  - rewrite (wf_spikes _ Hwf), Hj. reflexivity.
  - rewrite (wf_F _ Hwf), Hj. reflexivity.
Qed.

Lemma with_cache_wf k v s :
  wf s → length v = _nplanes s → wf (with_cache k v s).
Proof. intros [] Hv. by destruct k; split. Qed.

Lemma cache_with_cache k v s : cache k (with_cache k v s) = v.
Proof. by destruct k. Qed.

(** After the loading step the cache slot holds the source matrix, and
    nothing that the copying step reads has changed otherwise. *)
Lemma load_trace_run k σ j m :
  wf (self σ) → current_slot (self σ) = Some j → trace_source k σ j m →
  ∃ σ0 c, load_trace k σ = (inr (), σ0) ∧
    wf (self σ0) ∧ current_slot (self σ0) = Some j ∧
    cache k (self σ0) !! j = Some (Some c) ∧ heap σ0 !! c = Some m ∧
    _selected_id (self σ0) = _selected_id (self σ) ∧
    _shuffletraces (self σ0) = _shuffletraces (self σ) ∧
    rng σ0 = rng σ ∧ files σ0 = files σ ∧
    (∀ l, l ∈ dom (heap σ) → heap σ0 !! l = heap σ !! l) ∧
    dom (heap σ) ⊆ dom (heap σ0) ∧
    (∀ c0, cache k (self σ) !! j = Some (Some c0) → σ0 = σ).
Proof.
  intros Hwf Hj [(c & Hc & Hm)|(Hc & p & Hp & Hfile)].
  - exists σ, c. rewrite (load_trace_hit _ _ _ _ Hwf Hj Hc).
    split_and!; done.
  - exists (loaded_state k σ j (os_path_join p (trace_file k)) m),
           (fresh (dom (heap σ))).
    rewrite (load_trace_miss _ _ _ _ Hwf Hj Hc Hp), Hfile.
    assert (j < length (cache k (self σ)))%nat as Hlt
      by (by apply lookup_lt_Some in Hc).
    assert (fresh (dom (heap σ)) ∉ dom (heap σ)) as Hfresh by apply is_fresh.
    split_and!; cbn.
    + done.
    + apply with_cache_wf; [done|].
      by rewrite length_insert, (wf_cache _ _ Hwf).
    + unfold current_slot in *. by destruct k.
    + rewrite cache_with_cache. by apply list_lookup_insert_eq.
    + apply lookup_insert_eq.
    + by destruct k.
    + by destruct k.
    + done.
    + done.
    + intros l Hl. apply lookup_insert_ne. set_solver.
    + rewrite dom_insert_L. set_solver.
    + intros c0 Hc0. congruence.
Qed.

(** ** Rows of the returned matrix *)

Lemma take_rows_is_Some m ids : valid_ids m ids → is_Some (take_rows m ids).
Proof.
  intros Hids. unfold take_rows, take.
  destruct (mapM_is_Some_2 (py_getitem (rows m)) ids) as [rs Hrs].
  { eapply Forall_impl; [exact Hids|]. intros id [i Hi]. cbn.
    unfold py_getitem, shape0 in *. rewrite Hi. cbn.
    apply lookup_lt_is_Some, (py_index_lt _ _ _ Hi). }
  rewrite Hrs. by eexists.
Qed.

Lemma take_rows_spec m ids g :
  take_rows m ids = Some g →
  shape1 g = shape1 m ∧ shape0 g = length ids ∧
  ∀ i id, ids !! i = Some id → rows g !! i = py_getitem (rows m) id.
Proof.
  unfold take_rows, take. intros Hg.
  destruct (mapM _ ids) as [rs|] eqn:Hrs; simplify_eq/=.
  apply mapM_Some in Hrs. split_and!; [done|..].
  - unfold shape0. cbn. symmetry. by eapply Forall2_length.
  - intros i id Hi.
    destruct (Forall2_lookup_l _ _ _ _ _ Hrs Hi) as (row & -> & <-). done.
Qed.

Lemma returned_matrix_shape sh g0 (g : ndarray2 A) :
  shape0 (returned_matrix random_interval sh g0 g) = shape0 g ∧
  shape1 (returned_matrix random_interval sh g0 g) = shape1 g.
Proof.
  unfold returned_matrix, shape0. destruct (is_True sh); cbn; [|done].
  by rewrite shuffle_rows_length.
Qed.

(** An accessor on a state whose source matrix is [m]. *)
Lemma accessor_run k σ j m ids g :
  wf (self σ) → current_slot (self σ) = Some j → trace_source k σ j m →
  _selected_id (self σ) !! j = Some ids → take_rows m ids = Some g →
  ∃ σ0 c, load_trace k σ = (inr (), σ0) ∧
    (wf (self σ0) ∧ current_slot (self σ0) = Some j ∧
     _selected_id (self σ0) = _selected_id (self σ)) ∧
    cache k (self σ0) !! j = Some (Some c) ∧ heap σ0 !! c = Some m ∧
    _shuffletraces (self σ0) = _shuffletraces (self σ) ∧ rng σ0 = rng σ ∧
    dom (heap σ) ⊆ dom (heap σ0) ∧
    (∀ l, l ∈ dom (heap σ) → heap σ0 !! l = heap σ !! l) ∧
    (∀ c0, cache k (self σ) !! j = Some (Some c0) → σ0 = σ) ∧
    gather_post random_interval k σ0 g (accessor random_interval k σ).
Proof.
  intros Hwf Hj Hsrc Hids Hg.
  destruct (load_trace_run k σ j m Hwf Hj Hsrc)
    as (σ0 & c & Hload & Hwf0 & Hj0 & Hc & Hm & Hsel & Hsh & Hrng & Hfiles
        & Hframe & Hdom & Hsame).
  exists σ0, c. split_and!; try done.
  rewrite accessor_trace_matrix. unfold trace_matrix, mbind, M_bind.
  rewrite Hload. eapply gather_trace_run; try done. by rewrite Hsel.
Qed.

(** C1, as the code has it: on a valid current plane whose cache holds the
    matrix [m], and for a selection [ids] of valid row indices, [spikes] and
    [F] return a new matrix with [len(ids)] rows and the columns of [m];
    unless [shuffletraces] is [True], its row [i] is row [ids[i]] of [m],
    in the order of [ids] and with repeated ids giving repeated rows.  The
    matrix is at an address that was not in use, so it is not the cached
    one; the cache and its matrix are as before, and stay so when the
    returned matrix is written to. *)
Theorem trace_rows_gathered k σ j c m ids :
  wf (self σ) → current_slot (self σ) = Some j →
  cache k (self σ) !! j = Some (Some c) → heap σ !! c = Some m →
  _selected_id (self σ) !! j = Some ids → valid_ids m ids →
  ∃ r σ1 m1,
    accessor random_interval k σ = (inr r, σ1) ∧
    heap σ1 !! r = Some m1 ∧
    shape0 m1 = length ids ∧ shape1 m1 = shape1 m ∧
    (is_True (_shuffletraces (self σ)) = false →
       ∀ i id, ids !! i = Some id → rows m1 !! i = py_getitem (rows m) id) ∧
    (r ∉ dom (heap σ)) ∧ r ≠ c ∧
    cache k (self σ1) = cache k (self σ) ∧ heap σ1 !! c = Some m ∧
    (∀ m', <[r:=m']> (heap σ1) !! c = Some m).
Proof.
  intros Hwf Hj Hc Hm Hids Hvalid.
  destruct (take_rows_is_Some m ids Hvalid) as [g Hg].
  destruct (take_rows_spec m ids g Hg) as (Hs1 & Hs0 & Hrows).
  destruct (accessor_run k σ j m ids g Hwf Hj) as
    (σ0 & c' & _ & _ & _ & _ & _ & _ & _ & _ & Hsame & Hpost); try done.
  { left. by exists c. }
  rewrite (Hsame c Hc) in Hpost. clear Hsame.
  destruct Hpost as (r & σ1 & Hrun & Hfresh & Hr & Hframe & Hself & _).
  assert (c ∈ dom (heap σ)) as Hcdom by (by eapply elem_of_dom_2).
  assert (r ≠ c) as Hrc by (intros ->; done).
  destruct (returned_matrix_shape (_shuffletraces (self σ)) (rng σ) g)
    as [Hr0 Hr1].
  eexists r, σ1, _. split_and!; try done.
  - congruence.
  - congruence.
  - intros Hsh. unfold returned_matrix. rewrite Hsh. exact Hrows.
  - by rewrite Hself.
  - by rewrite Hframe.
  - intros m'. by rewrite lookup_insert_ne, Hframe.
Qed.

(** C4: when [shuffletraces] is [True], on a valid current plane whose
    source matrix is [m] (cached, or read from the trace file on a miss),
    every row of the matrix that [spikes] or [F] returns is a permutation of
    the row gathered from [m] at the same place; the rows are shuffled one
    after the other, each by a call of its own that draws from the generator
    where the call before left it; and the cache slot holds [m] itself
    afterwards, at the address it had if it was populated. *)
Theorem trace_rows_shuffled k σ j m ids :
  wf (self σ) → current_slot (self σ) = Some j → trace_source k σ j m →
  _selected_id (self σ) !! j = Some ids → valid_ids m ids →
  is_True (_shuffletraces (self σ)) = true →
  ∃ r σ1 m1 g c,
    accessor random_interval k σ = (inr r, σ1) ∧
    take_rows m ids = Some g ∧
    heap σ1 !! r = Some m1 ∧
    Forall2 (≡ₚ) (rows m1) (rows g) ∧
    (rng σ1, rows m1) = shuffle_rows random_interval (rng σ) (rows g) ∧
    cache k (self σ1) !! j = Some (Some c) ∧ heap σ1 !! c = Some m ∧
    r ≠ c ∧
    (∀ c0, cache k (self σ) !! j = Some (Some c0) → c0 = c).
Proof.
  intros Hwf Hj Hsrc Hids Hvalid Hsh.
  destruct (take_rows_is_Some m ids Hvalid) as [g Hg].
  destruct (accessor_run k σ j m ids g Hwf Hj Hsrc Hids Hg) as
    (σ0 & c & Hload & _ & Hc & Hm & Hsh0 & Hrng & Hdom & _ & Hsame & Hpost).
  destruct Hpost as
    (r & σ1 & Hrun & Hfresh & Hr & Hframe & Hself & _ & _ & Hrng1 & _).
  assert (c ∈ dom (heap σ0)) as Hcdom by (by eapply elem_of_dom_2).
  rewrite Hsh0 in Hr, Hrng1. unfold returned_matrix in Hr.
  rewrite Hsh in Hr, Hrng1. rewrite Hrng in Hr, Hrng1.
  eexists r, σ1, _, g, c. split_and!; try done.
  - cbn. apply shuffle_rows_perm.
  - cbn. rewrite Hrng1. by destruct (shuffle_rows _ _ _).
  - by rewrite Hself.
  - by rewrite Hframe.
  - by intros ->.
  - intros c0 Hc0. rewrite (Hsame c0 Hc0) in Hc. congruence.
Qed.

(** ** When an accessor returns *)

Lemma load_trace_no_plane k σ :
  wf (self σ) → current_slot (self σ) = None →
  load_trace k σ = (inl IndexError, σ).
Proof.
  intros Hwf Hj. unfold current_slot in Hj.
  unfold load_trace, mbind, M_bind, get_self. cbn.
  unfold py_getitem. by rewrite (wf_cache _ _ Hwf), Hj.
Qed.

Lemma current_selection s j :
  wf s → current_slot s = Some j → is_Some (_selected_id s !! j).
Proof.
  intros Hwf Hj%py_index_lt. apply lookup_lt_is_Some.
  by rewrite (wf_selected_id _ Hwf).
Qed.

Lemma gather_trace_fails k σ j c ids :
  wf (self σ) → current_slot (self σ) = Some j →
  cache k (self σ) !! j = Some (Some c) →
  _selected_id (self σ) !! j = Some ids →
  (heap σ !! c = None ∨ ∃ m, heap σ !! c = Some m ∧ take_rows m ids = None) →
  ∃ e, gather_trace random_interval k σ = (inl e, σ).
Proof.
  intros Hwf Hj Hc Hids Hbad. unfold current_slot in Hj.
  unfold gather_trace, mbind, M_bind, get_self. cbn.
  unfold py_getitem at 1. rewrite (wf_cache _ _ Hwf), Hj. cbn. rewrite Hc. cbn.
  unfold py_getitem at 1. rewrite (wf_selected_id _ Hwf), Hj. cbn.
  rewrite Hids. cbn. unfold np_take_rows, mbind, M_bind, deref.
  destruct Hbad as [Hm|(m & Hm & Hg)]; rewrite Hm; cbn; [by eexists|].
  rewrite Hg. cbn. by eexists.
Qed.

Lemma take_rows_valid m ids g : take_rows m ids = Some g → valid_ids m ids.
Proof.
  unfold take_rows, take. intros Hg.
  destruct (mapM _ ids) as [rs|] eqn:Hrs; simplify_eq/=.
  assert (is_Some (mapM (py_getitem (rows m)) ids)) as Hsome by eauto.
  apply mapM_is_Some_1 in Hsome.
  eapply Forall_impl; [exact Hsome|]. intros id [row Hrow]. cbn in Hrow.
  unfold py_getitem, shape0 in *.
  destruct (py_index _ id); [by eexists|done].
Qed.

(** An accessor returns only on a valid plane with a source matrix and a
    selection of valid row indices. *)
Lemma accessor_returns k σ r σ1 :
  wf (self σ) → accessor random_interval k σ = (inr r, σ1) →
  ∃ j m ids g, current_slot (self σ) = Some j ∧ trace_source k σ j m ∧
    _selected_id (self σ) !! j = Some ids ∧ take_rows m ids = Some g.
Proof.
  intros Hwf. rewrite accessor_trace_matrix.
  unfold trace_matrix, mbind, M_bind.
  destruct (current_slot (self σ)) as [j|] eqn:Hj.
  2: { by rewrite (load_trace_no_plane _ _ Hwf Hj). }
  destruct (current_selection _ _ Hwf Hj) as [ids Hids].
  destruct (cache k (self σ) !! j) as [[c|]|] eqn:Hc.
  - rewrite (load_trace_hit _ _ _ _ Hwf Hj Hc).
    destruct (heap σ !! c) as [m|] eqn:Hm.
    + destruct (take_rows m ids) as [g|] eqn:Hg.
      * intros _. exists j, m, ids, g. split_and!; try done.
        left. by exists c.
      * destruct (gather_trace_fails k σ j c ids) as [e He]; try done.
        { right. by exists m. }
        by rewrite He.
    + destruct (gather_trace_fails k σ j c ids) as [e He]; try done.
      { by left. }
      by rewrite He.
  - destruct (lookup_lt_is_Some_2 (_plane_paths (self σ)) j) as [p Hp].
    { rewrite (wf_plane_paths _ Hwf). apply (py_index_lt _ _ _ Hj). }
    rewrite (load_trace_miss _ _ _ _ Hwf Hj Hc Hp).
    destruct (trace_files _ _) as [m|] eqn:Hfile; [|done].
    assert (trace_source k σ j m) as Hsrc.
    { right. split; [done|]. by exists p. }
    destruct (load_trace_run k σ j m Hwf Hj Hsrc)
      as (σ0 & c & Hload & Hwf0 & Hj0 & Hc0 & Hm0 & Hsel & _).
    rewrite (load_trace_miss _ _ _ _ Hwf Hj Hc Hp), Hfile in Hload.
    injection Hload as Hload. rewrite Hload.
    destruct (take_rows m ids) as [g|] eqn:Hg.
    + intros _. by exists j, m, ids, g.
    + destruct (gather_trace_fails k σ0 j c ids) as [e He]; try done.
      { by rewrite Hsel. }
      { right. by exists m. }
      by rewrite He.
  - apply lookup_ge_None in Hc. apply py_index_lt in Hj.
    rewrite (wf_cache _ _ Hwf) in Hc. lia.
Qed.

(** A second call, on a state [σb] that has the plane, the cache, the
    selection and the heap that the first call left. *)
Lemma accessor_again k σ0 σ1 σb j c m ids g r1 :
  gather_post random_interval k σ0 g (inr r1, σ1) →
  cache k (self σ0) !! j = Some (Some c) → heap σ0 !! c = Some m →
  take_rows m ids = Some g →
  wf (self σb) → current_slot (self σb) = Some j →
  cache k (self σb) = cache k (self σ0) →
  _selected_id (self σb) !! j = Some ids → heap σb = heap σ1 →
  ∃ m1 r2 σ2 m2,
    heap σ1 !! r1 = Some m1 ∧
    accessor random_interval k σb = (inr r2, σ2) ∧
    heap σ2 !! r2 = Some m2 ∧ same_shape m1 m2 ∧
    (is_True (_shuffletraces (self σ0)) = false →
     is_True (_shuffletraces (self σb)) = false → m1 = m2) ∧
    r2 ≠ r1 ∧ heap σ2 !! r1 = Some m1.
Proof.
  intros (r & σ' & Heq & Hfresh & Hr & Hframe & Hself & _) Hc Hm Hg
    Hwfb Hjb Hcb Hidsb Hheap.
  injection Heq as Hreq Hσeq. subst r σ'.
  assert (c ∈ dom (heap σ0)) as Hcdom by (by eapply elem_of_dom_2).
  assert (heap σb !! c = Some m) as Hmb by (by rewrite Hheap, Hframe).
  destruct (accessor_run k σb j m ids g Hwfb Hjb) as
    (σ0' & c' & _ & _ & _ & _ & _ & _ & _ & _ & Hsame & Hpost); try done.
  { left. exists c. by rewrite Hcb. }
  rewrite (Hsame c) in Hpost by (by rewrite Hcb). clear Hsame.
  destruct Hpost as (r2 & σ2 & Hrun & Hfresh2 & Hr2 & Hframe2 & _).
  assert (r1 ∈ dom (heap σb)) as Hrdom
    by (rewrite Hheap; by eapply elem_of_dom_2).
  destruct (returned_matrix_shape (_shuffletraces (self σ0)) (rng σ0) g)
    as [Ha0 Ha1].
  destruct (returned_matrix_shape (_shuffletraces (self σb)) (rng σb) g)
    as [Hb0 Hb1].
  eexists _, r2, σ2, _. split_and!; try done.
  - split; congruence.
  - intros H0 Hb. unfold returned_matrix. by rewrite H0, Hb.
  - by intros ->.
  - by rewrite Hframe2, Hheap.
Qed.

Lemma set_shuffletraces_run v σ :
  set_shuffletraces v σ
  = (inr (), with_self (with_shuffletraces v (self σ)) σ).
Proof. reflexivity. Qed.

(** C8: when a call of [spikes] or [F] has returned, a second call right
    after it returns as well, with a matrix of the same shape, and with the
    same values when [shuffletraces] is not [True]; the same holds when the
    flag is set to any value [v] between the two calls, with equal values
    when it is not [True] for either call.  The second call leaves the
    matrix that the first returned as it was. *)
Theorem accessor_twice k σ r1 σ1 :
  wf (self σ) → accessor random_interval k σ = (inr r1, σ1) →
  (∃ m1 r2 σ2 m2,
     heap σ1 !! r1 = Some m1 ∧
     accessor random_interval k σ1 = (inr r2, σ2) ∧
     heap σ2 !! r2 = Some m2 ∧ same_shape m1 m2 ∧
     (is_True (_shuffletraces (self σ)) = false → m1 = m2) ∧
     r2 ≠ r1 ∧ heap σ2 !! r1 = Some m1) ∧
  (∀ v, ∃ m1 r2 σ2 m2,
     heap σ1 !! r1 = Some m1 ∧
     accessor random_interval k (set_shuffletraces v σ1).2 = (inr r2, σ2) ∧
     heap σ2 !! r2 = Some m2 ∧ same_shape m1 m2 ∧
     (is_True (_shuffletraces (self σ)) = false → is_True v = false →
      m1 = m2) ∧
     r2 ≠ r1 ∧ heap σ2 !! r1 = Some m1).
Proof.
  intros Hwf Hrun.
  destruct (accessor_returns k σ r1 σ1 Hwf Hrun)
    as (j & m & ids & g & Hj & Hsrc & Hids & Hg).
  destruct (accessor_run k σ j m ids g Hwf Hj Hsrc Hids Hg) as
    (σ0 & c & _ & (Hwf0 & Hj0 & Hsel0) & Hc & Hm & Hsh0 & _ & _ & _ & _
     & Hpost).
  rewrite Hrun in Hpost.
  pose proof Hpost as (r & σ' & Heq & _ & _ & _ & Hself & _).
  injection Heq as Hreq Hσeq. subst r σ'.
  split.
  - destruct (accessor_again k σ0 σ1 σ1 j c m ids g r1) as
      (m1 & r2 & σ2 & m2 & H1 & H2 & H3 & H4 & H5 & H6 & H7); try done.
    + by rewrite Hself.
    + by rewrite Hself.
    + by rewrite Hself.
    + by rewrite Hself, Hsel0.
    + exists m1, r2, σ2, m2. split_and!; try done.
      intros Hsh. apply H5; by rewrite ?Hself, Hsh0.
  - intros v. rewrite set_shuffletraces_run. cbn [snd].
    destruct (accessor_again k σ0 σ1
                (with_self (with_shuffletraces v (self σ1)) σ1) j c m ids g r1)
      as (m1 & r2 & σ2 & m2 & H1 & H2 & H3 & H4 & H5 & H6 & H7);
      try done; cbn.
    + rewrite Hself. by destruct Hwf0.
    + by rewrite Hself.
    + rewrite Hself. by destruct k.
    + by rewrite Hself, Hsel0.
    + exists m1, r2, σ2, m2. split_and!; try done.
      intros Hsh Hv. apply H5; [by rewrite Hsh0|done].
Qed.

(** ** Calls that read no file *)

Lemma quiet_refl σ : quiet σ σ.
Proof. by split. Qed.

Lemma quiet_trans σ1 σ2 σ3 : quiet σ1 σ2 → quiet σ2 σ3 → quiet σ1 σ3.
Proof. intros [] []. split; congruence. Qed.

Lemma quiet_bind {X Y} (c : M A G X) (f : X → M A G Y) :
  quiet_M c → (∀ x, quiet_M (f x)) → quiet_M (c ≫= f).
Proof.
  intros Hc Hf σ. unfold mbind, M_bind. specialize (Hc σ).
  destruct (c σ) as [[e|x] σ']; cbn in *; [done|].
  eapply quiet_trans; [exact Hc|apply Hf].
Qed.

Lemma quiet_ret {X} (x : X) : quiet_M (mret x : M A G X).
Proof. intros σ. apply quiet_refl. Qed.

Lemma quiet_raise {X} e : quiet_M (raise e : M A G X).
Proof. intros σ. apply quiet_refl. Qed.

Lemma quiet_get_self : quiet_M (get_self : M A G Suite2pData).
Proof. intros σ. apply quiet_refl. Qed.

Lemma quiet_subscript {X} (o : option X) : quiet_M (subscript o : M A G X).
Proof. intros σ. destruct o; apply quiet_refl. Qed.

Lemma quiet_print msg : quiet_M (print msg : M A G unit).
Proof. intros σ. by split. Qed.

Lemma quiet_given threshold : quiet_M (given threshold : M A G float).
Proof. intros σ. destruct threshold; apply quiet_refl. Qed.

Lemma quiet_set_neurons selection :
  quiet_M (set_neurons selection : M A G unit).
Proof.
  intros σ. unfold set_neurons, mbind, M_bind, get_self, py_setitem. cbn.
  destruct (py_index _ _); cbn; [|apply quiet_refl].
  split; cbn; try done. apply length_insert.
Qed.

Lemma quiet_set_plane plane_nr : quiet_M (set_plane plane_nr : M A G unit).
Proof. intros σ. by split. Qed.

Lemma quiet_set_shuffletraces v : quiet_M (set_shuffletraces v : M A G unit).
Proof. intros σ. by split. Qed.

Create HintDb quiet.

#[local] Hint Resolve quiet_ret quiet_raise quiet_get_self quiet_subscript
  quiet_print quiet_given quiet_set_neurons quiet_set_plane
  quiet_set_shuffletraces : quiet.

(** Splits a computation into its steps, down to the ones above. *)
Ltac quiet_steps :=
  repeat first
    [ progress auto with quiet
    | apply quiet_bind; [|intros ?]
    | match goal with
      | |- quiet_M (if ?b then _ else _) => destruct b
      | |- quiet_M (match ?o with _ => _ end) => destruct o
      end ].

Lemma quiet_neurons : quiet_M (neurons : M A G (list Z)).
Proof. unfold neurons. quiet_steps. Qed.

Lemma quiet_select_neurons selector threshold :
  quiet_M (select_neurons selector threshold : M A G unit).
Proof.
  pose proof quiet_neurons.
  unfold select_neurons. destruct selector; quiet_steps.
Qed.

Lemma quiet_exec c :
  c ≠ GetSpikes → c ≠ GetF → quiet_M (exec (A:=A) random_interval c).
Proof.
  pose proof quiet_neurons. pose proof quiet_select_neurons.
  intros Hs HF. destruct c; try done; cbn [exec];
    unfold plane, nrois, x, y, shuffletraces, nplanes, image, aspect_ratio;
    quiet_steps.
Qed.

Lemma quiet_wf σ σ' : wf (self σ) → quiet σ σ' → wf (self σ').
Proof. intros [] []. split; congruence. Qed.

Lemma quiet_alloc m : quiet_M (alloc m : M A G loc).
Proof. intros σ. by split. Qed.

Lemma quiet_deref l : quiet_M (deref l : M A G (ndarray2 A)).
Proof. intros σ. unfold deref. destruct (heap σ !! l); apply quiet_refl. Qed.

Lemma quiet_store l m : quiet_M (store l m : M A G unit).
Proof. intros σ. by split. Qed.

Lemma quiet_get_rng : quiet_M (get_rng : M A G G).
Proof. intros σ. apply quiet_refl. Qed.

Lemma quiet_put_rng g : quiet_M (put_rng g : M A G unit).
Proof. intros σ. by split. Qed.

#[local] Hint Resolve quiet_alloc quiet_deref quiet_store quiet_get_rng
  quiet_put_rng : quiet.

Lemma quiet_np_random_shuffle l ix :
  quiet_M (np_random_shuffle (A:=A) random_interval l ix).
Proof. unfold np_random_shuffle. quiet_steps. Qed.

Lemma quiet_for_range_from i n l :
  quiet_M (for_range_from i n (np_random_shuffle (A:=A) random_interval l)).
Proof.
  revert i. induction n as [|n IH]; intros i; cbn [for_range_from].
  - apply quiet_ret.
  - apply quiet_bind; [apply quiet_np_random_shuffle|]. intros _. apply IH.
Qed.

Lemma quiet_gather_trace k :
  quiet_M (gather_trace (A:=A) random_interval k).
Proof.
  pose proof quiet_for_range_from.
  unfold gather_trace, loaded, np_take_rows, shuffletraces, for_range.
  quiet_steps.
Qed.

(** ** One load per trace file *)

Lemma list_ascii_app (a b : string) :
  String.list_ascii_of_string (a +:+ b)
  = String.list_ascii_of_string a ++ String.list_ascii_of_string b.
Proof. induction a as [|ch a IH]; simpl; [done|]. by f_equal. Qed.

Lemma list_ascii_inj (a b : string) :
  String.list_ascii_of_string a = String.list_ascii_of_string b → a = b.
Proof.
  intros H. rewrite <- (String.string_of_list_ascii_of_string a),
    <- (String.string_of_list_ascii_of_string b). by rewrite H.
Qed.

(** The trace files of two plane folders, or of the two kinds, differ. *)
Lemma trace_file_inj p p' k k' :
  os_path_join p (trace_file k) = os_path_join p' (trace_file k') →
  p = p' ∧ k = k'.
Proof.
  unfold os_path_join. intros H%(f_equal String.list_ascii_of_string).
  rewrite !list_ascii_app in H.
  destruct k, k'; cbn [trace_file] in H.
  - apply app_inv_tail in H. by apply list_ascii_inj in H.
  - apply (f_equal (@List.rev _)) in H. rewrite !rev_app_distr in H.
    cbn in H. discriminate.
  - apply (f_equal (@List.rev _)) in H. rewrite !rev_app_distr in H.
    cbn in H. discriminate.
  - apply app_inv_tail in H. by apply list_ascii_inj in H.
Qed.

Lemma cached_le k s j : (cached k s j ≤ 1)%nat.
Proof. unfold cached. repeat case_match; lia. Qed.

Lemma loads_of_app f l1 l2 :
  loads_of f (l1 ++ l2) = (loads_of f l1 + loads_of f l2)%nat.
Proof. unfold loads_of. by rewrite filter_app, length_app. Qed.

Lemma reads_of_app f l1 l2 :
  reads_of f (l1 ++ l2) = (reads_of f l1 + reads_of f l2)%nat.
Proof. unfold reads_of. by rewrite filter_app, length_app. Qed.

Lemma load_step_trans σ1 σ2 σ3 :
  load_step σ1 σ2 → load_step σ2 σ3 → load_step σ1 σ3.
Proof.
  intros (Hwf2 & Hp2 & new12 & Hl12 & H12) (Hwf3 & Hp3 & new23 & Hl23 & H23).
  split_and!; [done|congruence|].
  exists (new12 ++ new23). split; [by rewrite Hl23, Hl12, app_assoc|].
  intros k j p Hp.
  destruct (H12 k j p Hp) as [Ha Hb].
  destruct (H23 k j p) as [Hc Hd]; [by rewrite Hp2|].
  pose proof (cached_le k (self σ2) j).
  rewrite loads_of_app, reads_of_app. split; [lia|].
  intros H1. rewrite (Hb H1), Hd; lia.
Qed.

Lemma load_step_quiet σ σ' : wf (self σ) → quiet σ σ' → load_step σ σ'.
Proof.
  intros Hwf Hq. split_and!.
  - by eapply quiet_wf.
  - apply Hq.
  - exists []. split; [by rewrite app_nil_r, (quiet_np_loads _ _ Hq)|].
    intros k j p _. cbn. split; [|done].
    unfold cached. destruct k; cbn;
      by rewrite ?(quiet_spikes _ _ Hq), ?(quiet_F _ _ Hq).
Qed.

Lemma loads_of_one_ne f f' b : (f', b) ≠ (f, true) → loads_of f [(f', b)] = 0%nat.
Proof.
  intros Hne. unfold loads_of. rewrite filter_cons, filter_nil.
  by case_decide.
Qed.

Lemma loads_of_one f : loads_of f [(f, true)] = 1%nat.
Proof.
  unfold loads_of. rewrite filter_cons, filter_nil. by case_decide.
Qed.

Lemma reads_of_one_ne f f' b : f' ≠ f → reads_of f [(f', b)] = 0%nat.
Proof.
  intros Hne. unfold reads_of. rewrite filter_cons, filter_nil.
  by case_decide.
Qed.

Lemma cache_with_cache_ne k k' v s :
  k ≠ k' → cache k (with_cache k' v s) = cache k s.
Proof. by destruct k, k'. Qed.

Lemma plane_paths_with_cache k v s :
  _plane_paths (with_cache k v s) = _plane_paths s.
Proof. by destruct k. Qed.

(** The slot and the kind that a trace file belongs to. *)
Lemma trace_file_slot s j j' p p' k k' :
  NoDup (_plane_paths s) →
  _plane_paths s !! j = Some p → _plane_paths s !! j' = Some p' →
  os_path_join p (trace_file k) = os_path_join p' (trace_file k') →
  j = j' ∧ k = k'.
Proof.
  intros Hnd Hp Hp' [-> ->]%trace_file_inj. split; [|done].
  by eapply NoDup_lookup.
Qed.

Lemma failed_load_step k' σ j' p' :
  wf (self σ) → NoDup (_plane_paths (self σ)) →
  cache k' (self σ) !! j' = Some None →
  _plane_paths (self σ) !! j' = Some p' →
  load_step σ (failed_load_state k' σ (os_path_join p' (trace_file k'))).
Proof.
  intros Hwf Hnd Hc Hp'. split_and!; [done..|].
  eexists. split; [reflexivity|]. intros k j p Hp. split.
  - by rewrite loads_of_one_ne.
  - intros Hcached. apply reads_of_one_ne. intros Heq.
    destruct (trace_file_slot _ _ _ _ _ _ _ Hnd Hp Hp' (eq_sym Heq))
      as [-> ->].
    unfold cached in Hcached. by rewrite Hc in Hcached.
Qed.

Lemma loaded_step k' σ j' p' m :
  wf (self σ) → NoDup (_plane_paths (self σ)) →
  cache k' (self σ) !! j' = Some None →
  _plane_paths (self σ) !! j' = Some p' →
  load_step σ (loaded_state k' σ j' (os_path_join p' (trace_file k')) m).
Proof.
  intros Hwf Hnd Hc Hp'.
  assert (j' < length (cache k' (self σ)))%nat as Hlt
    by (by apply lookup_lt_Some in Hc).
  split_and!; cbn.
  - apply with_cache_wf; [done|].
    by rewrite length_insert, (wf_cache _ _ Hwf).
  - apply plane_paths_with_cache.
  - eexists. split; [reflexivity|]. intros k j p Hp.
    destruct (decide (os_path_join p (trace_file k)
                      = os_path_join p' (trace_file k'))) as [Heq|Hne].
    + destruct (trace_file_slot _ _ _ _ _ _ _ Hnd Hp Hp' Heq) as [-> ->].
      rewrite Heq, loads_of_one. unfold cached.
      rewrite cache_with_cache, Hc, list_lookup_insert_eq by done.
      split; [done|]. intros; lia.
    + rewrite loads_of_one_ne by congruence.
      rewrite reads_of_one_ne by congruence. split; [|done].
      unfold cached. destruct (decide (k = k')) as [->|Hk].
      * rewrite cache_with_cache, list_lookup_insert_ne; [done|].
        intros ->. rewrite Hp in Hp'. by simplify_eq.
      * by rewrite cache_with_cache_ne.
Qed.

(** A call of an accessor. *)
Lemma accessor_step k σ :
  wf (self σ) → NoDup (_plane_paths (self σ)) →
  load_step σ (accessor random_interval k σ).2.
Proof.
  intros Hwf Hnd. rewrite accessor_trace_matrix.
  unfold trace_matrix, mbind, M_bind.
  destruct (current_slot (self σ)) as [j|] eqn:Hj.
  2: { rewrite (load_trace_no_plane _ _ Hwf Hj). cbn.
       apply load_step_quiet, quiet_refl. done. }
  destruct (cache k (self σ) !! j) as [[c|]|] eqn:Hc.
  - rewrite (load_trace_hit _ _ _ _ Hwf Hj Hc).
    apply load_step_quiet, quiet_gather_trace. done.
  - destruct (lookup_lt_is_Some_2 (_plane_paths (self σ)) j) as [p Hp].
    { rewrite (wf_plane_paths _ Hwf). apply (py_index_lt _ _ _ Hj). }
    rewrite (load_trace_miss _ _ _ _ Hwf Hj Hc Hp).
    destruct (trace_files _ _) as [m|].
    + pose proof (loaded_step k σ j p m Hwf Hnd Hc Hp) as Hstep.
      eapply load_step_trans; [exact Hstep|].
      apply load_step_quiet, quiet_gather_trace. apply Hstep.
    + cbn. by apply (failed_load_step k σ j p).
  - apply lookup_ge_None in Hc. apply py_index_lt in Hj.
    rewrite (wf_cache _ _ Hwf) in Hc. lia.
Qed.

Lemma then_skip_state {X} (c : M A G X) σ : ((c;; mret ()) σ).2 = (c σ).2.
Proof. unfold mbind, M_bind. by destruct (c σ) as [[e|v] σ']. Qed.

Lemma exec_step c σ :
  wf (self σ) → NoDup (_plane_paths (self σ)) →
  load_step σ (exec random_interval c σ).2.
Proof.
  intros Hwf Hnd.
  destruct c;
    try (apply load_step_quiet; [done|]; by apply quiet_exec).
  - cbn [exec]. rewrite then_skip_state.
    apply (accessor_step Spikes σ Hwf Hnd).
  - cbn [exec]. rewrite then_skip_state.
    apply (accessor_step Fluorescence σ Hwf Hnd).
Qed.

Lemma run_step cs σ :
  wf (self σ) → NoDup (_plane_paths (self σ)) →
  load_step σ (run random_interval cs σ).
Proof.
  revert σ. induction cs as [|c cs IH]; intros σ Hwf Hnd; cbn.
  - apply load_step_quiet, quiet_refl. done.
  - pose proof (exec_step c σ Hwf Hnd) as Hc.
    eapply load_step_trans; [exact Hc|].
    destruct Hc as (Hwf' & Hp' & _). apply IH; [done|]. by rewrite Hp'.
Qed.

(** C2: in any sequence of calls on the object, from any well-formed state
    whose plane folders are distinct, the trace file of a plane (the
    fluorescence file, and likewise the spike file) is loaded successfully
    at most once; it is not read at all when the cache slot of the plane was
    populated at the start, and a load goes with the slot becoming
    populated.  A call of the accessor on a valid plane whose slot is empty
    reads the file exactly once. *)
Theorem trace_file_loaded_once cs σ k j p :
  wf (self σ) → NoDup (_plane_paths (self σ)) →
  _plane_paths (self σ) !! j = Some p →
  (∃ new,
     np_loads (run random_interval cs σ) = np_loads σ ++ new ∧
     (loads_of (os_path_join p (trace_file k)) new ≤ 1)%nat ∧
     (cached k (self σ) j = 1%nat →
      reads_of (os_path_join p (trace_file k)) new = 0%nat) ∧
     (loads_of (os_path_join p (trace_file k)) new + cached k (self σ) j
      = cached k (self (run random_interval cs σ)) j)%nat) ∧
  (current_slot (self σ) = Some j → cache k (self σ) !! j = Some None →
   ∃ ok, np_loads (accessor random_interval k σ).2
         = np_loads σ ++ [(os_path_join p (trace_file k), ok)]).
Proof.
  intros Hwf Hnd Hp. split.
  - destruct (run_step cs σ Hwf Hnd) as (_ & _ & new & Hnew & Hall).
    destruct (Hall k j p Hp) as [Hloads Hreads].
    pose proof (cached_le k (self (run random_interval cs σ)) j).
    exists new. split_and!; [done|lia|done..].
  - intros Hj Hc. rewrite accessor_trace_matrix.
    unfold trace_matrix, mbind, M_bind.
    rewrite (load_trace_miss _ _ _ _ Hwf Hj Hc Hp).
    destruct (trace_files _ _) as [m|].
    + exists true. by rewrite (quiet_np_loads _ _ (quiet_gather_trace k _)).
    + by exists false.
Qed.

End properties.

(** * Further properties of the class *)

Section more_properties.

Context {A G : Type} (random_interval : G → nat → nat * G).

Implicit Types (σ : State A G) (s : Suite2pData) (m : ndarray2 A).

(** ** The constructor *)

Lemma np_load_as_inr {X} (kind : FileSystem A → string → option X) f σ v σ1 :
  np_load_as kind f σ = (inr v, σ1) →
  kind (files σ) f = Some v ∧
  σ1 = with_np_loads (np_loads σ ++ [(f, true)]) σ.
Proof.
  unfold np_load_as. destruct (kind (files σ) f) as [v'|]; cbn; [|done].
  by intros [= -> <-].
Qed.



(** The loop over the plane folders, when it returns: what it has read,
    and that it has touched nothing but the log. *)
Lemma load_roi_info_run paths σ info σ1 :
  load_roi_info paths σ = (inr info, σ1) →
  σ1 = with_np_loads (np_loads σ ++ roi_info_reads paths) σ ∧
  Forall2 (λ p stat,
             stat_files (files σ) (os_path_join p "stat.npy") = Some stat)
    paths info.1.1 ∧
  info.1.2 = length <$> info.1.1 ∧
  Forall2 (λ p t,
             iscell_files (files σ) (os_path_join p "iscell.npy") = Some t)
    paths info.2.
Proof.
  revert σ info σ1. induction paths as [|p ps IH]; intros σ info σ1; cbn.
  - intros [= <- <-]. cbn. rewrite app_nil_r. by destruct σ.
  - unfold mbind, M_bind.
    destruct (np_load_as stat_files _ σ) as [[e|stat] σa] eqn:Hstat; [done|].
    apply np_load_as_inr in Hstat as [Hstat ->].
    destruct (np_load_as iscell_files _ _) as [[e|isc] σb] eqn:Hisc; [done|].
    apply np_load_as_inr in Hisc as [Hisc ->]. cbn in Hisc.
    destruct (load_roi_info ps _) as [[e|rest] σc] eqn:Hrest; [done|].
    apply IH in Hrest as (-> & H1 & H2 & H3). cbn in *.
    intros [= <- <-]. cbn. split_and!.
    + unfold roi_info_reads. cbn. by rewrite <- !app_assoc.
    + by constructor.
    + by rewrite H2.
    + by constructor.
Qed.



(** The assignments into the [np.int] arrays: they store the value, or
    raise when it does not fit, and change nothing else. *)
Lemma as_np_int_fits z σ : np_int_range z → as_np_int z σ = (inr z, σ).
Proof. intros Hz. unfold as_np_int. by rewrite bool_decide_true. Qed.

Lemma as_np_int_overflow z σ :
  ¬ np_int_range z → as_np_int z σ = (inl OverflowError, σ).
Proof. intros Hz. unfold as_np_int. by rewrite bool_decide_false. Qed.

Lemma np_int_range_dec z : np_int_range z ∨ ¬ np_int_range z.
Proof. unfold np_int_range. lia. Qed.

Lemma roi_positions_fits stat σ :
  Forall fits_np_int stat →
  roi_positions stat σ = (inr (roi_x stat, roi_y stat), σ).
Proof.
  induction 1 as [|roi rest [Hy Hx] _ IH]; [done|]. cbn.
  unfold mbind, M_bind.
  by rewrite (as_np_int_fits _ _ Hy), (as_np_int_fits _ _ Hx), IH.
Qed.

Lemma roi_positions_overflow stat σ :
  ¬ Forall fits_np_int stat →
  roi_positions stat σ = (inl OverflowError, σ).
Proof.
  induction stat as [|roi rest IH]; intros Hbad.
  { destruct Hbad. constructor. }
  cbn. unfold mbind, M_bind.
  destruct (np_int_range_dec (med roi).1) as [Hy|Hy].
  2: { by rewrite (as_np_int_overflow _ _ Hy). }
  rewrite (as_np_int_fits _ _ Hy).
  destruct (np_int_range_dec (med roi).2) as [Hx|Hx].
  2: { by rewrite (as_np_int_overflow _ _ Hx). }
  rewrite (as_np_int_fits _ _ Hx), IH; [done|].
  intros Hrest. apply Hbad. by constructor.
Qed.

Lemma fits_dec (stat : list roi_stat) :
  Forall fits_np_int stat ∨ ¬ Forall fits_np_int stat.
Proof.
  induction stat as [|roi rest [IH|IH]].
  - left. constructor.
  - destruct (np_int_range_dec (med roi).1) as [Hy|Hy];
      [destruct (np_int_range_dec (med roi).2) as [Hx|Hx]|].
    + left. by constructor.
    + right. intros [[_ ?] _]%Forall_cons. done.
    + right. intros [[? _] _]%Forall_cons. done.
  - right. intros [_ ?]%Forall_cons. done.
Qed.

Lemma process_roi_info_fits roiinfo σ :
  Forall (Forall fits_np_int) roiinfo →
  process_roi_info roiinfo σ = (inr (roi_x <$> roiinfo, roi_y <$> roiinfo), σ).
Proof.
  induction 1 as [|stat rest Hstat _ IH]; [done|]. cbn.
  unfold mbind, M_bind. by rewrite (roi_positions_fits _ _ Hstat), IH.
Qed.

Lemma process_roi_info_overflow roiinfo σ :
  ¬ Forall (Forall fits_np_int) roiinfo →
  process_roi_info roiinfo σ = (inl OverflowError, σ).
Proof.
  induction roiinfo as [|stat rest IH]; intros Hbad.
  { destruct Hbad. constructor. }
  cbn. unfold mbind, M_bind.
  destruct (fits_dec stat) as [Hstat|Hstat].
  2: { by rewrite (roi_positions_overflow _ _ Hstat). }
  rewrite (roi_positions_fits _ _ Hstat), IH; [done|].
  intros Hrest. apply Hbad. by constructor.
Qed.

Lemma all_fit_dec (roiinfo : list (list roi_stat)) :
  Forall (Forall fits_np_int) roiinfo ∨ ¬ Forall (Forall fits_np_int) roiinfo.
Proof.
  induction roiinfo as [|stat rest [IH|IH]].
  - left. constructor.
  - destruct (fits_dec stat) as [Hstat|Hstat].
    + left. by constructor.
    + right. intros [? _]%Forall_cons. done.
  - right. intros [_ ?]%Forall_cons. done.
Qed.


(** What a returning call of [__init__] has done. *)
Lemma init_inr datapath σ σ1 :
  __init__ datapath σ = (inr (), σ1) →
  let root := os_path_join datapath "suite2p" in
  let paths := glob_glob (files σ) (os_path_join root "plane*") in
  ∃ ops info,
    ops_files (files σ) (os_path_join root "ops1.npy") = Some ops ∧
    Forall2 (λ p stat,
               stat_files (files σ) (os_path_join p "stat.npy") = Some stat)
      paths info.1.1 ∧
    info.1.2 = length <$> info.1.1 ∧
    Forall2 (λ p t,
               iscell_files (files σ) (os_path_join p "iscell.npy") = Some t)
      paths info.2 ∧
    Forall (Forall fits_np_int) info.1.1 ∧
    σ1 = with_self
           {| _datapath := datapath; _s2proot := root;
              _plane_paths := paths; _nplanes := length paths; _ops := ops;
              _roiinfo := info.1.1; _nrois_total := info.1.2;
              _iscell := info.2;
              _x := roi_x <$> info.1.1; _y := roi_y <$> info.1.1;
              _selected_id := all_rois <$> info.1.2;
              _plane := 0; _shuffletraces := PyBool false;
              _spikes := replicate (length paths) None;
              _F := replicate (length paths) None |}
           (with_np_loads (np_loads σ ++ init_reads datapath paths) σ).
Proof.
  unfold __init__, mbind, M_bind, glob. cbn.
  destruct (np_load_as ops_files _ σ) as [[e|ops] σa] eqn:Hops; [done|].
  apply np_load_as_inr in Hops as [Hops ->].
  destruct (load_roi_info _ _) as [[e|info] σb] eqn:Hinfo; [done|].
  apply load_roi_info_run in Hinfo as (-> & H1 & H2 & H3). cbn in *.
  destruct (all_fit_dec info.1.1) as [Hfit|Hfit].
  2: { by rewrite (process_roi_info_overflow _ _ Hfit). }
  rewrite (process_roi_info_fits _ _ Hfit).
  intros [= <-]. exists ops, info. split_and!; try done.
  unfold init_reads. cbn. by rewrite <- app_assoc.
Qed.


Lemma reads_of_0 f (log : list (string * bool)) :
  Forall (λ r, r.1 ≠ f) log → reads_of f log = 0%nat.
Proof.
  unfold reads_of. induction 1 as [|r log Hr _ IH]; [done|].
  rewrite filter_cons. by case_decide.
Qed.

(** The files of the constructor are none of the trace files. *)
Lemma not_a_trace_file a b p k :
  b = "ops1.npy" ∨ b = "stat.npy" ∨ b = "iscell.npy" →
  os_path_join a b ≠ os_path_join p (trace_file k).
Proof.
  unfold os_path_join. intros Hb H%(f_equal String.list_ascii_of_string).
  rewrite !list_ascii_app in H.
  apply (f_equal (@List.rev _)) in H. rewrite !rev_app_distr in H.
  destruct Hb as [->|[->| ->]], k; cbn in H; discriminate.
Qed.

(** X2: a returning call of [__init__], for a data path and plane folders
    that are not empty and have no trailing separator, reads the options file and then, for
    every plane folder in the order of [glob], [stat.npy] and
    [iscell.npy]; it reads no trace file, and it leaves the heap, the
    generator and the output as they were. *)
Theorem init_reads_files datapath σ σ1 :
  plain_path datapath → plain_folders (files σ) datapath →
  __init__ datapath σ = (inr (), σ1) →
  np_loads σ1 = np_loads σ ++ init_reads datapath (_plane_paths (self σ1)) ∧
  (∀ p k, reads_of (os_path_join p (trace_file k))
            (init_reads datapath (_plane_paths (self σ1))) = 0%nat) ∧
  heap σ1 = heap σ ∧ rng σ1 = rng σ ∧ stdout σ1 = stdout σ ∧
  files σ1 = files σ.
Proof.
  intros _ _ Hinit.
  destruct (init_inr _ _ _ Hinit) as (ops & info & _ & _ & _ & _ & _ & ->).
  split_and!; try done.
  intros p k. apply reads_of_0. constructor; cbn [fst].
  - apply not_a_trace_file. by left.
  - unfold roi_info_reads. apply Forall_flat_map, Forall_forall.
    intros q _. repeat constructor; cbn; apply not_a_trace_file; tauto.
Qed.



(** ** Selections and positions *)

Lemma py_getitem_valid {X} (a : list X) id :
  is_Some (py_getitem a id) ↔ is_Some (py_index (length a) id).
Proof.
  split.
  - unfold py_getitem. destruct (py_index _ id); [by eauto|]. by intros [? ?].
  - intros [k Hk]. by eapply py_getitem_is_Some.
Qed.

Lemma take_lookup {X} (a : list X) ids r :
  take a ids = Some r →
  length r = length ids ∧
  ∀ (i : nat) id, ids !! i = Some id → r !! i = py_getitem a id.
Proof.
  unfold take. intros H%mapM_Some. split.
  - symmetry. by eapply Forall2_length.
  - intros i id Hid.
    destruct (Forall2_lookup_l _ _ _ _ _ H Hid) as (v & -> & Hv). done.
Qed.

Lemma take_is_Some {X} (a : list X) ids :
  is_Some (take a ids) ↔ Forall (λ id, is_Some (py_index (length a) id)) ids.
Proof.
  unfold take. rewrite mapM_is_Some. apply Forall_proper; [|done].
  intros id. apply py_getitem_valid.
Qed.

(** Indexing with all the indices, in order, gives the array back. *)
Lemma take_all {X} (a : list X) : take a (all_rois (length a)) = Some a.
Proof.
  apply mapM_Some, Forall2_same_length_lookup_2.
  - unfold all_rois. rewrite length_seqZ. lia.
  - intros i id v [-> Hi]%lookup_seqZ Hv. unfold py_getitem.
    rewrite py_index_nonneg by lia. cbn. by rewrite Z.add_0_l, Nat2Z.id.
Qed.

Lemma all_rois_np_int n :
  Z.of_nat n ≤ 2 ^ 63 → np_int <$> all_rois n = all_rois n.
Proof.
  intros Hn. apply np_int_fmap_id, Forall_seqZ. unfold np_int_range. lia.
Qed.

Lemma all_selected_run σ n xs ys :
  py_getitem (_selected_id (self σ)) (_plane (self σ)) = Some (all_rois n) →
  py_getitem (_x (self σ)) (_plane (self σ)) = Some xs →
  py_getitem (_y (self σ)) (_plane (self σ)) = Some ys →
  length xs = n → length ys = n → Z.of_nat n ≤ 2 ^ 63 →
  neurons σ = (inr (all_rois n), σ) ∧
  nrois σ = (inr (length (all_rois n)), σ) ∧
  length (all_rois n) = n ∧
  x σ = (inr (np_int <$> xs), σ) ∧
  y σ = (inr (np_int <$> ys), σ).
Proof.
  intros Hsel Hxs Hys <- Hlen Hn.
  unfold neurons, nrois, x, y, mbind, M_bind, get_self. cbn.
  rewrite Hsel, Hxs, Hys. cbn. rewrite take_all, all_rois_np_int by done.
  rewrite <- Hlen, take_all. cbn. split_and!; try done.
  unfold all_rois. rewrite length_seqZ. lia.
Qed.

(** X5: on the object that [__init__] has built, and for every plane number
    that denotes a plane, all the ROIs of the plane are selected: [neurons]
    returns 0, 1, ... in order, [nrois] the number of entries of [stat.npy],
    and [x] and [y] the positions of all the ROIs in file order. *)
Theorem init_selects_all datapath σ σ1 i (j : nat) p stat :
  __init__ datapath σ = (inr (), σ1) →
  py_index (_nplanes (self σ1)) i = Some j →
  _plane_paths (self σ1) !! j = Some p →
  stat_files (files σ) (os_path_join p "stat.npy") = Some stat →
  Z.of_nat (length stat) ≤ 2 ^ 63 →
  let σ2 := (set_plane i σ1).2 in
  neurons σ2 = (inr (all_rois (length stat)), σ2) ∧
  nrois σ2 = (inr (length (all_rois (length stat))), σ2) ∧
  length (all_rois (length stat)) = length stat ∧
  x σ2 = (inr (np_int <$> roi_x stat), σ2) ∧
  y σ2 = (inr (np_int <$> roi_y stat), σ2).
Proof.
  intros Hinit.
  destruct (init_inr _ _ _ Hinit) as (ops & info & _ & H1 & H2 & _ & _ & ->).
  cbn [self with_self _nplanes _plane_paths]. intros Hj Hp Hstat Hn.
  destruct (Forall2_lookup_l _ _ _ _ _ H1 Hp) as (stat' & Hstat' & Hfile).
  assert (stat' = stat) as -> by congruence.
  pose proof (Forall2_length _ _ _ H1) as Hlen.
  assert (∀ X (f : list roi_stat → X),
            py_getitem (f <$> info.1.1) i = Some (f stat)) as Hget.
  { intros X f. unfold py_getitem.
    rewrite length_fmap, <- Hlen, Hj. cbn.
    by rewrite list_lookup_fmap, Hstat'. }
  apply all_selected_run; try done.
  - pose proof (Hget _ (all_rois ∘ length)) as Hsel.
    rewrite list_fmap_compose, <- H2 in Hsel. exact Hsel.
  - exact (Hget _ roi_x).
  - exact (Hget _ roi_y).
  - apply length_fmap.
  - apply length_fmap.
Qed.

(** X6: [x] and [y] index the positions of the current plane with the
    current selection, for a selection whose ids fit the index type of
    numpy (int64): when every selected id is an index of the position
    array, they return one position per selected id, in the order of the
    selection; otherwise they raise [IndexError].  The state stays as it
    was in both cases. *)
Theorem positions_follow_selection σ xs ys ids :
  py_getitem (_x (self σ)) (_plane (self σ)) = Some xs →
  py_getitem (_y (self σ)) (_plane (self σ)) = Some ys →
  py_getitem (_selected_id (self σ)) (_plane (self σ)) = Some ids →
  Forall np_int_range ids →
  (Forall (λ id, is_Some (py_index (length xs) id)) ids →
   ∃ r, x σ = (inr r, σ) ∧ length r = length ids ∧
     ∀ (i : nat) id, ids !! i = Some id →
       r !! i = np_int <$> py_getitem xs id) ∧
  (¬ Forall (λ id, is_Some (py_index (length xs) id)) ids →
   x σ = (inl IndexError, σ)) ∧
  (Forall (λ id, is_Some (py_index (length ys) id)) ids →
   ∃ r, y σ = (inr r, σ) ∧ length r = length ids ∧
     ∀ (i : nat) id, ids !! i = Some id →
       r !! i = np_int <$> py_getitem ys id) ∧
  (¬ Forall (λ id, is_Some (py_index (length ys) id)) ids →
   y σ = (inl IndexError, σ)).
Proof.
  intros Hxs Hys Hids _.
  unfold x, y, mbind, M_bind, get_self. cbn. rewrite Hxs, Hys, Hids. cbn.
  split_and!.
  - intros [r Hr]%take_is_Some. rewrite Hr. cbn. exists (np_int <$> r).
    destruct (take_lookup _ _ _ Hr) as [Hlen Hrows].
    split_and!; [done|by rewrite length_fmap|].
    intros i id Hid. by rewrite list_lookup_fmap, (Hrows _ _ Hid).
  - intros Hbad. destruct (take xs ids) as [r|] eqn:Hr; [|done].
    destruct Hbad. apply take_is_Some. by eexists.
  - intros [r Hr]%take_is_Some. rewrite Hr. cbn. exists (np_int <$> r).
    destruct (take_lookup _ _ _ Hr) as [Hlen Hrows].
    split_and!; [done|by rewrite length_fmap|].
    intros i id Hid. by rewrite list_lookup_fmap, (Hrows _ _ Hid).
  - intros Hbad. destruct (take ys ids) as [r|] eqn:Hr; [|done].
    destruct Hbad. apply take_is_Some. by eexists.
Qed.

(** X7: [nrois] is the length of what [neurons] returns, and of what [x] and
    [y] return when they do; it counts the selected ROIs, with their
    repetitions, and not the ROIs of the plane. *)
Theorem nrois_counts_selection σ ids σ1 :
  neurons σ = (inr ids, σ1) →
  nrois σ = (inr (length ids), σ) ∧
  (∀ r σ2, x σ = (inr r, σ2) → length r = length ids) ∧
  (∀ r σ2, y σ = (inr r, σ2) → length r = length ids).
Proof.
  unfold neurons, nrois, x, y, mbind, M_bind, get_self. cbn.
  destruct (py_getitem (_selected_id (self σ)) _) as [sel|]; cbn; [|done].
  intros [= <- <-]. rewrite length_fmap. split_and!; [done|..].
  - destruct (py_getitem (_x (self σ)) _) as [xs|]; cbn; [|done].
    destruct (take xs sel) as [r0|] eqn:Hr; cbn; [|done].
    intros r σ2 [= <- <-]. rewrite length_fmap.
    by destruct (take_lookup _ _ _ Hr).
  - destruct (py_getitem (_y (self σ)) _) as [ys|]; cbn; [|done].
    destruct (take ys sel) as [r0|] eqn:Hr; cbn; [|done].
    intros r σ2 [= <- <-]. rewrite length_fmap.
    by destruct (take_lookup _ _ _ Hr).
Qed.

(** ** Calls on a plane number that denotes no plane *)

Lemma no_plane_getitem {X} (l : list X) s :
  length l = _nplanes s → current_slot s = None →
  py_getitem l (_plane s) = None.
Proof. unfold current_slot, py_getitem. by intros -> ->. Qed.

Lemma set_neurons_run selection σ k :
  wf (self σ) → current_slot (self σ) = Some k →
  set_neurons selection σ = (inr (), selection_set σ k (ravel selection)).
Proof.
  intros Hwf Hk. unfold current_slot in Hk.
  unfold set_neurons, mbind, M_bind, get_self. cbn.
  unfold py_setitem. by rewrite (wf_selected_id _ Hwf), Hk.
Qed.

Lemma set_neurons_no_plane selection σ :
  wf (self σ) → current_slot (self σ) = None →
  set_neurons selection σ = (inl IndexError, σ).
Proof.
  intros Hwf Hk. unfold current_slot in Hk.
  unfold set_neurons, mbind, M_bind, get_self. cbn.
  unfold py_setitem. by rewrite (wf_selected_id _ Hwf), Hk.
Qed.

Lemma select_with_no_plane_state mask_of msg σ :
  wf (self σ) → current_slot (self σ) = None →
  select_with mask_of msg σ = (inl IndexError, σ).
Proof.
  intros Hwf Hk.
  unfold select_with, mbind, M_bind, get_self. cbn.
  by rewrite (no_plane_getitem _ _ (wf_iscell _ Hwf) Hk).
Qed.

(** The two selectors by threshold, called without a threshold: the
    subscript of the table comes first, then the comparison. *)
Lemma select_neurons_no_threshold name σ :
  name = "iscell_p_larger_than" ∨ name = "iscell_p_smaller_than" →
  select_neurons (PyStr name) None σ
  = (inl (match py_getitem (_iscell (self σ)) (_plane (self σ)) with
          | Some _ => TypeError
          | None => IndexError
          end), σ).
Proof.
  intros [->| ->]; unfold select_neurons;
    cbn [String.eqb Ascii.eqb Bool.eqb];
    unfold mbind, M_bind, get_self, mret, M_ret; cbn;
    by destruct (py_getitem _ _).
Qed.

(** X8: when the current plane number denotes no plane, every method that
    subscripts a per-plane list with it raises [IndexError] and leaves the
    state as it was: the selection getter and setter, [nrois], [x], [y],
    [select_neurons] with a recognized selector, and the two trace
    accessors, which then read no file. *)
Theorem no_plane_IndexError σ :
  wf (self σ) → current_slot (self σ) = None →
  neurons σ = (inl IndexError, σ) ∧ nrois σ = (inl IndexError, σ) ∧
  x σ = (inl IndexError, σ) ∧ y σ = (inl IndexError, σ) ∧
  (∀ selection, set_neurons selection σ = (inl IndexError, σ)) ∧
  (∀ name threshold, recognized name →
     select_neurons (PyStr name) threshold σ = (inl IndexError, σ)) ∧
  (∀ k, accessor random_interval k σ = (inl IndexError, σ)).
Proof.
  intros Hwf Hk.
  pose proof (no_plane_getitem _ _ (wf_selected_id _ Hwf) Hk) as Hsel.
  pose proof (no_plane_getitem _ _ (wf_iscell _ Hwf) Hk) as Htab.
  split_and!.
  - unfold neurons, mbind, M_bind, get_self. cbn. by rewrite Hsel.
  - unfold nrois, mbind, M_bind, get_self. cbn. by rewrite Hsel.
  - unfold x, mbind, M_bind, get_self. cbn. rewrite Hsel.
    by destruct (py_getitem (_x (self σ)) _).
  - unfold y, mbind, M_bind, get_self. cbn. rewrite Hsel.
    by destruct (py_getitem (_y (self σ)) _).
  - intros selection. by apply set_neurons_no_plane.
  - intros name threshold [Hn|[Hn|[Hn|Hn]]]; subst name.
    + rewrite select_neurons_iscell. by apply select_with_no_plane_state.
    + rewrite select_neurons_isnotcell. by apply select_with_no_plane_state.
    + destruct threshold as [t|].
      * rewrite select_neurons_larger. by apply select_with_no_plane_state.
      * rewrite select_neurons_no_threshold by tauto. by rewrite Htab.
    + destruct threshold as [t|].
      * rewrite select_neurons_smaller. by apply select_with_no_plane_state.
      * rewrite select_neurons_no_threshold by tauto. by rewrite Htab.
  - intros k. rewrite accessor_trace_matrix.
    unfold trace_matrix, mbind, M_bind.
    by rewrite (load_trace_no_plane _ _ Hwf Hk).
Qed.

(** X9: the two selectors by threshold, called without a threshold on a
    plane whose classification table has a row, raise [TypeError] (the
    comparison of a float with [None]) and leave the state, and so the
    selection, as it was.  Without a row there is nothing to compare. *)
Theorem missing_threshold_TypeError σ k (t : iscell_table) :
  wf (self σ) → current_slot (self σ) = Some k →
  _iscell (self σ) !! k = Some t → t ≠ [] →
  select_neurons (PyStr "iscell_p_larger_than") None σ = (inl TypeError, σ) ∧
  select_neurons (PyStr "iscell_p_smaller_than") None σ = (inl TypeError, σ).
Proof.
  intros Hwf Hk Ht _. unfold current_slot in Hk.
  rewrite !select_neurons_no_threshold by tauto.
  rewrite (py_getitem_slot _ _ k) by (by rewrite (wf_iscell _ Hwf)).
  by rewrite Ht.
Qed.

(** ** What the calls change *)

(** Runs a getter: it subscripts, and returns or raises. *)
Ltac run_getter :=
  unfold plane, nplanes, neurons, nrois, x, y, shuffletraces, image,
    aspect_ratio, mbind, M_bind, get_self, subscript, mret, M_ret, raise;
  cbn;
  repeat match goal with
         | |- context [match ?o with Some _ => _ | None => _ end] =>
             destruct o; cbn
         end;
  try done.

(** X10: the getters other than the two trace accessors ([plane],
    [nplanes], [image], [aspect_ratio], [neurons], [nrois], [x], [y],
    [shuffletraces]) leave the whole state as it was, whether they return
    or raise. *)
Theorem getters_pure c σ :
  is_getter c = true → (exec random_interval c σ).2 = σ.
Proof.
  destruct c; try done; intros _; cbn [exec]; rewrite then_skip_state;
    run_getter.
Qed.

(** The three ways [select_neurons] can go, whatever the state: it does
    nothing, it runs one of its branches, or it compares with a missing
    threshold. *)
Lemma select_neurons_as selector threshold :
  (∀ σ, select_neurons selector threshold σ = (inr (), σ)) ∨
  (∃ mask_of msg, ∀ σ,
     select_neurons selector threshold σ = select_with mask_of msg σ) ∨
  (threshold = None ∧
   ∃ name, selector = PyStr name ∧
     (name = "iscell_p_larger_than" ∨ name = "iscell_p_smaller_than")).
Proof.
  destruct selector as [name|]; [|by left].
  destruct (decide (name = "iscell")) as [->|H1].
  { right; left. eexists _, _. intros σ. apply select_neurons_iscell. }
  destruct (decide (name = "isnotcell")) as [->|H2].
  { right; left. eexists _, _. intros σ. apply select_neurons_isnotcell. }
  destruct (decide (name = "iscell_p_larger_than")) as [->|H3].
  { destruct threshold as [t|].
    - right; left. eexists _, _. intros σ. apply select_neurons_larger.
    - right; right. split; [done|]. eexists. split; [done|]. by left. }
  destruct (decide (name = "iscell_p_smaller_than")) as [->|H4].
  { destruct threshold as [t|].
    - right; left. eexists _, _. intros σ. apply select_neurons_smaller.
    - right; right. split; [done|]. eexists. split; [done|]. by right. }
  left. intros σ. unfold select_neurons.
  apply String.eqb_neq in H1, H2, H3, H4. by rewrite H1, H2, H3, H4.
Qed.

Lemma select_result_wf σ k ids msg :
  wf (self σ) → wf (self (select_result σ k ids msg)).
Proof. intros []. split; cbn; rewrite ?length_insert; done. Qed.

Lemma select_neurons_effect selector threshold σ :
  wf (self σ) →
  effect (SelectNeurons selector threshold) σ
    (select_neurons selector threshold σ).2.
Proof.
  intros Hwf. cbn.
  destruct (select_neurons_as selector threshold)
    as [Hid|[(mask_of & msg & Hsel)|(-> & name & -> & Hname)]].
  - left. by rewrite Hid.
  - rewrite Hsel. destruct (current_slot (self σ)) as [k|] eqn:Hk.
    + destruct (current_table _ _ Hwf Hk) as [t Ht].
      rewrite (select_with_ok _ _ _ _ _ Hwf Hk Ht). right. by eexists _, _, _.
    + left. by rewrite select_with_no_plane_state.
  - left. by rewrite select_neurons_no_threshold.
Qed.

(** What the cache-and-copy steps of an accessor leave behind. *)
Lemma metadata_with_cache k v s : metadata (with_cache k v s) = metadata s.
Proof. by destruct k. Qed.

Lemma gather_effect k σ0 σ j c :
  wf (self σ0) → current_slot (self σ0) = Some j →
  cache k (self σ0) !! j = Some (Some c) →
  let σ' := (gather_trace random_interval k σ0).2 in
  self σ' = self σ0 ∧ files σ' = files σ0 ∧
  (∀ l, l ∈ dom (heap σ0) → heap σ' !! l = heap σ0 !! l) ∧
  (is_True (_shuffletraces (self σ0)) = false → rng σ' = rng σ0).
Proof.
  intros Hwf Hj Hc.
  destruct (current_selection _ _ Hwf Hj) as [ids Hids].
  assert (∀ e, gather_trace random_interval k σ0 = (inl e, σ0) →
            let σ' := (gather_trace random_interval k σ0).2 in
            self σ' = self σ0 ∧ files σ' = files σ0 ∧
            (∀ l, l ∈ dom (heap σ0) → heap σ' !! l = heap σ0 !! l) ∧
            (is_True (_shuffletraces (self σ0)) = false → rng σ' = rng σ0))
    as Hfail by (by intros e ->).
  destruct (heap σ0 !! c) as [m|] eqn:Hm.
  - destruct (take_rows m ids) as [g|] eqn:Hg.
    + destruct (gather_trace_run random_interval k σ0 j c m ids g)
        as (r & σ' & -> & _ & _ & Hheap & Hself & _ & Hfiles & Hrng & _);
        try done.
      cbn. split_and!; try done. intros Hsh. by rewrite Hsh in Hrng.
    + destruct (gather_trace_fails random_interval k σ0 j c ids)
        as [e He]; try done; [|by eapply Hfail].
      right. by exists m.
  - destruct (gather_trace_fails random_interval k σ0 j c ids)
      as [e He]; try done; [|by eapply Hfail].
    by left.
Qed.

Lemma accessor_effect_run k σ :
  wf (self σ) → accessor_effect k σ (accessor random_interval k σ).2.
Proof.
  intros Hwf. rewrite accessor_trace_matrix.
  unfold trace_matrix, mbind, M_bind.
  destruct (current_slot (self σ)) as [j|] eqn:Hj.
  2: { rewrite (load_trace_no_plane _ _ Hwf Hj). cbn.
       split_and!; try done. by left. }
  destruct (cache k (self σ) !! j) as [[c|]|] eqn:Hc.
  - rewrite (load_trace_hit _ _ _ _ Hwf Hj Hc).
    destruct (gather_effect k σ σ j c Hwf Hj Hc) as (Hs & Hf & Hh & Hr).
    split_and!; try done. by left.
  - destruct (lookup_lt_is_Some_2 (_plane_paths (self σ)) j) as [p Hp].
    { rewrite (wf_plane_paths _ Hwf). apply (py_index_lt _ _ _ Hj). }
    rewrite (load_trace_miss _ _ _ _ Hwf Hj Hc Hp).
    destruct (trace_files _ _) as [m|] eqn:Hfile.
    2: { cbn. split_and!; try done. by left. }
    assert (trace_source k σ j m) as Hsrc.
    { right. split; [done|]. by exists p. }
    destruct (load_trace_run k σ j m Hwf Hj Hsrc)
      as (σ0 & c & Hload & Hwf0 & Hj0 & Hc0 & Hm0 & Hsel & Hsh & Hrng
          & Hfiles & Hheap & Hdom & _).
    rewrite (load_trace_miss _ _ _ _ Hwf Hj Hc Hp), Hfile in Hload.
    injection Hload as Hload. rewrite Hload.
    destruct (gather_effect k σ0 σ j c Hwf0 Hj0 Hc0) as (Hs & Hf & Hh & Hr).
    split_and!.
    + right. exists j. split_and!; try done. rewrite Hs. by rewrite <- Hload.
    + congruence.
    + intros l Hl. rewrite Hh, Hheap; [done..|]. by apply Hdom.
    + intros Hfalse. rewrite Hr; [done|]. by rewrite Hsh.
  - apply lookup_ge_None in Hc. apply py_index_lt in Hj.
    rewrite (wf_cache _ _ Hwf) in Hc. lia.
Qed.

(** Every call has the effect that [effect] describes. *)
Lemma exec_effect c σ :
  wf (self σ) → effect c σ (exec random_interval c σ).2.
Proof.
  intros Hwf.
  destruct c; cbn [exec effect]; rewrite ?then_skip_state;
    try (by run_getter).
  - by apply (accessor_effect_run Spikes).
  - by apply (accessor_effect_run Fluorescence).
  - destruct (current_slot (self σ)) as [k|] eqn:Hk.
    + rewrite (set_neurons_run _ _ _ Hwf Hk). right. by exists k.
    + rewrite (set_neurons_no_plane _ _ Hwf Hk). by left.
  - by apply select_neurons_effect.
Qed.

Lemma kept_refl σ : wf (self σ) → kept σ σ.
Proof. intros Hwf. unfold kept. by split_and!. Qed.

Lemma kept_trans σ1 σ2 σ3 : kept σ1 σ2 → kept σ2 σ3 → kept σ1 σ3.
Proof.
  intros (Hwf2 & Hm2 & Hf2 & Hh2 & Hc2) (Hwf3 & Hm3 & Hf3 & Hh3 & Hc3).
  split_and!; [done|congruence|congruence|..].
  - intros l Hl. rewrite Hh3, Hh2; [done..|].
    apply elem_of_dom. rewrite Hh2 by done. by apply elem_of_dom.
  - intros k j c Hc. by apply Hc3, Hc2.
Qed.

Lemma effect_kept c σ σ' : wf (self σ) → effect c σ σ' → kept σ σ'.
Proof.
  intros Hwf Heff.
  assert (∀ k, accessor_effect k σ σ' → kept σ σ') as Hacc.
  { intros k ([Hs|(j & Hj & Hc & Hs)] & Hf & Hh & _).
    - unfold kept. rewrite Hs. by split_and!.
    - assert (j < length (cache k (self σ)))%nat as Hlt
        by (by apply lookup_lt_Some in Hc).
      unfold kept. rewrite Hs. split_and!; try done.
      + apply with_cache_wf; [done|].
        by rewrite length_insert, (wf_cache _ _ Hwf).
      + apply metadata_with_cache.
      + intros k' j' c' Hc'. destruct (decide (k' = k)) as [->|Hk].
        * rewrite cache_with_cache, list_lookup_insert_ne; [done|].
          intros ->. rewrite Hc in Hc'. done.
        * by rewrite cache_with_cache_ne. }
  destruct c; cbn in Heff; try (subst σ'; by apply kept_refl);
    try (by eapply Hacc).
  - subst σ'. destruct Hwf. by split_and!.
  - destruct Heff as [->|(k & Hk & ->)]; [by apply kept_refl|].
    destruct Hwf. split_and!; try done.
    split; cbn; rewrite ?length_insert; done.
  - destruct Heff as [->|(k & ids & msg & Hk & ->)]; [by apply kept_refl|].
    split_and!; try done. by apply select_result_wf.
  - subst σ'. destruct Hwf. by split_and!.
Qed.

Lemma exec_kept c σ : wf (self σ) → kept σ (exec random_interval c σ).2.
Proof. intros Hwf. by eapply effect_kept, exec_effect. Qed.

Lemma run_kept cs σ : wf (self σ) → kept σ (run random_interval cs σ).
Proof.
  revert σ. induction cs as [|c cs IH]; intros σ Hwf; cbn.
  - by apply kept_refl.
  - pose proof (exec_kept c σ Hwf) as Hc.
    eapply kept_trans; [exact Hc|]. apply IH, Hc.
Qed.

Lemma with_cache_fields k v s :
  _plane (with_cache k v s) = _plane s ∧
  _nplanes (with_cache k v s) = _nplanes s ∧
  _shuffletraces (with_cache k v s) = _shuffletraces s ∧
  _selected_id (with_cache k v s) = _selected_id s.
Proof. by destruct k. Qed.

(** What a call leaves alone, by the kind of the call. *)
Lemma effect_frame c σ σ' :
  effect c σ σ' →
  (sets_plane c = false → _plane (self σ') = _plane (self σ)) ∧
  (sets_shuffletraces c = false →
   _shuffletraces (self σ') = _shuffletraces (self σ)) ∧
  (sets_selection c = false →
   _selected_id (self σ') = _selected_id (self σ)) ∧
  (∀ k (j : nat), current_slot (self σ) = Some k → j ≠ k →
     _selected_id (self σ') !! j = _selected_id (self σ) !! j) ∧
  (∀ k, reads_trace k c = false → cache k (self σ') = cache k (self σ)) ∧
  (is_True (_shuffletraces (self σ)) = false → rng σ' = rng σ) ∧
  _nplanes (self σ') = _nplanes (self σ).
Proof.
  intros Heff.
  assert (∀ k0, accessor_effect k0 σ σ' →
            _plane (self σ') = _plane (self σ) ∧
            _shuffletraces (self σ') = _shuffletraces (self σ) ∧
            _selected_id (self σ') = _selected_id (self σ) ∧
            (∀ k, k ≠ k0 → cache k (self σ') = cache k (self σ)) ∧
            (is_True (_shuffletraces (self σ)) = false → rng σ' = rng σ) ∧
            _nplanes (self σ') = _nplanes (self σ)) as Hacc.
  { intros k0 ([Hs|(j & Hj & Hc & Hs)] & _ & _ & Hr); rewrite Hs.
    - by split_and!.
    - destruct (with_cache_fields k0
                  (<[j:=Some (fresh (dom (heap σ)))]> (cache k0 (self σ)))
                  (self σ)) as (-> & -> & -> & ->).
      split_and!; try done. intros k Hk. by apply cache_with_cache_ne. }
  destruct c; cbn in Heff; try (subst σ'; by split_and!).
  - destruct (Hacc _ Heff) as (H1 & H2 & H3 & H4 & H5 & H6).
    split_and!; try done.
    + intros k j _ _. by rewrite H3.
    + intros [] Hk; [done|]. by apply H4.
  - destruct (Hacc _ Heff) as (H1 & H2 & H3 & H4 & H5 & H6).
    split_and!; try done.
    + intros k j _ _. by rewrite H3.
    + intros [] Hk; [|done]. by apply H4.
  - destruct Heff as [->|(k & Hk & ->)]; [by split_and!|].
    split_and!; try done. intros k' j Hk' Hj. cbn.
    rewrite list_lookup_insert_ne; [done|]. congruence.
  - destruct Heff as [->|(k & ids & msg & Hk & ->)]; [by split_and!|].
    split_and!; try done. intros k' j Hk' Hj. cbn.
    rewrite list_lookup_insert_ne; [done|]. congruence.
Qed.

(** ** What no sequence of calls changes *)

Lemma run_cons c cs σ :
  run random_interval (c :: cs) σ
  = run random_interval cs (exec random_interval c σ).2.
Proof. reflexivity. Qed.

(** X11: the attributes that [__init__] sets ([_datapath], [_s2proot],
    [_plane_paths], [_nplanes], [_ops], [_roiinfo], [_nrois_total],
    [_iscell], [_x], [_y]) are the same after any sequence of calls, also
    of calls that raise, and the object stays well formed. *)
Theorem metadata_immutable cs σ :
  wf (self σ) →
  metadata (self (run random_interval cs σ)) = metadata (self σ) ∧
  files (run random_interval cs σ) = files σ ∧
  wf (self (run random_interval cs σ)).
Proof.
  intros Hwf. by destruct (run_kept cs σ Hwf) as (? & ? & ? & _).
Qed.

(** X12: no sequence of calls changes or removes an array that is on the
    heap: a matrix that an accessor has returned, and the matrices in the
    caches, keep their contents, whatever is called later (the shuffling
    works on the new copy only). *)
Theorem heap_arrays_kept cs σ l m :
  wf (self σ) → heap σ !! l = Some m →
  heap (run random_interval cs σ) !! l = Some m.
Proof.
  intros Hwf Hl. destruct (run_kept cs σ Hwf) as (_ & _ & _ & Hheap & _).
  rewrite Hheap; [done|]. apply elem_of_dom. by eexists.
Qed.

(** X13: a cache slot that is populated stays populated, with the same
    array, through any sequence of calls: nothing reloads, replaces or
    clears it. *)
Theorem cache_slot_kept cs σ k (j : nat) c :
  wf (self σ) → cache k (self σ) !! j = Some (Some c) →
  cache k (self (run random_interval cs σ)) !! j = Some (Some c) ∧
  cached k (self (run random_interval cs σ)) j = 1%nat.
Proof.
  intros Hwf Hc. destruct (run_kept cs σ Hwf) as (_ & _ & _ & _ & Hcache).
  unfold cached. by rewrite (Hcache _ _ _ Hc).
Qed.

(** X14: as long as [shuffletraces] is not set to [True], no call draws
    from the random generator. *)
Theorem no_shuffle_no_draw cs σ :
  wf (self σ) → is_True (_shuffletraces (self σ)) = false →
  Forall (λ c, c ≠ SetShuffletraces (PyBool true)) cs →
  rng (run random_interval cs σ) = rng σ ∧
  is_True (_shuffletraces (self (run random_interval cs σ))) = false.
Proof.
  revert σ. induction cs as [|c cs IH]; intros σ Hwf Hsh Hcs; [done|].
  apply Forall_cons in Hcs as [Hc Hcs]. rewrite run_cons.
  pose proof (exec_effect c σ Hwf) as Heff.
  destruct (exec_kept c σ Hwf) as (Hwf' & _).
  destruct (effect_frame _ _ _ Heff) as (_ & Hflag & _ & _ & _ & Hrng & _).
  assert (is_True (_shuffletraces (self (exec random_interval c σ).2))
          = false) as Hsh'.
  { destruct (sets_shuffletraces c) eqn:Hset.
    - destruct c; try done. cbn [effect exec] in Heff |- *. rewrite Heff.
      cbn. destruct shuffle_setting as [[]|]; done.
    - by rewrite Hflag. }
  destruct (IH _ Hwf' Hsh' Hcs) as [-> ->]. by rewrite Hrng.
Qed.

(** X15: in a sequence of calls that does not set the plane, the current
    plane stays, and the selections of all other planes stay as they were:
    the selection setter and [select_neurons] write the selection of the
    current plane only. *)
Theorem other_planes_selection_kept cs σ k :
  wf (self σ) → current_slot (self σ) = Some k →
  Forall (λ c, sets_plane c = false) cs →
  _plane (self (run random_interval cs σ)) = _plane (self σ) ∧
  ∀ j : nat, j ≠ k →
    _selected_id (self (run random_interval cs σ)) !! j
    = _selected_id (self σ) !! j.
Proof.
  revert σ. induction cs as [|c cs IH]; intros σ Hwf Hk Hcs; [done|].
  apply Forall_cons in Hcs as [Hc Hcs]. rewrite run_cons.
  pose proof (exec_effect c σ Hwf) as Heff.
  destruct (exec_kept c σ Hwf) as (Hwf' & _).
  destruct (effect_frame _ _ _ Heff) as (Hplane & _ & _ & Hsel & _ & _ & Hn).
  assert (current_slot (self (exec random_interval c σ).2) = Some k) as Hk'.
  { unfold current_slot. by rewrite Hn, Hplane. }
  destruct (IH _ Hwf' Hk' Hcs) as [-> Hrest]. split; [by apply Hplane|].
  intros j Hj. rewrite Hrest by done. by eapply Hsel.
Qed.

(** X16: the selections change only through the selection setter and
    [select_neurons]: a sequence of other calls (plane changes, shuffle
    settings, getters, trace accessors) leaves the selection of every plane
    as it was. *)
Theorem selection_only_by_setters cs σ :
  wf (self σ) → Forall (λ c, sets_selection c = false) cs →
  _selected_id (self (run random_interval cs σ)) = _selected_id (self σ).
Proof.
  revert σ. induction cs as [|c cs IH]; intros σ Hwf Hcs; [done|].
  apply Forall_cons in Hcs as [Hc Hcs]. rewrite run_cons.
  pose proof (exec_effect c σ Hwf) as Heff.
  destruct (exec_kept c σ Hwf) as (Hwf' & _).
  destruct (effect_frame _ _ _ Heff) as (_ & _ & Hsel & _).
  rewrite (IH _ Hwf' Hcs). by apply Hsel.
Qed.

(** X17: the two caches are independent: the cache of the spike matrices
    changes only in calls of [spikes], and the cache of the fluorescence
    matrices only in calls of [F]. *)
Theorem cache_only_by_its_accessor cs σ k :
  wf (self σ) → Forall (λ c, reads_trace k c = false) cs →
  cache k (self (run random_interval cs σ)) = cache k (self σ).
Proof.
  revert σ. induction cs as [|c cs IH]; intros σ Hwf Hcs; [done|].
  apply Forall_cons in Hcs as [Hc Hcs]. rewrite run_cons.
  pose proof (exec_effect c σ Hwf) as Heff.
  destruct (exec_kept c σ Hwf) as (Hwf' & _).
  destruct (effect_frame _ _ _ Heff) as (_ & _ & _ & _ & Hcache & _).
  rewrite (IH _ Hwf' Hcs). by apply Hcache.
Qed.

(** ** Selection by policy, again *)

(** X18: [select_neurons] does not look at the selection it replaces:
    calling it a second time with the same arguments gives the same
    outcome and leaves the object as the first call left it. *)
Theorem select_neurons_idempotent selector threshold σ :
  wf (self σ) →
  let σ1 := (select_neurons selector threshold σ).2 in
  (select_neurons selector threshold σ1).1
  = (select_neurons selector threshold σ).1 ∧
  self (select_neurons selector threshold σ1).2 = self σ1.
Proof.
  intros Hwf.
  destruct (select_neurons_as selector threshold)
    as [Hid|[(mask_of & msg & Hsel)|(-> & name & -> & Hname)]]; cbn zeta.
  - by rewrite !Hid.
  - rewrite !Hsel. destruct (current_slot (self σ)) as [k|] eqn:Hk.
    + destruct (current_table _ _ Hwf Hk) as [t Ht].
      rewrite (select_with_ok _ _ _ _ _ Hwf Hk Ht). cbn [snd fst].
      erewrite select_with_ok;
        [|by apply select_result_wf|exact Hk|exact Ht].
      split; [done|]. cbn. by rewrite list_insert_insert_eq.
    + rewrite (select_with_no_plane_state _ _ σ Hwf Hk). cbn [snd fst].
      by rewrite (select_with_no_plane_state _ _ σ Hwf Hk).
  - rewrite (select_neurons_no_threshold name σ Hname). cbn [snd fst].
    by rewrite (select_neurons_no_threshold name σ Hname).
Qed.

Lemma float_ltb_asym (a b : float) :
  PrimFloat.ltb a b = true → PrimFloat.ltb b a = false.
Proof.
  rewrite (FloatAxioms.ltb_spec a b), (FloatAxioms.ltb_spec b a).
  unfold SFltb.
  destruct (Prim2SF a) as [[]|[]| |[] m e], (Prim2SF b) as [[]|[]| |[] m' e'];
    cbn; try done.
  all: destruct (Z.compare_spec e e'), (Z.compare_spec e' e); try lia;
    try done.
  all: subst; rewrite ?Pos.compare_cont_spec;
    destruct (Pos.compare_spec m m'), (Pos.compare_spec m' m);
    cbn; try lia; try done.
Qed.

(** X19: for one threshold, the selections of ["iscell_p_larger_than"] and
    of ["iscell_p_smaller_than"] on the same plane have no ROI in
    common. *)
Theorem larger_smaller_disjoint σ k (thr : float) σa σb above below :
  wf (self σ) → current_slot (self σ) = Some k →
  select_neurons (PyStr "iscell_p_larger_than") (Some thr) σ = (inr (), σa) →
  select_neurons (PyStr "iscell_p_smaller_than") (Some thr) σ = (inr (), σb) →
  _selected_id (self σa) !! k = Some above →
  _selected_id (self σb) !! k = Some below →
  ∀ i, i ∈ above → i ∉ below.
Proof.
  intros Hwf Hk. destruct (current_table _ _ Hwf Hk) as [t Ht].
  assert (k < length (_selected_id (self σ)))%nat as Hlt.
  { rewrite (wf_selected_id _ Hwf). apply (py_index_lt _ _ _ Hk). }
  rewrite select_neurons_larger, select_neurons_smaller.
  rewrite !(select_with_ok _ _ _ _ _ Hwf Hk Ht).
  intros [= <-] [= <-]. cbn. rewrite !list_lookup_insert_eq by done.
  intros [= <-] [= <-] i.
  intros (n & r & -> & Hr & Hgt)%elem_of_selected
    (n' & r' & Hn & Hr' & Hlt')%elem_of_selected.
  apply Nat2Z.inj in Hn as <-. rewrite Hr in Hr'. injection Hr' as <-.
  apply float_ltb_asym in Hgt. congruence.
Qed.

(** ** Plane numbers from the back *)

Lemma py_index_neg n i :
  0 ≤ i < Z.of_nat n →
  py_index n (i - Z.of_nat n) = Some (Z.to_nat i) ∧
  py_index n i = Some (Z.to_nat i).
Proof.
  intros Hi. unfold py_index.
  rewrite (bool_decide_false (0 ≤ i - Z.of_nat n < Z.of_nat n)) by lia.
  rewrite (bool_decide_true (- Z.of_nat n ≤ i - Z.of_nat n < 0)) by lia.
  rewrite (bool_decide_true (0 ≤ i < Z.of_nat n)) by lia.
  split; [|done]. f_equal. lia.
Qed.

Lemma same_selection_read (σa σb : State A G) :
  py_getitem (_selected_id (self σb)) (_plane (self σb))
  = py_getitem (_selected_id (self σa)) (_plane (self σa)) →
  (neurons σb).1 = (neurons σa).1 ∧ (nrois σb).1 = (nrois σa).1.
Proof.
  intros Hsel. unfold neurons, nrois, mbind, M_bind, get_self. cbn.
  rewrite Hsel.
  split; by destruct (py_getitem (_selected_id (self σa)) (_plane (self σa))).
Qed.

Lemma with_plane_wf i s : wf s → wf (with_plane i s).
Proof. by intros []. Qed.

(** X20: a negative plane number counts from the back, as Python
    subscripts do: with [n] planes, the plane numbers [i - n] and [i]
    denote the same plane; [neurons] and [nrois] return the same for both,
    and the selection setter writes the same selection. *)
Theorem negative_plane_alias i σ :
  wf (self σ) → 0 ≤ i < Z.of_nat (_nplanes (self σ)) →
  let σa := (set_plane i σ).2 in
  let σb := (set_plane (i - Z.of_nat (_nplanes (self σ))) σ).2 in
  current_slot (self σa) = Some (Z.to_nat i) ∧
  current_slot (self σb) = Some (Z.to_nat i) ∧
  (neurons σb).1 = (neurons σa).1 ∧ (nrois σb).1 = (nrois σa).1 ∧
  ∀ selection,
    _selected_id (self (set_neurons selection σb).2)
    = _selected_id (self (set_neurons selection σa).2).
Proof.
  intros Hwf Hi σa σb.
  destruct (py_index_neg _ _ Hi) as [Hneg Hpos].
  assert (py_getitem (_selected_id (self σ))
            (i - Z.of_nat (_nplanes (self σ)))
          = py_getitem (_selected_id (self σ)) i) as Hsel.
  { unfold py_getitem. by rewrite (wf_selected_id _ Hwf), Hneg, Hpos. }
  assert (wf (self σa)) as Hwfa by (by apply with_plane_wf).
  assert (wf (self σb)) as Hwfb by (by apply with_plane_wf).
  assert (current_slot (self σa) = Some (Z.to_nat i)) as Ha by done.
  assert (current_slot (self σb) = Some (Z.to_nat i)) as Hb by done.
  split_and!; [done..| | |].
  - by apply same_selection_read.
  - by apply same_selection_read.
  - intros selection.
    by rewrite (set_neurons_run _ _ _ Hwfa Ha), (set_neurons_run _ _ _ Hwfb Hb).
Qed.

(** ** When an accessor raises *)

(** X21: when the trace file of the current plane cannot be read, the
    accessor raises the error of [np.load], after the message about the
    load; the cache slot stays empty and nothing else changes, so that the
    next call reads the file again. *)
Theorem failed_load_retried k σ j p :
  wf (self σ) → current_slot (self σ) = Some j →
  cache k (self σ) !! j = Some None → _plane_paths (self σ) !! j = Some p →
  trace_files (files σ) (os_path_join p (trace_file k)) = None →
  let f := os_path_join p (trace_file k) in
  let σ1 := failed_load_state k σ f in
  accessor random_interval k σ = (inl (IOError f), σ1) ∧
  self σ1 = self σ ∧ heap σ1 = heap σ ∧
  accessor random_interval k σ1 = (inl (IOError f), failed_load_state k σ1 f) ∧
  np_loads (failed_load_state k σ1 f) = np_loads σ ++ [(f, false); (f, false)].
Proof.
  intros Hwf Hj Hc Hp Hfile f σ1. split_and!; try done.
  - rewrite accessor_trace_matrix. unfold trace_matrix, mbind, M_bind.
    by rewrite (load_trace_miss _ _ _ _ Hwf Hj Hc Hp), Hfile.
  - rewrite accessor_trace_matrix. unfold trace_matrix, mbind, M_bind.
    rewrite (load_trace_miss k σ1 j p Hwf Hj Hc Hp).
    change (files σ1) with (files σ). by rewrite Hfile.
  - cbn. by rewrite <- app_assoc.
Qed.

Lemma trace_source_inj k σ j m m' :
  trace_source k σ j m → trace_source k σ j m' → m = m'.
Proof.
  intros [(c & Hc & Hm)|(Hc & p & Hp & Hf)]
         [(c' & Hc' & Hm')|(Hc' & p' & Hp' & Hf')]; congruence.
Qed.

(** X22: on a valid plane whose trace matrix is cached or can be loaded,
    and for a selection whose ids fit the index type of numpy (int64), an
    accessor returns exactly when every selected id is a row index of the
    matrix (from the front or, when negative, from the back). *)
Theorem accessor_returns_iff_valid k σ j m ids :
  wf (self σ) → current_slot (self σ) = Some j → trace_source k σ j m →
  _selected_id (self σ) !! j = Some ids → Forall np_int_range ids →
  (∃ r σ1, accessor random_interval k σ = (inr r, σ1)) ↔ valid_ids m ids.
Proof.
  intros Hwf Hj Hsrc Hids _. split.
  - intros (r & σ1 & Hret).
    destruct (accessor_returns random_interval k σ r σ1 Hwf Hret)
      as (j' & m' & ids' & g & Hj' & Hsrc' & Hids' & Hg).
    assert (j' = j) as -> by congruence.
    assert (ids' = ids) as -> by congruence.
    rewrite (trace_source_inj _ _ _ _ _ Hsrc Hsrc'). by eapply take_rows_valid.
  - intros [g Hg]%take_rows_is_Some.
    destruct (accessor_run random_interval k σ j m ids g Hwf Hj Hsrc Hids Hg)
      as (σ0 & c & _ & _ & _ & _ & _ & _ & _ & _ & _ & Hpost).
    destruct Hpost as (r & σ1 & Hret & _). by eauto.
Qed.

Lemma gather_trace_bad_ids k σ j c m ids :
  wf (self σ) → current_slot (self σ) = Some j →
  cache k (self σ) !! j = Some (Some c) → heap σ !! c = Some m →
  _selected_id (self σ) !! j = Some ids → take_rows m ids = None →
  gather_trace random_interval k σ = (inl IndexError, σ).
Proof.
  intros Hwf Hj Hc Hm Hids Hg. unfold current_slot in Hj.
  unfold gather_trace, mbind, M_bind, get_self. cbn.
  unfold py_getitem at 1. rewrite (wf_cache _ _ Hwf), Hj. cbn. rewrite Hc. cbn.
  unfold py_getitem at 1. rewrite (wf_selected_id _ Hwf), Hj. cbn.
  rewrite Hids. cbn. unfold np_take_rows, mbind, M_bind, deref.
  rewrite Hm. cbn. by rewrite Hg.
Qed.

(** X23: the selection setter accepts any ids; a selected id that fits the
    index type of numpy (int64) and is no row index of the trace matrix
    shows only when an accessor indexes the matrix, as an [IndexError].
    With the matrix in the cache the state stays as it was; on a cache miss
    the file has been loaded by then, and the matrix stays in the
    cache. *)
Theorem bad_ids_IndexError k σ j m ids :
  wf (self σ) → current_slot (self σ) = Some j → trace_source k σ j m →
  _selected_id (self σ) !! j = Some ids → Forall np_int_range ids →
  ¬ valid_ids m ids →
  (∀ c, cache k (self σ) !! j = Some (Some c) →
     accessor random_interval k σ = (inl IndexError, σ)) ∧
  (∀ p, cache k (self σ) !! j = Some None →
     _plane_paths (self σ) !! j = Some p →
     accessor random_interval k σ
     = (inl IndexError,
        loaded_state k σ j (os_path_join p (trace_file k)) m)).
Proof.
  intros Hwf Hj Hsrc Hids _ Hbad.
  assert (take_rows m ids = None) as Hg.
  { destruct (take_rows m ids) as [g|] eqn:Hg; [|done].
    destruct Hbad. by eapply take_rows_valid. }
  split.
  - intros c Hc. rewrite accessor_trace_matrix.
    unfold trace_matrix, mbind, M_bind.
    rewrite (load_trace_hit _ _ _ _ Hwf Hj Hc).
    destruct Hsrc as [(c' & Hc' & Hm)|[Hc' _]]; [|congruence].
    assert (c' = c) as -> by congruence.
    by apply (gather_trace_bad_ids k σ j c m ids).
  - intros p Hc Hp. rewrite accessor_trace_matrix.
    unfold trace_matrix, mbind, M_bind.
    destruct (load_trace_run k σ j m Hwf Hj Hsrc)
      as (σ0 & c & Hload & Hwf0 & Hj0 & Hc0 & Hm0 & Hsel & _).
    rewrite Hload.
    rewrite (load_trace_miss _ _ _ _ Hwf Hj Hc Hp) in Hload.
    destruct Hsrc as [(c' & Hc' & _)|(_ & p' & Hp' & Hfile)]; [congruence|].
    assert (p' = p) as -> by congruence.
    rewrite Hfile in Hload. injection Hload as Hload. rewrite Hload.
    apply (gather_trace_bad_ids k σ0 j c m ids); try done.
    by rewrite Hsel.
Qed.

(** ** Traces with at most one time point *)

Lemma shuffle_rows_short g (rs : list (list A)) :
  Forall (λ r, (length r ≤ 1)%nat) rs →
  shuffle_rows random_interval g rs = (g, rs).
Proof.
  induction 1 as [|r rs Hr _ IH]; [done|]. cbn.
  unfold shuffle_raw.
  replace (length r - 1)%nat with 0%nat by lia. cbn. by rewrite IH.
Qed.

(** X24: [np.random.shuffle] has nothing to swap in a row with at most one
    element: on a trace matrix with at most one time point per row, an
    accessor returns the selected rows as they are and draws nothing from
    the generator, also when [shuffletraces] is [True]. *)
Theorem short_rows_not_shuffled k σ j m ids :
  wf (self σ) → current_slot (self σ) = Some j → trace_source k σ j m →
  _selected_id (self σ) !! j = Some ids → valid_ids m ids →
  Forall (λ r, (length r ≤ 1)%nat) (rows m) →
  ∃ r σ1 g,
    accessor random_interval k σ = (inr r, σ1) ∧
    take_rows m ids = Some g ∧ heap σ1 !! r = Some g ∧ rng σ1 = rng σ.
Proof.
  intros Hwf Hj Hsrc Hids [g Hg]%take_rows_is_Some Hshort.
  destruct (accessor_run random_interval k σ j m ids g Hwf Hj Hsrc Hids Hg)
    as (σ0 & c & _ & _ & _ & _ & Hsh & Hrng & _ & _ & _ & Hpost).
  destruct Hpost as (r & σ1 & Hret & _ & Hr & _ & _ & _ & _ & Hrng1 & _).
  assert (Forall (λ r, (length r ≤ 1)%nat) (rows g)) as Hshort'.
  { destruct (take_rows_spec _ _ _ Hg) as (_ & Hlen & Hrows).
    apply Forall_lookup. intros i row Hrow.
    destruct (lookup_lt_is_Some_2 ids i) as [id Hid].
    { rewrite <- Hlen. by apply lookup_lt_Some in Hrow. }
    rewrite (Hrows _ _ Hid) in Hrow. unfold py_getitem in Hrow.
    destruct (py_index _ id) as [n|]; [|done]. cbn in Hrow.
    exact (Forall_lookup_1 _ _ _ _ Hshort Hrow). }
  exists r, σ1, g. split_and!; try done.
  - rewrite Hr. unfold returned_matrix.
    destruct (is_True _); [|done].
    rewrite shuffle_rows_short by done. by destruct g.
  - rewrite Hrng1, <- Hrng. destruct (is_True _); [|done].
    by rewrite shuffle_rows_short.
Qed.

(** ** The selection setter *)

(** X25: on a valid plane, the selection setter stores any integer array,
    one- or two-dimensional, flattened and without a check of the ids;
    afterwards [neurons] returns the flattened ids (as [np.int]) and [nrois]
    their number, and the selections of the other planes are as before. *)
Theorem selection_round_trip selection σ k :
  wf (self σ) → current_slot (self σ) = Some k →
  let σ1 := (set_neurons selection σ).2 in
  set_neurons selection σ = (inr (), σ1) ∧
  neurons σ1 = (inr (np_int <$> ravel selection), σ1) ∧
  nrois σ1 = (inr (length (ravel selection)), σ1) ∧
  ∀ j : nat, j ≠ k →
    _selected_id (self σ1) !! j = _selected_id (self σ) !! j.
Proof.
  intros Hwf Hk. rewrite (set_neurons_run _ _ _ Hwf Hk). cbn zeta.
  assert (py_getitem (<[k:=ravel selection]> (_selected_id (self σ)))
            (_plane (self σ)) = Some (ravel selection)) as Hget.
  { unfold current_slot in Hk. unfold py_getitem.
    rewrite length_insert, (wf_selected_id _ Hwf), Hk. cbn.
    apply list_lookup_insert_eq.
    rewrite (wf_selected_id _ Hwf). apply (py_index_lt _ _ _ Hk). }
  split_and!; [done| | |].
  - unfold neurons, mbind, M_bind, get_self. cbn. by rewrite Hget.
  - unfold nrois, mbind, M_bind, get_self. cbn. by rewrite Hget.
  - intros j Hj. cbn. by rewrite list_lookup_insert_ne.
Qed.

(** ** The classification tables and the ROIs *)

(** X26: when [iscell.npy] has one row per ROI of [stat.npy] in every plane
    folder, the object that [__init__] builds has a classification table
    with one row per ROI for every plane, and it keeps that through any
    sequence of calls. *)
Theorem rows_match_invariant datapath σ σ1 cs :
  plain_path datapath → plain_folders (files σ) datapath →
  __init__ datapath σ = (inr (), σ1) → tables_match (files σ) datapath →
  iscell_rows_match (self σ1) ∧
  iscell_rows_match (self (run random_interval cs σ1)).
Proof.
  intros _ _ Hinit Hmatch.
  assert (iscell_rows_match (self σ1)) as Hrows.
  { destruct (init_inr _ _ _ Hinit)
      as (ops & info & _ & H1 & H2 & H3 & _ & ->).
    intros k t n. cbn. rewrite H2, list_lookup_fmap. intros Ht Hn.
    destruct (info.1.1 !! k) as [stat|] eqn:Hstat; [|done].
    injection Hn as <-.
    destruct (Forall2_lookup_r _ _ _ _ _ H1 Hstat) as (p & Hp & Hfile).
    destruct (Forall2_lookup_l _ _ _ _ _ H3 Hp) as (t' & Ht' & Hfile').
    unfold iscell_table in *. assert (t' = t) as -> by congruence.
    exact (Forall_lookup_1 _ _ _ _ Hmatch Hp stat t Hfile Hfile'). }
  split; [done|].
  destruct (init_wf _ _ _ Hinit) as (Hwf & _).
  destruct (run_kept cs σ1 Hwf) as (_ & Hmeta & _).
  unfold metadata in Hmeta. injection Hmeta as _ _ _ _ _ _ Hn Hi _ _.
  unfold iscell_rows_match. by rewrite Hn, Hi.
Qed.

End more_properties.

(** * The properties on the small data set *)

Import Example.

(** The scenario of the specification: plane 0 has the flags [1, 0, 1];
    ["iscell"] selects the ROIs 0 and 2, and the count and the positions
    follow the selection. *)
Example scenario_iscell :
  let σ := after (select_neurons (PyStr "iscell") None) fresh_state in
  (neurons σ).1 = inr [0; 2] ∧ (nrois σ).1 = inr 2%nat ∧
  (x σ).1 = inr [11; 31] ∧ (y σ).1 = inr [10; 30] ∧
  stdout σ = [MsgSelectIscell 2].
Proof. split_and!; vm_compute; reflexivity. Qed.

(** The files that the session reads, after the five of [__init__]: the
    fluorescence of plane 0 once, although it is asked for four times. *)
Example session_reads :
  np_loads (run draw session fresh_state)
  = np_loads fresh_state
    ++ [("data/suite2p/plane0/F.npy", true);
        ("data/suite2p/plane1/F.npy", true);
        ("data/suite2p/plane1/spks.npy", true)].
Proof. vm_compute. reflexivity. Qed.

(** A plane number out of range is stored by the setter, and raises when an
    accessor uses it. *)
Example plane_out_of_range_later :
  (F draw (after (set_plane 5) fresh_state)).1 = inl IndexError.
Proof. vm_compute. reflexivity. Qed.

Lemma fresh_state_wf : wf (self fresh_state).
Proof. split; vm_compute; reflexivity. Defined.

(** C3, as stated, fails: on the data set with two planes, setting the plane
    to 5, or to -1, raises nothing and changes the current plane. *)
Lemma set_plane_out_of_range :
  _nplanes (self fresh_state) = 2%nat ∧ _plane (self fresh_state) = 0 ∧
  (set_plane 5 fresh_state).1 = inr () ∧
  _plane (self (set_plane 5 fresh_state).2) = 5 ∧
  (set_plane (-1) fresh_state).1 = inr () ∧
  _plane (self (set_plane (-1) fresh_state).2) = -1.
Proof. split_and!; vm_compute; reflexivity. Qed.

Lemma neurons_set_get_witness :
  ∃ σ1, set_neurons (Vec [2; 0; 0]) fresh_state = (inr (), σ1) ∧
    ∀ σ2 : State Z nat,
      _plane (self σ2) = _plane (self σ1) →
      _selected_id (self σ2) = _selected_id (self σ1) →
      neurons σ2 = (inr [2; 0; 0], σ2).
Proof.
  apply (neurons_set_get [2; 0; 0] fresh_state 0).
  - vm_compute. reflexivity.
  - repeat constructor; vm_compute; discriminate.
Defined.

Lemma select_neurons_unrecognized_witness :
  select_neurons (PyStr "cells") None fresh_state = (inr (), fresh_state).
Proof.
  apply (select_neurons_unrecognized (PyStr "cells") None fresh_state).
  intros name [= <-] [H|[H|[H|H]]]; discriminate.
Defined.

Lemma select_by_flag_witness :
  ∃ cells others,
    select_neurons (PyStr "iscell") None fresh_state
    = (inr (), select_result fresh_state 0 cells
                 (MsgSelectIscell (length cells))) ∧
    select_neurons (PyStr "isnotcell") None fresh_state
    = (inr (), select_result fresh_state 0 others
                 (MsgSelectNotIscell (length others))) ∧
    NoDup cells ∧ NoDup others ∧
    (∀ i, i ∈ cells ↔ ∃ (n : nat) r, i = Z.of_nat n ∧ table0 !! n = Some r ∧
                                      PrimFloat.eqb r.1 1 = true) ∧
    (∀ i, i ∈ others ↔ ∃ (n : nat) r, i = Z.of_nat n ∧ table0 !! n = Some r ∧
                                       PrimFloat.eqb r.1 0 = true) ∧
    (binary_flags table0 → ∀ n : nat, (n < length table0)%nat →
       Z.of_nat n ∈ others ↔ Z.of_nat n ∉ cells).
Proof.
  apply (select_by_flag fresh_state 0 table0 None).
  - exact fresh_state_wf.
  - vm_compute. reflexivity.
  - vm_compute. reflexivity.
Defined.

Lemma select_by_probability_witness :
  ∃ above below,
    select_neurons (PyStr "iscell_p_larger_than") (Some 0.6%float) fresh_state
    = (inr (), select_result fresh_state 0 above
                 (MsgSelectLarger (length above) 0.6)) ∧
    select_neurons (PyStr "iscell_p_smaller_than") (Some 0.6%float) fresh_state
    = (inr (), select_result fresh_state 0 below
                 (MsgSelectSmaller (length below) 0.6)) ∧
    NoDup above ∧ NoDup below ∧
    (∀ i, i ∈ above ↔ ∃ (n : nat) r, i = Z.of_nat n ∧ table0 !! n = Some r ∧
                                      PrimFloat.ltb 0.6 r.2 = true) ∧
    (∀ i, i ∈ below ↔ ∃ (n : nat) r, i = Z.of_nat n ∧ table0 !! n = Some r ∧
                                      PrimFloat.ltb r.2 0.6 = true) ∧
    (∀ (n : nat) r, table0 !! n = Some r → PrimFloat.eqb r.2 0.6 = true →
       (Z.of_nat n ∉ above) ∧ (Z.of_nat n ∉ below)).
Proof.
  apply (select_by_probability fresh_state 0 table0 0.6%float).
  - exact fresh_state_wf.
  - vm_compute. reflexivity.
  - vm_compute. reflexivity.
Defined.

Lemma fresh_state_rows_match : iscell_rows_match (self fresh_state).
Proof.
  intros [|[|k]] t n Ht Hn; vm_compute in Ht, Hn; simplify_eq; reflexivity.
Defined.

Lemma select_neurons_sorted_witness :
  _selected_id
    (self (after (select_neurons (PyStr "iscell_p_larger_than")
                    (Some 0.1%float)) fresh_state)) !! 0%nat
  = Some [0; 1; 2] ∧
  ∃ ids n,
    py_getitem
      (_selected_id (self (after (select_neurons
                                    (PyStr "iscell_p_larger_than")
                                    (Some 0.1%float)) fresh_state)))
      (_plane (self (after (select_neurons (PyStr "iscell_p_larger_than")
                              (Some 0.1%float)) fresh_state))) = Some ids ∧
    py_getitem
      (_nrois_total (self (after (select_neurons
                                    (PyStr "iscell_p_larger_than")
                                    (Some 0.1%float)) fresh_state)))
      (_plane (self (after (select_neurons (PyStr "iscell_p_larger_than")
                              (Some 0.1%float)) fresh_state))) = Some n ∧
    StronglySorted Z.lt ids ∧ NoDup ids ∧
    Forall (λ i, 0 ≤ i < Z.of_nat n) ids.
Proof.
  split; [vm_compute; reflexivity|].
  apply (select_neurons_sorted "iscell_p_larger_than" (Some 0.1%float)
           fresh_state).
  - right. right. left. reflexivity.
  - exact fresh_state_wf.
  - exact fresh_state_rows_match.
  - vm_compute. reflexivity.
Defined.

Lemma warm_state_wf : wf (self warm_state).
Proof. split; vm_compute; reflexivity. Defined.

Lemma ids_012_valid : valid_ids F0 [0; 1; 2].
Proof. repeat constructor; vm_compute; eexists; reflexivity. Defined.

Lemma trace_rows_gathered_witness :
  ∃ r σ1 m1,
    accessor draw Fluorescence warm_state = (inr r, σ1) ∧
    heap σ1 !! r = Some m1 ∧
    shape0 m1 = length [0; 1; 2] ∧ shape1 m1 = shape1 F0 ∧
    (is_True (_shuffletraces (self warm_state)) = false →
       ∀ i id, [0; 1; 2] !! i = Some id →
               rows m1 !! i = py_getitem (rows F0) id) ∧
    (r ∉ dom (heap warm_state)) ∧ r ≠ 1%positive ∧
    cache Fluorescence (self σ1) = cache Fluorescence (self warm_state) ∧
    heap σ1 !! 1%positive = Some F0 ∧
    (∀ m', <[r:=m']> (heap σ1) !! 1%positive = Some F0).
Proof.
  apply (trace_rows_gathered draw Fluorescence warm_state 0 1%positive F0
           [0; 1; 2]).
  - exact warm_state_wf.
  - vm_compute. reflexivity.
  - vm_compute. reflexivity.
  - vm_compute. reflexivity.
  - vm_compute. reflexivity.
  - exact ids_012_valid.
Defined.

(** C1, as stated, fails: with [shuffletraces] set to [True], on a plane
    whose cache holds the matrix [F0] and with the selection [0, 1, 2], the
    matrix that [F] returns has the row [3, 4, 2, 1] where [F0] has
    [1, 2, 3, 4]. *)
Lemma shuffled_rows_differ :
  _F (self warm_shuffling) !! 0%nat = Some (Some 1%positive) ∧
  heap warm_shuffling !! 1%positive = Some F0 ∧
  _selected_id (self warm_shuffling) !! 0%nat = Some [0; 1; 2] ∧
  ∃ r σ1 m1,
    F draw warm_shuffling = (inr r, σ1) ∧ heap σ1 !! r = Some m1 ∧
    rows m1 !! 0%nat = Some [3; 4; 2; 1] ∧
    py_getitem (rows F0) 0 = Some [1; 2; 3; 4] ∧
    rows m1 !! 0%nat ≠ py_getitem (rows F0) 0.
Proof.
  split_and!; [vm_compute; reflexivity..|].
  exists 5%positive, (F draw warm_shuffling).2,
    {| shape1 := 4; rows := [[3; 4; 2; 1]; [5; 7; 6; 8]; [12; 9; 10; 11]] |}.
  split_and!; [vm_compute; reflexivity..|]. vm_compute. discriminate.
Qed.

Lemma trace_rows_shuffled_witness :
  ∃ r σ1 m1 g c,
    accessor draw Fluorescence cold_shuffling = (inr r, σ1) ∧
    take_rows F0 [0; 1; 2] = Some g ∧
    heap σ1 !! r = Some m1 ∧
    Forall2 (≡ₚ) (rows m1) (rows g) ∧
    (rng σ1, rows m1) = shuffle_rows draw (rng cold_shuffling) (rows g) ∧
    cache Fluorescence (self σ1) !! 0%nat = Some (Some c) ∧
    heap σ1 !! c = Some F0 ∧
    r ≠ c ∧
    (∀ c0, cache Fluorescence (self cold_shuffling) !! 0%nat
           = Some (Some c0) → c0 = c).
Proof.
  apply (trace_rows_shuffled draw Fluorescence cold_shuffling 0 F0 [0; 1; 2]).
  - split; vm_compute; reflexivity.
  - vm_compute. reflexivity.
  - right. split; [vm_compute; reflexivity|].
    exists "data/suite2p/plane0". split; vm_compute; reflexivity.
  - vm_compute. reflexivity.
  - exact ids_012_valid.
  - vm_compute. reflexivity.
Defined.

Lemma accessor_twice_witness :
  (∃ m1 r2 σ2 m2,
     heap warm_state !! 3%positive = Some m1 ∧
     accessor draw Fluorescence warm_state = (inr r2, σ2) ∧
     heap σ2 !! r2 = Some m2 ∧ same_shape m1 m2 ∧
     (is_True (_shuffletraces (self fresh_state)) = false → m1 = m2) ∧
     r2 ≠ 3%positive ∧ heap σ2 !! 3%positive = Some m1) ∧
  (∀ v, ∃ m1 r2 σ2 m2,
     heap warm_state !! 3%positive = Some m1 ∧
     accessor draw Fluorescence (set_shuffletraces v warm_state).2
     = (inr r2, σ2) ∧
     heap σ2 !! r2 = Some m2 ∧ same_shape m1 m2 ∧
     (is_True (_shuffletraces (self fresh_state)) = false →
      is_True v = false → m1 = m2) ∧
     r2 ≠ 3%positive ∧ heap σ2 !! 3%positive = Some m1).
Proof.
  apply (accessor_twice draw Fluorescence fresh_state 3%positive warm_state).
  - exact fresh_state_wf.
  - vm_compute. reflexivity.
Defined.

Lemma trace_file_loaded_once_witness :
  (∃ new,
     np_loads (run draw session fresh_state) = np_loads fresh_state ++ new ∧
     (loads_of (os_path_join "data/suite2p/plane0" (trace_file Fluorescence))
        new ≤ 1)%nat ∧
     (cached Fluorescence (self fresh_state) 0 = 1%nat →
      reads_of (os_path_join "data/suite2p/plane0" (trace_file Fluorescence))
        new = 0%nat) ∧
     (loads_of (os_path_join "data/suite2p/plane0" (trace_file Fluorescence))
        new + cached Fluorescence (self fresh_state) 0
      = cached Fluorescence (self (run draw session fresh_state)) 0)%nat) ∧
  (current_slot (self fresh_state) = Some 0%nat →
   cache Fluorescence (self fresh_state) !! 0%nat = Some None →
   ∃ ok, np_loads (accessor draw Fluorescence fresh_state).2
         = np_loads fresh_state
           ++ [(os_path_join "data/suite2p/plane0" (trace_file Fluorescence),
                ok)]).
Proof.
  apply (trace_file_loaded_once draw session fresh_state Fluorescence 0
           "data/suite2p/plane0").
  - exact fresh_state_wf.
  - apply (bool_decide_eq_true_1 (NoDup (_plane_paths (self fresh_state)))).
    vm_compute. reflexivity.
  - vm_compute. reflexivity.
Defined.

(** * The further properties on the small data sets *)

Import Damaged.

(** C2, as stated, fails: while the fluorescence file of plane 0 cannot be
    read, the read step runs on every access and not on the first only;
    three calls of [F] read the file three times, and load it never. *)
Lemma failed_read_repeated :
  np_loads (run draw [GetF; GetF; GetF] (on_disk disk_without_F fresh_state))
  = np_loads (on_disk disk_without_F fresh_state)
    ++ [("data/suite2p/plane0/F.npy", false);
        ("data/suite2p/plane0/F.npy", false);
        ("data/suite2p/plane0/F.npy", false)] ∧
  reads_of "data/suite2p/plane0/F.npy"
    [("data/suite2p/plane0/F.npy", false);
     ("data/suite2p/plane0/F.npy", false);
     ("data/suite2p/plane0/F.npy", false)] = 3%nat ∧
  cached Fluorescence
    (self (run draw [GetF; GetF; GetF] (on_disk disk_without_F fresh_state)))
    0 = 0%nat.
Proof. split_and!; vm_compute; reflexivity. Qed.

(** C7, as stated, fails: the id 2^63 of an array of unsigned integers is
    read back as -2^63, and on a plane number that denotes no plane the
    setter raises. *)
Lemma neurons_wraps_or_raises :
  (set_neurons (Vec [2 ^ 63]) fresh_state).1 = inr () ∧
  (neurons (set_neurons (Vec [2 ^ 63]) fresh_state).2).1 = inr [- 2 ^ 63] ∧
  [- 2 ^ 63] ≠ [2 ^ 63] ∧
  _plane (self lost_state) = 5 ∧ _nplanes (self lost_state) = 2%nat ∧
  (set_neurons (Vec [0]) lost_state).1 = inl IndexError.
Proof. split_and!; vm_compute; (reflexivity || discriminate). Qed.

(** C10, as stated, fails: when [iscell.npy] of a plane has more rows than
    [stat.npy] has ROIs (here four and three), ["iscell"] selects the row
    index 3, which is no ROI of the plane. *)
Lemma selection_beyond_roi_count :
  __init__ "data" (on_disk disk_longer_iscell boot)
  = (inr (), mismatched_state) ∧
  py_getitem (_nrois_total (self mismatched_state))
    (_plane (self mismatched_state)) = Some 3%nat ∧
  (select_neurons (PyStr "iscell") None mismatched_state).1 = inr () ∧
  py_getitem
    (_selected_id
       (self (select_neurons (PyStr "iscell") None mismatched_state).2))
    (_plane (self (select_neurons (PyStr "iscell") None mismatched_state).2))
  = Some [0; 2; 3] ∧
  ¬ Forall (λ i, 0 ≤ i < Z.of_nat 3) [0; 2; 3].
Proof.
  split_and!; [vm_compute; reflexivity..|].
  intros H. apply Forall_cons in H as [_ H]. apply Forall_cons in H as [_ H].
  apply Forall_cons in H as [[_ H] _]. vm_compute in H. discriminate.
Qed.


Lemma init_reads_files_witness :
  np_loads fresh_state
  = np_loads boot ++ init_reads "data" (_plane_paths (self fresh_state)) ∧
  (∀ p k, reads_of (os_path_join p (trace_file k))
            (init_reads "data" (_plane_paths (self fresh_state))) = 0%nat) ∧
  heap fresh_state = heap boot ∧ rng fresh_state = rng boot ∧
  stdout fresh_state = stdout boot ∧ files fresh_state = files boot.
Proof.
  apply (init_reads_files "data" boot fresh_state).
  - split; [discriminate|reflexivity].
  - repeat constructor; discriminate.
  - vm_compute. reflexivity.
Defined.



Lemma init_selects_all_witness :
  let σ2 := (set_plane (-1) fresh_state).2 in
  neurons σ2 = (inr (all_rois (length [roi 40 41; roi 50 51])), σ2) ∧
  nrois σ2 = (inr (length (all_rois (length [roi 40 41; roi 50 51]))), σ2) ∧
  length (all_rois (length [roi 40 41; roi 50 51]))
  = length [roi 40 41; roi 50 51] ∧
  x σ2 = (inr (np_int <$> roi_x [roi 40 41; roi 50 51]), σ2) ∧
  y σ2 = (inr (np_int <$> roi_y [roi 40 41; roi 50 51]), σ2).
Proof.
  apply (init_selects_all "data" boot fresh_state (-1) 1
           "data/suite2p/plane1" [roi 40 41; roi 50 51]).
  - vm_compute. reflexivity.
  - vm_compute. reflexivity.
  - vm_compute. reflexivity.
  - vm_compute. reflexivity.
  - vm_compute. discriminate.
Defined.

Lemma positions_follow_selection_witness :
  (Forall (λ id, is_Some (py_index (length [11; 21; 31]) id)) [0; 1; 2] →
   ∃ r, x fresh_state = (inr r, fresh_state) ∧ length r = length [0; 1; 2] ∧
     ∀ (i : nat) id, [0; 1; 2] !! i = Some id →
       r !! i = np_int <$> py_getitem [11; 21; 31] id) ∧
  (¬ Forall (λ id, is_Some (py_index (length [11; 21; 31]) id)) [0; 1; 2] →
   x fresh_state = (inl IndexError, fresh_state)) ∧
  (Forall (λ id, is_Some (py_index (length [10; 20; 30]) id)) [0; 1; 2] →
   ∃ r, y fresh_state = (inr r, fresh_state) ∧ length r = length [0; 1; 2] ∧
     ∀ (i : nat) id, [0; 1; 2] !! i = Some id →
       r !! i = np_int <$> py_getitem [10; 20; 30] id) ∧
  (¬ Forall (λ id, is_Some (py_index (length [10; 20; 30]) id)) [0; 1; 2] →
   y fresh_state = (inl IndexError, fresh_state)).
Proof.
  apply (positions_follow_selection fresh_state [11; 21; 31] [10; 20; 30]
           [0; 1; 2]).
  - vm_compute. reflexivity.
  - vm_compute. reflexivity.
  - vm_compute. reflexivity.
  - repeat constructor; vm_compute; discriminate.
Defined.

Lemma nrois_counts_selection_witness :
  nrois fresh_state = (inr (length [0; 1; 2]), fresh_state) ∧
  (∀ r (σ2 : State Z nat), x fresh_state = (inr r, σ2) →
     length r = length [0; 1; 2]) ∧
  (∀ r (σ2 : State Z nat), y fresh_state = (inr r, σ2) →
     length r = length [0; 1; 2]).
Proof.
  apply (nrois_counts_selection fresh_state [0; 1; 2] fresh_state).
  vm_compute. reflexivity.
Defined.

Lemma no_plane_IndexError_witness :
  neurons lost_state = (inl IndexError, lost_state) ∧
  nrois lost_state = (inl IndexError, lost_state) ∧
  x lost_state = (inl IndexError, lost_state) ∧
  y lost_state = (inl IndexError, lost_state) ∧
  (∀ selection, set_neurons selection lost_state
                = (inl IndexError, lost_state)) ∧
  (∀ name threshold, recognized name →
     select_neurons (PyStr name) threshold lost_state
     = (inl IndexError, lost_state)) ∧
  (∀ k, accessor draw k lost_state = (inl IndexError, lost_state)).
Proof.
  apply (no_plane_IndexError draw lost_state).
  - split; vm_compute; reflexivity.
  - vm_compute. reflexivity.
Defined.

Lemma missing_threshold_TypeError_witness :
  select_neurons (PyStr "iscell_p_larger_than") None fresh_state
  = (inl TypeError, fresh_state) ∧
  select_neurons (PyStr "iscell_p_smaller_than") None fresh_state
  = (inl TypeError, fresh_state).
Proof.
  apply (missing_threshold_TypeError fresh_state 0 table0).
  - exact fresh_state_wf.
  - vm_compute. reflexivity.
  - vm_compute. reflexivity.
  - discriminate.
Defined.

Lemma getters_pure_witness : (exec draw GetX fresh_state).2 = fresh_state.
Proof. apply (getters_pure draw GetX fresh_state). reflexivity. Defined.

Lemma metadata_immutable_witness :
  metadata (self (run draw session fresh_state)) = metadata (self fresh_state) ∧
  files (run draw session fresh_state) = files fresh_state ∧
  wf (self (run draw session fresh_state)).
Proof. apply (metadata_immutable draw session fresh_state fresh_state_wf). Defined.

Lemma heap_arrays_kept_witness :
  heap (run draw session warm_state) !! 3%positive = Some F0.
Proof.
  apply (heap_arrays_kept draw session warm_state 3%positive F0).
  - exact warm_state_wf.
  - vm_compute. reflexivity.
Defined.

Lemma cache_slot_kept_witness :
  cache Fluorescence (self (run draw session warm_state)) !! 0%nat
  = Some (Some 1%positive) ∧
  cached Fluorescence (self (run draw session warm_state)) 0 = 1%nat.
Proof.
  apply (cache_slot_kept draw session warm_state Fluorescence 0 1%positive).
  - exact warm_state_wf.
  - vm_compute. reflexivity.
Defined.

Lemma no_shuffle_no_draw_witness :
  rng (run draw session fresh_state) = rng fresh_state ∧
  is_True (_shuffletraces (self (run draw session fresh_state))) = false.
Proof.
  apply (no_shuffle_no_draw draw session fresh_state).
  - exact fresh_state_wf.
  - vm_compute. reflexivity.
  - repeat constructor; discriminate.
Defined.

Lemma other_planes_selection_kept_witness :
  _plane (self (run draw [SelectNeurons (PyStr "iscell") None; GetF;
                          SetNeurons (Vec [1])] fresh_state))
  = _plane (self fresh_state) ∧
  ∀ j : nat, j ≠ 0%nat →
    _selected_id (self (run draw [SelectNeurons (PyStr "iscell") None; GetF;
                                  SetNeurons (Vec [1])] fresh_state)) !! j
    = _selected_id (self fresh_state) !! j.
Proof.
  apply (other_planes_selection_kept draw
           [SelectNeurons (PyStr "iscell") None; GetF; SetNeurons (Vec [1])]
           fresh_state 0).
  - exact fresh_state_wf.
  - vm_compute. reflexivity.
  - repeat constructor.
Defined.

Lemma selection_only_by_setters_witness :
  _selected_id (self (run draw [GetF; SetPlane 1; GetSpikes;
                                SetShuffletraces (PyBool true)] fresh_state))
  = _selected_id (self fresh_state).
Proof.
  apply (selection_only_by_setters draw
           [GetF; SetPlane 1; GetSpikes; SetShuffletraces (PyBool true)]
           fresh_state).
  - exact fresh_state_wf.
  - repeat constructor.
Defined.

Lemma cache_only_by_its_accessor_witness :
  cache Spikes (self (run draw [GetF; SetPlane 1; GetF;
                                SelectNeurons (PyStr "iscell") None]
                        fresh_state))
  = cache Spikes (self fresh_state).
Proof.
  apply (cache_only_by_its_accessor draw
           [GetF; SetPlane 1; GetF; SelectNeurons (PyStr "iscell") None]
           fresh_state Spikes).
  - exact fresh_state_wf.
  - repeat constructor.
Defined.

Lemma select_neurons_idempotent_witness :
  let σ1 := (select_neurons (PyStr "iscell") None fresh_state).2 in
  (select_neurons (PyStr "iscell") None σ1).1
  = (select_neurons (PyStr "iscell") None fresh_state).1 ∧
  self (select_neurons (PyStr "iscell") None σ1).2 = self σ1.
Proof.
  apply (select_neurons_idempotent (PyStr "iscell") None fresh_state
           fresh_state_wf).
Defined.

Lemma larger_smaller_disjoint_witness :
  _selected_id
    (self (select_neurons (PyStr "iscell_p_larger_than") (Some 0.5%float)
             fresh_state).2) !! 0%nat = Some [0; 2] ∧
  _selected_id
    (self (select_neurons (PyStr "iscell_p_smaller_than") (Some 0.5%float)
             fresh_state).2) !! 0%nat = Some [1] ∧
  ∀ i, i ∈ [0; 2] → i ∉ [1].
Proof.
  split; [vm_compute; reflexivity|]. split; [vm_compute; reflexivity|].
  apply (larger_smaller_disjoint fresh_state 0 0.5%float
           (select_neurons (PyStr "iscell_p_larger_than") (Some 0.5%float)
              fresh_state).2
           (select_neurons (PyStr "iscell_p_smaller_than") (Some 0.5%float)
              fresh_state).2
           [0; 2] [1]).
  - exact fresh_state_wf.
  - vm_compute. reflexivity.
  - vm_compute. reflexivity.
  - vm_compute. reflexivity.
  - vm_compute. reflexivity.
  - vm_compute. reflexivity.
Defined.

Lemma negative_plane_alias_witness :
  let σa := (set_plane 1 fresh_state).2 in
  let σb := (set_plane (1 - Z.of_nat (_nplanes (self fresh_state)))
               fresh_state).2 in
  current_slot (self σa) = Some (Z.to_nat 1) ∧
  current_slot (self σb) = Some (Z.to_nat 1) ∧
  (neurons σb).1 = (neurons σa).1 ∧ (nrois σb).1 = (nrois σa).1 ∧
  ∀ selection,
    _selected_id (self (set_neurons selection σb).2)
    = _selected_id (self (set_neurons selection σa).2).
Proof.
  apply (negative_plane_alias 1 fresh_state).
  - exact fresh_state_wf.
  - vm_compute. split; [discriminate|reflexivity].
Defined.

Lemma failed_load_retried_witness :
  let σ := on_disk disk_without_F fresh_state in
  let f := os_path_join "data/suite2p/plane0" (trace_file Fluorescence) in
  let σ1 := failed_load_state Fluorescence σ f in
  accessor draw Fluorescence σ = (inl (IOError f), σ1) ∧
  self σ1 = self σ ∧ heap σ1 = heap σ ∧
  accessor draw Fluorescence σ1
  = (inl (IOError f), failed_load_state Fluorescence σ1 f) ∧
  np_loads (failed_load_state Fluorescence σ1 f)
  = np_loads σ ++ [(f, false); (f, false)].
Proof.
  apply (failed_load_retried draw Fluorescence
           (on_disk disk_without_F fresh_state) 0 "data/suite2p/plane0").
  - split; vm_compute; reflexivity.
  - vm_compute. reflexivity.
  - vm_compute. reflexivity.
  - vm_compute. reflexivity.
  - vm_compute. reflexivity.
Defined.

Lemma accessor_returns_iff_valid_witness :
  (∃ r σ1, accessor draw Fluorescence fresh_state = (inr r, σ1))
  ↔ valid_ids F0 [0; 1; 2].
Proof.
  apply (accessor_returns_iff_valid draw Fluorescence fresh_state 0 F0
           [0; 1; 2]).
  - exact fresh_state_wf.
  - vm_compute. reflexivity.
  - right. split; [vm_compute; reflexivity|].
    exists "data/suite2p/plane0". split; vm_compute; reflexivity.
  - vm_compute. reflexivity.
  - repeat constructor; vm_compute; discriminate.
Defined.

Lemma bad_ids_IndexError_witness :
  (∀ c, cache Fluorescence (self overdrawn_state) !! 0%nat = Some (Some c) →
     accessor draw Fluorescence overdrawn_state
     = (inl IndexError, overdrawn_state)) ∧
  (∀ p, cache Fluorescence (self overdrawn_state) !! 0%nat = Some None →
     _plane_paths (self overdrawn_state) !! 0%nat = Some p →
     accessor draw Fluorescence overdrawn_state
     = (inl IndexError,
        loaded_state Fluorescence overdrawn_state 0
          (os_path_join p (trace_file Fluorescence)) F0)).
Proof.
  apply (bad_ids_IndexError draw Fluorescence overdrawn_state 0 F0 [7]).
  - split; vm_compute; reflexivity.
  - vm_compute. reflexivity.
  - right. split; [vm_compute; reflexivity|].
    exists "data/suite2p/plane0". split; vm_compute; reflexivity.
  - vm_compute. reflexivity.
  - repeat constructor; vm_compute; discriminate.
  - intros [[n Hn] _]%Forall_cons. vm_compute in Hn. discriminate.
Defined.

Lemma short_rows_not_shuffled_witness :
  ∃ r σ1 g,
    accessor draw Fluorescence (on_disk disk_one_frame cold_shuffling)
    = (inr r, σ1) ∧
    take_rows one_frame [0; 1; 2] = Some g ∧ heap σ1 !! r = Some g ∧
    rng σ1 = rng (on_disk disk_one_frame cold_shuffling).
Proof.
  apply (short_rows_not_shuffled draw Fluorescence
           (on_disk disk_one_frame cold_shuffling) 0 one_frame [0; 1; 2]).
  - split; vm_compute; reflexivity.
  - vm_compute. reflexivity.
  - right. split; [vm_compute; reflexivity|].
    exists "data/suite2p/plane0". split; vm_compute; reflexivity.
  - vm_compute. reflexivity.
  - repeat constructor; vm_compute; eauto.
  - repeat constructor; vm_compute; lia.
Defined.

Lemma selection_round_trip_witness :
  let σ1 := (set_neurons (Mat [[2]; [0]]) fresh_state).2 in
  set_neurons (Mat [[2]; [0]]) fresh_state = (inr (), σ1) ∧
  neurons σ1 = (inr (np_int <$> ravel (Mat [[2]; [0]])), σ1) ∧
  nrois σ1 = (inr (length (ravel (Mat [[2]; [0]]))), σ1) ∧
  ∀ j : nat, j ≠ 0%nat →
    _selected_id (self σ1) !! j = _selected_id (self fresh_state) !! j.
Proof.
  apply (selection_round_trip (Mat [[2]; [0]]) fresh_state 0).
  - exact fresh_state_wf.
  - vm_compute. reflexivity.
Defined.

Lemma rows_match_invariant_witness :
  iscell_rows_match (self fresh_state) ∧
  iscell_rows_match (self (run draw session fresh_state)).
Proof.
  apply (rows_match_invariant draw "data" boot fresh_state session).
  - split; [discriminate|reflexivity].
  - repeat constructor; discriminate.
  - vm_compute. reflexivity.
  - repeat constructor; intros stat t Hstat Ht; vm_compute in Hstat, Ht;
      simplify_eq; reflexivity.
Defined.
